(** * rps-game: match coordinator handlers and settlement service

    A shallow embedding of the parts of the repository that the
    specification talks about:

    - [Js]                JavaScript strings (UTF-16 code units), the
                          idioms [||], [??], [===], and UTF-8 encoding;
    - [Web3]              the interface of the key library the code calls;
    - [Buf]               Node buffers as lists of bytes;
    - [Effects]           transactions, the outside world (RPC node,
                          wallet, random source) and a state-and-exception
                          monad that logs what a run does;
    - [Fees], [FeesDouble] the payout arithmetic, on rationals and on
                          doubles;
    - [AutoFinalization]  [autoFinalizeSolGame] of the auto-finalization
                          service;
    - [AnchorProgram]     [finalizeGame] of hooks/use-anchor-program.ts;
    - [UseGame]           the socket event handlers of hooks/use-game.ts;
    - [Concrete], [Scenario]  a key library, a ledger and a session to run
                          the code on;
    - [Reporting]         what a run of [finalizeGame] reports;
    - [UseGameActions]    the game address and the actions of
                          hooks/use-game.ts, and [emit] of use-socket.ts;
    - [BlockhashCache]    the blockhash cache of the contract hook;
    - [ServiceStart]      [initializeService] of the service;
    - [PrivyWallet]       the wallet object of hooks/use-privy-wallet.tsx;
    - [Staking]           [initializeUserProfile], [createGame], [joinGame]
                          and [cancelGame] of the contract hook, and the
                          handlers of hooks/use-game.ts that call them;
    - [Samples], [StakingSamples]  more inputs to run the code on.

    Definitions come first, the theorems follow. *)

From Stdlib Require Import ZArith QArith Bool List String Ascii Lia.
From Stdlib Require PrimFloat.

(** Decimal literals for doubles are rounded to the nearest double, as in
    JavaScript. *)
Set Warnings "-inexact-float".
Import ListNotations.

Open Scope Z_scope.

(* ===================================================================== *)
(** ** JavaScript values *)
(* ===================================================================== *)

Module Js.

(** A JavaScript string is a sequence of UTF-16 code units; a code unit
    is kept as an integer in [0, 65535]. *)
Definition jsstring := list Z.

Definition code_unit (u : Z) : Prop := 0 <= u < 65536.
Definition well_formed (s : jsstring) : Prop := Forall code_unit s.
Definition ascii_only (s : jsstring) : Prop := Forall (fun u => 0 <= u < 128) s.

(** A source literal, written in ASCII. *)
Definition lit (s : string) : jsstring :=
  map (fun a => Z.of_N (N_of_ascii a)) (list_ascii_of_string s).

Fixpoint jsstring_eqb (a b : jsstring) : bool :=
  match a, b with
  | [], [] => true
  | x :: a', y :: b' => (x =? y) && jsstring_eqb a' b'
  | _, _ => false
  end.

(** [s.replace(/-/g, '')]: every dash (code unit 45) is dropped. *)
Definition remove_dashes (s : jsstring) : jsstring :=
  filter (fun u => negb (u =? 45)) s.

(** [s.substring(0, n)]: the first [n] code units. *)
Definition substring0 (n : nat) (s : jsstring) : jsstring := firstn n s.

(** [s.slice(0, n)] for a non-negative [n] is the same prefix. *)
Definition slice0 (n : nat) (s : jsstring) : jsstring := firstn n s.

Definition is_high_surrogate (u : Z) : bool := (55296 <=? u) && (u <=? 56319).
Definition is_low_surrogate (u : Z) : bool := (56320 <=? u) && (u <=? 57343).

(** UTF-8 bytes of one code point. *)
Definition utf8_of_code_point (c : Z) : list Z :=
  if c <? 128 then [c]
  else if c <? 2048 then
    [Z.lor 192 (Z.shiftr c 6); Z.lor 128 (Z.land c 63)]
  else if c <? 65536 then
    [Z.lor 224 (Z.shiftr c 12);
     Z.lor 128 (Z.land (Z.shiftr c 6) 63);
     Z.lor 128 (Z.land c 63)]
  else
    [Z.lor 240 (Z.shiftr c 18);
     Z.lor 128 (Z.land (Z.shiftr c 12) 63);
     Z.lor 128 (Z.land (Z.shiftr c 6) 63);
     Z.lor 128 (Z.land c 63)].

(** U+FFFD, written for a surrogate that has no partner. *)
Definition replacement_bytes : list Z := [239; 191; 189].

Definition combine_surrogates (hi lo : Z) : Z :=
  65536 + Z.shiftl (hi - 55296) 10 + (lo - 56320).

(** [Buffer.from(s, 'utf8')]. *)
Fixpoint utf8_encode (s : jsstring) : list Z :=
  match s with
  | [] => []
  | u :: rest =>
      if is_high_surrogate u then
        match rest with
        | v :: rest' =>
            if is_low_surrogate v
            then utf8_of_code_point (combine_surrogates u v) ++ utf8_encode rest'
            else replacement_bytes ++ utf8_encode rest
        | [] => replacement_bytes
        end
      else if is_low_surrogate u then replacement_bytes ++ utf8_encode rest
      else utf8_of_code_point u ++ utf8_encode rest
  end.

(** [a || b] on an optional string: null, undefined and the empty string
    are falsy. *)
Definition str_or (a : option jsstring) (b : option jsstring) : option jsstring :=
  match a with
  | Some (_ :: _) => a
  | _ => b
  end.

(** Truthiness of an optional string. *)
Definition truthy_str (a : option jsstring) : bool :=
  match a with
  | Some (_ :: _) => true
  | _ => false
  end.

(** [a ?? b]: only null and undefined give way. *)
Definition nullish {A} (a : option A) (b : option A) : option A :=
  match a with
  | Some _ => a
  | None => b
  end.

(** [a === b] on optional strings; undefined equals undefined. *)
Definition opt_str_eqb (a b : option jsstring) : bool :=
  match a, b with
  | Some x, Some y => jsstring_eqb x y
  | None, None => true
  | _, _ => false
  end.

(** A value that is a string, null or undefined, for the places where
    the code compares two such values with [===] (which tells null from
    undefined).  Elsewhere an absent value is [None]. *)
Inductive maybe_str : Type :=
| Undefined
| Null
| Str (s : jsstring).

(** [a === b] *)
Definition strict_eq (a b : maybe_str) : bool :=
  match a, b with
  | Undefined, Undefined => true
  | Null, Null => true
  | Str x, Str y => jsstring_eqb x y
  | _, _ => false
  end.

(** [a || null] *)
Definition or_null (a : maybe_str) : maybe_str :=
  match a with
  | Str (_ :: _) => a
  | _ => Null
  end.

(** A string-or-null field: null for everything falsy. *)
Definition to_option (a : maybe_str) : option jsstring :=
  match a with
  | Str (c :: s) => Some (c :: s)
  | _ => None
  end.

(** What a throwing computation gives: a value, or the error thrown. *)
Inductive result (A : Type) : Type :=
| Ok (a : A)
| Throw (msg : string).
Arguments Ok {A} a.
Arguments Throw {A} msg.

End Js.
Import Js.

(* ===================================================================== *)
(** ** The ledger libraries *)
(* ===================================================================== *)

(** What the code uses of @solana/web3.js: public keys and the derivation
    of program addresses.  The library is not part of the repository, so
    it is an interface; the code is modelled over any implementation. *)
Class Web3 : Type := {
  PublicKey : Type;
  (** [a.equals(b)] *)
  pk_equals : PublicKey -> PublicKey -> bool;
  (** [new PublicKey(text)] from base58 text; throws on bad input *)
  pk_of_base58 : jsstring -> result PublicKey;
  (** [new PublicKey(bytes)] *)
  pk_of_bytes : list Z -> result PublicKey;
  (** [key.toBuffer()] *)
  pk_to_buffer : PublicKey -> list Z;
  (** [PublicKey.findProgramAddressSync(seeds, programId)]; throws when a
      seed is too long or no bump is found *)
  findProgramAddressSync : list (list Z) -> PublicKey -> result (PublicKey * Z);
  (** [SystemProgram.programId] *)
  system_program_id : PublicKey
}.

(** [PublicKey.findProgramAddressSync(...)[0]]: the address without the bump. *)
Definition first_of `{Web3} (r : result (PublicKey * Z)) : result PublicKey :=
  match r with
  | Ok (pk, _) => Ok pk
  | Throw m => Throw m
  end.

(** ** Node buffers, as lists of bytes *)
Module Buf.

(** [buf.slice(a, b)] for [0 <= a <= b]; both ends are clamped to the
    length of the buffer. *)
Definition slice (a b : Z) (buf : list Z) : list Z :=
  firstn (Z.to_nat (b - a)) (skipn (Z.to_nat a) buf).

(** [buf[i]]: undefined outside the buffer. *)
Definition get (i : Z) (buf : list Z) : option Z :=
  if i <? 0 then None else nth_error buf (Z.to_nat i).

(** [buf.readUInt32LE(offset)]: throws a RangeError unless four bytes
    are there. *)
Definition readUInt32LE (offset : Z) (buf : list Z) : result Z :=
  match slice offset (offset + 4) buf with
  | [b0; b1; b2; b3] => Ok (b0 + 256 * b1 + 65536 * b2 + 16777216 * b3)
  | _ => Throw "RangeError: out of range"
  end.

(** [buf.writeUInt32LE(v, 0)] into [Buffer.alloc(4)]. *)
Definition u32le (v : Z) : list Z :=
  [v mod 256; (v / 256) mod 256; (v / 65536) mod 256; (v / 16777216) mod 256].

End Buf.

(* ===================================================================== *)
(** ** Transactions, the outside world, and the effect monad *)
(* ===================================================================== *)

Module Effects.
Section WithWeb3.
Context `{Web3}.

Inductive Move : Type := Rock | Paper | Scissors.

Record AccountMeta : Type := {
  pubkey : PublicKey;
  isSigner : bool;
  isWritable : bool
}.

(** The transactions the code builds, by the instruction they carry. *)
Inductive Instruction : Type :=
| IxSetWinner (gameId : jsstring) (winner : PublicKey) (game user : PublicKey)
| IxSubmitMove (gameId : jsstring) (commitment : list Z) (game user : PublicKey)
| IxRevealMoves (gameId : jsstring) (move : Move) (nonce : Z) (game user : PublicKey)
| IxAbandonGame (gameId : jsstring) (game user : PublicKey)
| IxFinalizeAbandonedGame (gameId : jsstring)
    (game player1Profile player2Profile player1 player2 : PublicKey)
| IxFinalizeGame (gameId : jsstring)
    (game player1Profile player2Profile player1 player2 : PublicKey)
| IxRaw (programId : PublicKey) (keys : list AccountMeta) (data : list Z).

Definition Signature := jsstring.

(** The ledger RPC node, the wallet and the random source, as the code
    sees them: each call answers and moves the world on. *)
Class World (W : Type) : Type := {
  (** [connection.getAccountInfo(address)]: the account data, or null *)
  get_account_info : PublicKey -> W -> result (option (list Z)) * W;
  (** Anchor's [.rpc()] and [provider.sendAndConfirm(tx)] *)
  send_and_confirm : Instruction -> W -> result Signature * W;
  (** the wallet's [sendTransaction(tx)] *)
  wallet_send : Instruction -> W -> result Signature * W;
  (** [connection.confirmTransaction(sig)]: [confirmation.value.err] *)
  confirm_transaction : Signature -> W -> result (option string) * W;
  (** [Math.floor(Math.random() * 1000000)] *)
  random_nonce : W -> Z * W
}.

(** Messages handed to the caller's callbacks. *)
Inductive Notice : Type :=
| OnError (msg : string)
| OnSuccess (msg : string)
| OnRecovered (stakeInSol expectedWinnings : Q)
| OnComplete.

(** What a run did, in order. *)
Inductive Action : Type :=
| Fetched (address : PublicKey)
| Submitted (ix : Instruction)
| Confirmed (sig : Signature)
| Notified (n : Notice).

Section Monad.
Context {W : Type} {HW : World W}.

Record St : Type := { world : W; log : list Action }.

Definition M (A : Type) : Type := St -> result A * St.

Definition ret {A} (a : A) : M A := fun s => (Ok a, s).
Definition throw {A} (msg : string) : M A := fun s => (Throw msg, s).

Definition bind {A B} (m : M A) (k : A -> M B) : M B :=
  fun s =>
    match m s with
    | (Ok a, s') => k a s'
    | (Throw e, s') => (Throw e, s')
    end.

(** [try { m } catch (e) { h e }] *)
Definition try_catch {A} (m : M A) (h : string -> M A) : M A :=
  fun s =>
    match m s with
    | (Ok a, s') => (Ok a, s')
    | (Throw e, s') => h e s'
    end.

(** A pure computation that may throw. *)
Definition lift {A} (r : result A) : M A := fun s => (r, s).

Definition record (a : Action) : M unit :=
  fun s => (Ok tt, {| world := world s; log := log s ++ [a] |}).

Definition call {A} (a : Action) (f : W -> result A * W) : M A :=
  fun s =>
    let '(r, w') := f (world s) in
    (r, {| world := w'; log := log s ++ [a] |}).

Definition getAccountInfo (address : PublicKey) : M (option (list Z)) :=
  call (Fetched address) (get_account_info address).

Definition sendAndConfirm (ix : Instruction) : M Signature :=
  call (Submitted ix) (send_and_confirm ix).

Definition sendTransaction (ix : Instruction) : M Signature :=
  call (Submitted ix) (wallet_send ix).

Definition confirmTransaction (sig : Signature) : M (option string) :=
  call (Confirmed sig) (confirm_transaction sig).

Definition random : M Z :=
  fun s =>
    let '(n, w') := random_nonce (world s) in
    (Ok n, {| world := w'; log := log s |}).

Definition notify (n : Notice) : M unit := record (Notified n).

(** Running from a world with an empty log. *)
Definition run {A} (m : M A) (w : W) : result A * St :=
  m {| world := w; log := [] |}.

(** [m] only appends to the log, and every action it appends satisfies
    [P]. *)
Definition emits {A} (P : Action -> Prop) (m : M A) : Prop :=
  forall s : St,
    exists added : list Action,
      log (snd (m s)) = log s ++ added /\ Forall P added.

End Monad.

(** A finalize transaction of the service: the hand-built instruction. *)
Definition is_finalize (a : Action) : bool :=
  match a with
  | Submitted (IxRaw _ _ _) => true
  | _ => false
  end.

(** The number of finalize transactions submitted. *)
Definition payouts (l : list Action) : nat :=
  List.length (filter is_finalize l).

(** The party an action names as the one acting or winning on the
    ledger: the user of a move, reveal or abandon instruction, the winner
    of a set-winner instruction. *)
Definition names (party : PublicKey) (a : Action) : Prop :=
  match a with
  | Submitted (IxSubmitMove _ _ _ user) => user = party
  | Submitted (IxRevealMoves _ _ _ _ user) => user = party
  | Submitted (IxAbandonGame _ _ user) => user = party
  | Submitted (IxSetWinner _ winner _ _) => winner = party
  | _ => True
  end.

End WithWeb3.

Declare Scope eff_scope.
Delimit Scope eff_scope with eff.
Notation "'let*' x ':=' m 'in' k" := (bind m (fun x => k))
  (at level 61, x name, m at next level, right associativity) : eff_scope.
Notation "m ';;' k" := (bind m (fun _ => k))
  (at level 61, right associativity) : eff_scope.

End Effects.
Import Effects.

(* ===================================================================== *)
(** ** Payout arithmetic *)
(* ===================================================================== *)

(** The amounts the code computes from the stake.  JavaScript numbers are
    kept as exact rationals: the comparisons and products below are those
    of the source, without the rounding of IEEE doubles. *)
Module Fees.
Open Scope Q_scope.

(** [stake <= 0.01 ? 0.05 : stake <= 0.05 ? 0.03 : 0.02], the expression
    shared by the service and the hook. *)
Definition feeRate (stakeAmount : Q) : Q :=
  if Qle_bool stakeAmount (1 # 100) then 5 # 100
  else if Qle_bool stakeAmount (5 # 100) then 3 # 100
  else 2 # 100.

(** autoFinalizeSolGame, after the finalize transaction. *)
Definition totalPot (stakeAmount : Q) : Q := stakeAmount * 2.
Definition platformFee (stakeAmount : Q) : Q :=
  totalPot stakeAmount * feeRate stakeAmount.
Definition expectedWinnings (stakeAmount : Q) : Q :=
  totalPot stakeAmount - platformFee stakeAmount.

(** finalizeGame of the hook, on the abandon pathway. *)
Definition hook_expectedWinnings (stakeInSol : Q) : Q :=
  stakeInSol * 2 * (1 - feeRate stakeInSol).

Close Scope Q_scope.
End Fees.

(** The same expressions on IEEE 754 doubles, which is what a JavaScript
    number is; used to see how far the rounding moves the results. *)
Module FeesDouble.
Import PrimFloat.
Open Scope float_scope.

Definition feeRate (stakeAmount : float) : float :=
  if stakeAmount <=? 0.01 then 0.05
  else if stakeAmount <=? 0.05 then 0.03
  else 0.02.

Definition totalPot (stakeAmount : float) : float := stakeAmount * 2.
Definition platformFee (stakeAmount : float) : float :=
  totalPot stakeAmount * feeRate stakeAmount.
Definition expectedWinnings (stakeAmount : float) : float :=
  totalPot stakeAmount - platformFee stakeAmount.
Definition hook_expectedWinnings (stakeInSol : float) : float :=
  stakeInSol * 2 * (1 - feeRate stakeInSol).

Close Scope float_scope.
End FeesDouble.

(* ===================================================================== *)
(** ** services/autoFinalizationService: autoFinalizeSolGame *)
(* ===================================================================== *)

Module AutoFinalization.
Section WithWorld.
Context `{Web3} {W : Type} {HW : World W}.
Open Scope eff_scope.

(** Module-level state and configuration: [serviceWallet] is null until
    [initializeService] has run; [PLATFORM_WALLET] comes from a
    configuration file. *)
Record Config : Type := {
  serviceWallet : option PublicKey;
  PLATFORM_WALLET : PublicKey
}.

Definition PROGRAM_ID : result PublicKey :=
  pk_of_base58 (lit "GstXQkBpu26KABj6YZ3pYKJhQphoQ72YL1zL38NC6D9U").

(** The seed of the game account: dashes removed, first 32 code units,
    UTF-8. *)
Definition game_seed (gameId : jsstring) : list Z :=
  let truncatedGameId := substring0 32 (remove_dashes gameId) in
  utf8_encode truncatedGameId.

Definition findGamePDA (gameId : jsstring) : result PublicKey :=
  match PROGRAM_ID with
  | Ok programId =>
      first_of (findProgramAddressSync
                  [utf8_encode (lit "game"); game_seed gameId] programId)
  | Throw m => Throw m
  end.

Definition findUserProfilePDA (userPublicKey : PublicKey) : result PublicKey :=
  match PROGRAM_ID with
  | Ok programId =>
      first_of (findProgramAddressSync
                  [utf8_encode (lit "user_profile"); pk_to_buffer userPublicKey]
                  programId)
  | Throw m => Throw m
  end.

(** The two player keys, read from the game account at fixed offsets:
    discriminator (8), game id (4 + length), player1 (32), option tag
    (1), player2 (32). *)
Definition parse_players (gameData : list Z) : result (PublicKey * PublicKey) :=
  match Buf.readUInt32LE 8 gameData with
  | Throw m => Throw m
  | Ok gameIdLength =>
      let offset := 8 + 4 + gameIdLength in
      match pk_of_bytes (Buf.slice offset (offset + 32) gameData) with
      | Throw m => Throw m
      | Ok player1Key =>
          let offset := offset + 32 in
          match Buf.get offset gameData with
          | Some 1 =>
              let offset := offset + 1 in
              match pk_of_bytes (Buf.slice offset (offset + 32) gameData) with
              | Throw m => Throw m
              | Ok player2Key => Ok (player1Key, player2Key)
              end
          | _ => Throw "Game has no player2 - cannot finalize"
          end
      end
  end.

Definition FINALIZE_GAME_DISCRIMINATOR : list Z :=
  [203; 227; 3; 167; 186; 102; 76; 10].

(** Discriminator, then the game id as a length-prefixed UTF-8 string. *)
Definition instructionData (gameId : jsstring) : list Z :=
  let gameIdBuffer := utf8_encode gameId in
  FINALIZE_GAME_DISCRIMINATOR
    ++ Buf.u32le (Z.of_nat (List.length gameIdBuffer))
    ++ gameIdBuffer.

(** The referrer of the winner, read from the winner's profile account;
    every failure in here is swallowed and leaves what was assigned so
    far.  Gives [referrerWallet], [referrerProfilePDA], [hasReferrer]. *)
Definition lookup_referrer (cfg : Config)
    (winnerProfilePDA player1ProfilePDA : PublicKey)
  : M (PublicKey * PublicKey * bool) :=
  let defaults := (PLATFORM_WALLET cfg, player1ProfilePDA, false) in
  try_catch
    (let* winnerProfileAccount := getAccountInfo winnerProfilePDA in
     match winnerProfileAccount with
     | None => ret defaults
     | Some profileData =>
         let offset := 8 + 8 + 4 + 4 + 4 + 8 + 8 in
         match Buf.get offset profileData with
         | Some 1 =>
             let offset := offset + 1 in
             match pk_of_bytes (Buf.slice offset (offset + 32) profileData) with
             | Throw _ => ret defaults
             | Ok referrerWallet =>
                 match findUserProfilePDA referrerWallet with
                 | Throw _ => ret (referrerWallet, player1ProfilePDA, false)
                 | Ok referrerProfilePDA =>
                     ret (referrerWallet, referrerProfilePDA, true)
                 end
             end
         | _ => ret defaults
         end
     end)
    (fun _ => ret defaults).

Definition meta (k : PublicKey) (writable : bool) : AccountMeta :=
  {| pubkey := k; isSigner := false; isWritable := writable |}.

Definition finalizeInstruction (programId gamePDA
    player1ProfilePDA player2ProfilePDA player1Key player2Key
    platformWallet referrerWallet referrerProfilePDA : PublicKey)
    (data : list Z) : Instruction :=
  IxRaw programId
    [ meta gamePDA true;
      meta player1ProfilePDA true;
      meta player2ProfilePDA true;
      meta player1Key true;
      meta player2Key true;
      meta platformWallet true;
      meta referrerWallet true;
      meta referrerProfilePDA true;
      meta system_program_id false ]
    data.

(** The body of the outer [try].  Building the provider and the program
    object is taken not to throw; the amounts computed from [stakeAmount]
    after the finalize transaction (see [Fees]) are only printed. *)
Definition finalize_body (cfg : Config)
    (gameId winnerPublicKey loserPublicKey : jsstring) (stakeAmount : Q)
  : M bool :=
  match serviceWallet cfg with
  | None => throw "Service wallet not initialized"
  | Some serviceKey =>
      let* gamePDA := lift (findGamePDA gameId) in
      let* gameAccount := getAccountInfo gamePDA in
      match gameAccount with
      | None =>
          throw "Game account not found on-chain. SOL games must be created through smart contract with escrow."
      | Some gameData =>
          let* players := lift (parse_players gameData) in
          let player1Key := fst players in
          let player2Key := snd players in
          let* player1ProfilePDA := lift (findUserProfilePDA player1Key) in
          let* player2ProfilePDA := lift (findUserProfilePDA player2Key) in
          let* actualWinnerPubkey := lift (pk_of_base58 winnerPublicKey) in
          try_catch
            (let* setWinnerSig :=
               sendAndConfirm
                 (IxSetWinner gameId actualWinnerPubkey gamePDA serviceKey) in
             let* gameAccountAfter := getAccountInfo gamePDA in
             ret tt)
            (fun setWinnerError => throw setWinnerError) ;;
          let* winnerKey := lift (pk_of_base58 winnerPublicKey) in
          let* winnerProfilePDA := lift (findUserProfilePDA winnerKey) in
          let* referrer :=
            lookup_referrer cfg winnerProfilePDA player1ProfilePDA in
          let referrerWallet := fst (fst referrer) in
          let referrerProfilePDA := snd (fst referrer) in
          let* programId := lift PROGRAM_ID in
          let* finalizeSig :=
            sendAndConfirm
              (finalizeInstruction programId gamePDA
                 player1ProfilePDA player2ProfilePDA player1Key player2Key
                 (PLATFORM_WALLET cfg) referrerWallet referrerProfilePDA
                 (instructionData gameId)) in
          ret true
      end
  end.

(** [autoFinalizeSolGame(gameId, winnerPublicKey, loserPublicKey,
    stakeAmount)]: whatever the body throws is caught, logged, and turned
    into [false]; the fallback recovery in the handler is a stub. *)
Definition autoFinalizeSolGame (cfg : Config)
    (gameId winnerPublicKey loserPublicKey : jsstring) (stakeAmount : Q)
  : M bool :=
  try_catch
    (finalize_body cfg gameId winnerPublicKey loserPublicKey stakeAmount)
    (fun error => ret false).

(** What the service may submit: a set-winner instruction for this game
    that names the key of the [winnerPublicKey] argument, a finalize
    instruction, and no move, reveal or abandon instruction. *)
Definition names_winner_argument (gameId winnerPublicKey : jsstring)
    (a : Action) : Prop :=
  match a with
  | Submitted (IxSetWinner g w _ _) =>
      g = gameId /\ pk_of_base58 winnerPublicKey = Ok w
  | Submitted (IxRaw _ _ _) => True
  | Submitted _ => False
  | _ => True
  end.

(** The requests of one invocation, in order, and how far it got. *)
Inductive outcome (cfg : Config) (gameId winnerPublicKey : jsstring)
  : St -> result bool -> list Action -> St -> Prop :=
| stopped_at_once (s : St) (e : string) :
    serviceWallet cfg = None \/ findGamePDA gameId = Throw e ->
    outcome cfg gameId winnerPublicKey s (Throw e) [] s
| stopped_after_fetch (s s' : St) (e : string) (gamePDA : PublicKey) :
    findGamePDA gameId = Ok gamePDA ->
    outcome cfg gameId winnerPublicKey s (Throw e) [Fetched gamePDA] s'
| set_winner_refused (s s' : St) (e : string)
    (serviceKey gamePDA winnerKey : PublicKey) :
    serviceWallet cfg = Some serviceKey ->
    findGamePDA gameId = Ok gamePDA ->
    pk_of_base58 winnerPublicKey = Ok winnerKey ->
    outcome cfg gameId winnerPublicKey s (Throw e)
      [Fetched gamePDA;
       Submitted (IxSetWinner gameId winnerKey gamePDA serviceKey)] s'
| stopped_after_set_winner (s s' : St) (e : string)
    (serviceKey gamePDA winnerKey : PublicKey) :
    serviceWallet cfg = Some serviceKey ->
    findGamePDA gameId = Ok gamePDA ->
    pk_of_base58 winnerPublicKey = Ok winnerKey ->
    outcome cfg gameId winnerPublicKey s (Throw e)
      [Fetched gamePDA;
       Submitted (IxSetWinner gameId winnerKey gamePDA serviceKey);
       Fetched gamePDA] s'
| stopped_before_finalize (s s' : St) (e : string)
    (serviceKey gamePDA winnerKey winnerProfilePDA : PublicKey) :
    serviceWallet cfg = Some serviceKey ->
    findGamePDA gameId = Ok gamePDA ->
    pk_of_base58 winnerPublicKey = Ok winnerKey ->
    findUserProfilePDA winnerKey = Ok winnerProfilePDA ->
    outcome cfg gameId winnerPublicKey s (Throw e)
      [Fetched gamePDA;
       Submitted (IxSetWinner gameId winnerKey gamePDA serviceKey);
       Fetched gamePDA;
       Fetched winnerProfilePDA] s'
| finalize_refused (s s' : St) (e : string) (before : W)
    (serviceKey gamePDA winnerKey winnerProfilePDA programId : PublicKey)
    (keys : list AccountMeta) :
    serviceWallet cfg = Some serviceKey ->
    findGamePDA gameId = Ok gamePDA ->
    pk_of_base58 winnerPublicKey = Ok winnerKey ->
    findUserProfilePDA winnerKey = Ok winnerProfilePDA ->
    send_and_confirm (IxRaw programId keys (instructionData gameId)) before
      = (Throw e, world s') ->
    outcome cfg gameId winnerPublicKey s (Throw e)
      [Fetched gamePDA;
       Submitted (IxSetWinner gameId winnerKey gamePDA serviceKey);
       Fetched gamePDA;
       Fetched winnerProfilePDA;
       Submitted (IxRaw programId keys (instructionData gameId))] s'
| settled (s s' : St) (sig : Signature) (before : W)
    (serviceKey gamePDA winnerKey winnerProfilePDA programId : PublicKey)
    (keys : list AccountMeta) :
    serviceWallet cfg = Some serviceKey ->
    findGamePDA gameId = Ok gamePDA ->
    pk_of_base58 winnerPublicKey = Ok winnerKey ->
    findUserProfilePDA winnerKey = Ok winnerProfilePDA ->
    send_and_confirm (IxRaw programId keys (instructionData gameId)) before
      = (Ok sig, world s') ->
    outcome cfg gameId winnerPublicKey s (Ok true)
      [Fetched gamePDA;
       Submitted (IxSetWinner gameId winnerKey gamePDA serviceKey);
       Fetched gamePDA;
       Fetched winnerProfilePDA;
       Submitted (IxRaw programId keys (instructionData gameId))] s'.

Close Scope eff_scope.
End WithWorld.
End AutoFinalization.

(* ===================================================================== *)
(** ** hooks/use-anchor-program.ts: finalizeGame *)
(* ===================================================================== *)

Module AnchorProgram.

(** [haystack.includes(needle)] *)
Definition includes (needle haystack : string) : bool :=
  match String.index 0 needle haystack with
  | Some _ => true
  | None => false
  end.

(** The [n] low bytes of [v], least significant first. *)
Fixpoint le_bytes (n : nat) (v : Z) : list Z :=
  match n with
  | O => []
  | S n' => (v mod 256) :: le_bytes n' (v / 256)
  end.

Section WithWorld.
Context `{Web3} {W : Type} {HW : World W}.
Open Scope eff_scope.

(** The fields of the decoded game account that the hook reads. *)
Record GameAccount : Type := {
  (** [gameAccount.gameStatus.finished] is truthy *)
  finished : bool;
  winner : option PublicKey;
  player1 : PublicKey;
  player2 : option PublicKey;
  (** lamports *)
  stakeAmount : Z
}.

(** The Anchor account coder (driven by the IDL) and the browser's
    [crypto.subtle.digest('SHA-256', _)]. *)
Class Libs : Type := {
  decode_game : list Z -> result GameAccount;
  sha256 : list Z -> list Z
}.
Context {HL : Libs}.

(** What the hook takes from the wallet adapter. *)
Record Wallet : Type := {
  publicKey : option PublicKey;
  connected : bool;
  hasSendTransaction : bool
}.

Definition PROGRAM_ID : result PublicKey :=
  pk_of_base58 (lit "GstXQkBpu26KABj6YZ3pYKJhQphoQ72YL1zL38NC6D9U").

(** The seed of the game account: dashes removed, first 32 code units,
    UTF-8. *)
Definition game_seed (gameId : jsstring) : list Z :=
  let truncatedGameId := substring0 32 (remove_dashes gameId) in
  utf8_encode truncatedGameId.

Definition findGamePDA (gameId : jsstring) : result PublicKey :=
  match PROGRAM_ID with
  | Ok programId =>
      first_of (findProgramAddressSync
                  [utf8_encode (lit "game"); game_seed gameId] programId)
  | Throw m => Throw m
  end.

Definition findUserProfilePDA (walletPublicKey : PublicKey) : result PublicKey :=
  match PROGRAM_ID with
  | Ok programId =>
      first_of (findProgramAddressSync
                  [utf8_encode (lit "user_profile"); pk_to_buffer walletPublicKey]
                  programId)
  | Throw m => Throw m
  end.

(** A block either returns from the function or falls through. *)
Inductive Flow : Type := Return (b : bool) | Continue.

Definition is_some {A} (o : option A) : bool :=
  match o with Some _ => true | None => false end.

Definition LAMPORTS_PER_SOL : Z := 1000000000.

(** The abandon pathway: mark the game abandoned, then refund. *)
Definition abandon_pathway (me : PublicKey) (gameId : jsstring)
    (gamePDA : PublicKey) (gameAccount : GameAccount) : M Flow :=
  try_catch
    (let* abandonSig := sendTransaction (IxAbandonGame gameId gamePDA me) in
     confirmTransaction abandonSig ;;
     let second :=
       match player2 gameAccount with
       | Some p => p
       | None => player1 gameAccount
       end in
     let* player1Profile := lift (findUserProfilePDA (player1 gameAccount)) in
     let* player2Profile := lift (findUserProfilePDA second) in
     let* finalizeAbandonSig :=
       sendTransaction
         (IxFinalizeAbandonedGame gameId gamePDA player1Profile player2Profile
            (player1 gameAccount) second) in
     confirmTransaction finalizeAbandonSig ;;
     let stakeInSol := (inject_Z (stakeAmount gameAccount)
                        / inject_Z LAMPORTS_PER_SOL)%Q in
     notify (OnRecovered stakeInSol (Fees.hook_expectedWinnings stakeInSol)) ;;
     notify OnComplete ;;
     ret (Return true))
    (fun abandonError => ret Continue).

(** "Completing game on-chain before finalization": a Rock commitment
    and its reveal, sent as the connected wallet, then the state check,
    then the abandon pathway. *)
Definition complete_on_chain (me : PublicKey) (gameId : jsstring)
    (gamePDA : PublicKey) (gameAccount : GameAccount) : M Flow :=
  try_catch
    (let winningMove := 0 in
     let* nonce := random in
     let moveData := winningMove :: le_bytes 8 nonce in
     let moveCommitment := sha256 moveData in
     let* submitSig :=
       sendTransaction (IxSubmitMove gameId moveCommitment gamePDA me) in
     confirmTransaction submitSig ;;
     let* revealSig :=
       sendTransaction (IxRevealMoves gameId Rock nonce gamePDA me) in
     confirmTransaction revealSig ;;
     try_catch
       (let* updatedGameAccount := getAccountInfo gamePDA in
        match updatedGameAccount with
        | Some data =>
            let* updatedGameData := lift (decode_game data) in
            if finished updatedGameData && is_some (winner updatedGameData)
            then ret Continue
            else throw "Game not finished, trying abandon pathway"
        | None => ret Continue
        end)
       (fun stateCheckError => abandon_pathway me gameId gamePDA gameAccount))
    (fun completionError => ret Continue).

(** The ordinary finalize transaction. *)
Definition normal_finalization (gameId : jsstring)
    (gamePDA : PublicKey) (gameAccount : GameAccount) : M bool :=
  let* player1ProfilePDA := lift (findUserProfilePDA (player1 gameAccount)) in
  let* second :=
    match player2 gameAccount with
    | Some p => ret p
    | None => throw "TypeError: Cannot read properties of null"
    end in
  let* player2ProfilePDA := lift (findUserProfilePDA second) in
  let* signature :=
    sendTransaction
      (IxFinalizeGame gameId gamePDA player1ProfilePDA player2ProfilePDA
         (player1 gameAccount) second) in
  let* confirmation := confirmTransaction signature in
  match confirmation with
  | Some err =>
      notify (OnError "Failed to finalize game on-chain") ;;
      notify OnComplete ;;
      throw ("Transaction failed: " ++ err)
  | None =>
      notify (OnSuccess "Game finalized successfully! Winnings transferred.") ;;
      notify OnComplete ;;
      ret true
  end.

(** The handler of [txError]: report, then throw again. *)
Definition on_tx_error {A} (txError : string) : M (W:=W) A :=
  try_catch
    ((if includes "account" txError || includes "constraint" txError
         || includes "seeds" txError
      then notify (OnError "Game completed off-chain but cannot finalize on-chain. The funds are safely escrowed.")
      else notify (OnError
                     (match txError with
                      | EmptyString => "Failed to finalize game on-chain. Please try again later."
                      | _ => txError
                      end))) ;;
     notify OnComplete ;;
     throw txError)
    (fun fallbackError =>
       notify (OnError "Failed to finalize game on-chain. Please try again later.") ;;
       notify OnComplete ;;
       throw fallbackError).

(** [finalizeGame(gameId, onComplete)].  Building the provider, the
    program object and a transaction is taken not to throw: a failure
    there would be caught by the same handler as the failure of the
    request that follows. *)
Definition finalizeGame (wallet : Wallet) (gameId : jsstring) : M bool :=
  match gameId, publicKey wallet, connected wallet && hasSendTransaction wallet with
  | _ :: _, Some me, true =>
      try_catch
        (let* gamePDA := lift (findGamePDA gameId) in
         try_catch
           (let* gameAccountInfo := getAccountInfo gamePDA in
            match gameAccountInfo with
            | None =>
                notify (OnError "Game not found on-chain") ;;
                notify OnComplete ;;
                ret false
            | Some data =>
                match decode_game data with
                | Throw _ =>
                    notify (OnError "Failed to decode game account") ;;
                    notify OnComplete ;;
                    ret false
                | Ok gameAccount =>
                    if finished gameAccount then
                      notify (OnSuccess "Game is already finalized on-chain") ;;
                      notify OnComplete ;;
                      ret true
                    else
                      let gameNotFinishedOnChain :=
                        negb (finished gameAccount)
                        && negb (is_some (winner gameAccount)) in
                      let* flow :=
                        if gameNotFinishedOnChain
                        then complete_on_chain me gameId gamePDA gameAccount
                        else ret Continue in
                      match flow with
                      | Return b => ret b
                      | Continue => normal_finalization gameId gamePDA gameAccount
                      end
                end
            end)
           (fun txError => on_tx_error txError))
        (fun error =>
           notify (OnError "Failed to finalize game on-chain") ;;
           notify OnComplete ;;
           throw error)
  | _, _, _ =>
      notify (OnError "Cannot finalize game: wallet not connected") ;;
      notify OnComplete ;;
      ret false
  end.

(** What the hook may submit: move, reveal and abandon instructions with
    the connected wallet as user, the reveal always of Rock, and no
    set-winner instruction. *)
Definition sent_as_wallet (wallet : Wallet) (a : Action) : Prop :=
  match a with
  | Submitted (IxSubmitMove _ _ _ user) => publicKey wallet = Some user
  | Submitted (IxRevealMoves _ move _ _ user) =>
      publicKey wallet = Some user /\ move = Rock
  | Submitted (IxAbandonGame _ _ user) => publicKey wallet = Some user
  | Submitted (IxSetWinner _ _ _ _) => False
  | _ => True
  end.

Close Scope eff_scope.
End WithWorld.
End AnchorProgram.

(* ===================================================================== *)
(** ** hooks/use-game.ts: the session state and its event handlers *)
(* ===================================================================== *)

Module UseGame.

Inductive GameStatus : Type :=
| lobby | waiting | playing | game_over | round_result.

Definition GameStatus_eqb (a b : GameStatus) : bool :=
  match a, b with
  | lobby, lobby | waiting, waiting | playing, playing
  | game_over, game_over | round_result, round_result => true
  | _, _ => false
  end.

Record Player : Type := {
  id : maybe_str;
  wallet : option jsstring;
  wins : Z;
  currentMove : option jsstring;
  ready : bool
}.

(** Fields taken unchanged from an event are optional: the event may
    lack them. *)
Record GameState : Type := {
  gameId : option jsstring;
  gameType : option jsstring;
  currency : jsstring;
  player1 : Player;
  player2 : option Player;
  currentRound : option Z;
  gameStatus : GameStatus;
  winner : option jsstring;
  stakeAmount : option Q;
  totalPot : option Q;
  roundResult : option string;
  countdown : option Z;
  inviteLink : option jsstring
}.

(** The state the hook starts from, and resets to. *)
Definition initial_player : Player :=
  {| id := Str (lit "you"); wallet := None; wins := 0;
     currentMove := None; ready := false |}.

Definition initial_state : GameState :=
  {| gameId := None;
     gameType := Some (lit "private");
     currency := lit "points";
     player1 := initial_player;
     player2 := None;
     currentRound := Some 1;
     gameStatus := lobby;
     winner := None;
     stakeAmount := Some 0%Q;
     totalPot := Some 0%Q;
     roundResult := None;
     countdown := Some 0;
     inviteLink := None |}.

(** *** Event payloads *)

Record PlayerData : Type := {
  pd_id : maybe_str;
  pd_wallet : option jsstring;
  pd_wins : option Z;
  pd_currentMove : option jsstring;
  pd_ready : option bool
}.

Record GameStateData : Type := {
  gd_gameId : option jsstring;
  gd_gameType : option jsstring;
  gd_currency : option jsstring;
  gd_player1 : option PlayerData;
  gd_player2 : option PlayerData;
  gd_currentRound : option Z;
  gd_gameStatus : option jsstring;
  gd_winner : option jsstring;
  gd_stakeAmount : option Q;
  gd_totalPot : option Q
}.

Record Scores : Type := { score_player1 : Z; score_player2 : Z }.

Record RoundResult : Type := {
  roundWinner : option jsstring;
  scores : option Scores
}.

(** [data]: its own fields read as a game state ([ev_top]), and the
    fields particular events carry. *)
Record EventData : Type := {
  ev_top : GameStateData;
  ev_gameState : option GameStateData;
  ev_inviteLink : option jsstring;
  ev_playerType : option jsstring;
  ev_playerId : maybe_str;
  ev_move : option jsstring;
  ev_round : option Z;
  ev_roundResult : option RoundResult;
  ev_disconnectedPlayerId : maybe_str;
  ev_countdown : option Z
}.

(** [data.gameState || data] *)
Definition gameStateData (data : EventData) : GameStateData :=
  match ev_gameState data with
  | Some g => g
  | None => ev_top data
  end.

(** [data.gameId] *)
Definition ev_gameId (data : EventData) : option jsstring :=
  gd_gameId (ev_top data).

(** *** Small JavaScript idioms *)

(** [v === 'text'] *)
Definition is_lit (text : string) (v : option jsstring) : bool :=
  opt_str_eqb v (Some (lit text)).

(** [n || d] on numbers: undefined and 0 are falsy. *)
Definition z_truthy (n : option Z) : bool :=
  match n with Some v => negb (v =? 0) | None => false end.
Definition z_or (n d : option Z) : option Z := if z_truthy n then n else d.
Definition z_or0 (n : option Z) : Z :=
  match n with Some v => v | None => 0 end.

Definition q_truthy (n : option Q) : bool :=
  match n with Some v => negb (Qeq_bool v 0) | None => false end.
Definition q_or (n d : option Q) : option Q := if q_truthy n then n else d.

(** An object reference is truthy unless it is null or undefined. *)
Definition present {A} (o : option A) : bool :=
  match o with Some _ => true | None => false end.

(** [p?.field] *)
Definition opt_field {A B} (f : A -> option B) (p : option A) : option B :=
  match p with Some x => f x | None => None end.

(** [publicKey?.toString().slice(0, 8)] *)
Definition myPlayerId (publicKey : option jsstring) : maybe_str :=
  match publicKey with
  | Some text => Str (slice0 8 text)
  | None => Undefined
  end.

(** [p?.id] *)
Definition id_of (p : option PlayerData) : maybe_str :=
  match p with Some x => pd_id x | None => Undefined end.

(** *** What a handler tells the rest of the application *)

Record GameFinished : Type := {
  gf_gameId : option jsstring;
  gf_winner_playerId : maybe_str;
  gf_winner_reason : string;
  gf_gameState : option GameStateData;
  gf_quitReason : string
}.

Inductive Callback : Type :=
| SetIsInGame (b : bool)
| CbGameCreated (gameId inviteLink : option jsstring)
| CbGameJoined (g : GameStateData)
| CbMoveSubmitted (data : EventData)
| CbRoundCompleted (data : EventData)
| CbGameFinished (n : GameFinished)
| CbCountdownUpdate (n : Z)
| CbGameStarted.

(** *** Handlers

    Each handler is the function it passes to [setGameState], applied to
    the previous state [prev], together with the callbacks it invokes.
    [ref] is [gameStateRef.current] where the handler reads it. *)

Definition player_of_data (p : PlayerData) : Player :=
  {| id := pd_id p; wallet := pd_wallet p; wins := z_or0 (pd_wins p);
     currentMove := None; ready := false |}.

(** socket.on('game_created') *)
Definition handleGameCreated (data : EventData) (prev : GameState)
  : result (GameState * list Callback) :=
  match ev_gameState data with
  | None => Throw "TypeError: Cannot read properties of undefined"
  | Some g =>
      match gd_player1 g with
      | None => Throw "TypeError: Cannot read properties of undefined"
      | Some p1 =>
          Ok ({| gameId := ev_gameId data;
                 gameType := gd_gameType g;
                 currency := match str_or (gd_currency g) (Some (lit "points")) with
                             | Some c => c
                             | None => lit "points"
                             end;
                 player1 := {| id := pd_id p1; wallet := pd_wallet p1;
                               wins := wins (player1 prev);
                               currentMove := currentMove (player1 prev);
                               ready := ready (player1 prev) |};
                 player2 := player2 prev;
                 currentRound := currentRound prev;
                 gameStatus := waiting;
                 winner := winner prev;
                 stakeAmount := gd_stakeAmount g;
                 totalPot := gd_totalPot g;
                 roundResult := roundResult prev;
                 countdown := countdown prev;
                 inviteLink := ev_inviteLink data |},
              [SetIsInGame true; CbGameCreated (ev_gameId data) (ev_inviteLink data)])
      end
  end.

(** socket.on('player_joined') *)
Definition handlePlayerJoined (publicKey : option jsstring)
    (data : EventData) (prev : GameState) : GameState * list Callback :=
  let g := gameStateData data in
  let isPlayer2 :=
    strict_eq (id_of (gd_player2 g)) (myPlayerId publicKey) in
  let shouldKeepWaiting :=
    if isPlayer2 && jsstring_eqb (currency prev) (lit "sol")
       && is_lit "private" (gameType prev)
    then waiting
    else if is_lit "playing" (gd_gameStatus g) then playing
    else gameStatus prev in
  ({| gameId := gameId prev;
      gameType := gameType prev;
      currency := currency prev;
      player1 := player1 prev;
      player2 := option_map player_of_data (gd_player2 g);
      currentRound := z_or (gd_currentRound g) (currentRound prev);
      gameStatus := shouldKeepWaiting;
      winner := winner prev;
      stakeAmount := stakeAmount prev;
      totalPot := totalPot prev;
      roundResult := roundResult prev;
      countdown := countdown prev;
      inviteLink := inviteLink prev |},
   [CbGameJoined g]).

Definition joined_player (p : PlayerData) : Player :=
  {| id := pd_id p; wallet := pd_wallet p; wins := z_or0 (pd_wins p);
     currentMove := pd_currentMove p;
     ready := match pd_ready p with Some b => b | None => false end |}.

(** socket.on('game_joined'): the state is replaced, not updated. *)
Definition handleGameJoined (publicKey : option jsstring)
    (data : EventData) : GameState * list Callback :=
  let g := gameStateData data in
  let isPlayer2 :=
    strict_eq (id_of (gd_player2 g)) (myPlayerId publicKey) in
  ({| gameId := str_or (ev_gameId data) (gd_gameId g);
      gameType := gd_gameType g;
      currency := match str_or (gd_currency g) (Some (lit "points")) with
                  | Some c => c
                  | None => lit "points"
                  end;
      player1 :=
        {| id := or_null (id_of (gd_player1 g));
           wallet := opt_field pd_wallet (gd_player1 g);
           wins := z_or0 (opt_field pd_wins (gd_player1 g));
           currentMove := opt_field pd_currentMove (gd_player1 g);
           ready := match opt_field pd_ready (gd_player1 g) with
                    | Some b => b
                    | None => false
                    end |};
      player2 := option_map joined_player (gd_player2 g);
      currentRound := z_or (gd_currentRound g) (Some 1);
      gameStatus :=
        if isPlayer2 && is_lit "sol" (gd_currency g)
           && is_lit "private" (gd_gameType g)
        then waiting
        else if is_lit "playing" (gd_gameStatus g) then playing
        else waiting;
      winner := gd_winner g;
      stakeAmount := gd_stakeAmount g;
      totalPot := gd_totalPot g;
      roundResult := None;
      countdown := Some 0;
      inviteLink := None |},
   [SetIsInGame true; CbGameJoined g]).


Definition clear_move (p : Player) : Player :=
  {| id := id p; wallet := wallet p; wins := wins p;
     currentMove := None; ready := false |}.

Definition with_status (s : GameStatus) (prev : GameState) : GameState :=
  {| gameId := gameId prev;
     gameType := gameType prev;
     currency := currency prev;
     player1 := player1 prev;
     player2 := player2 prev;
     currentRound := currentRound prev;
     gameStatus := s;
     winner := winner prev;
     stakeAmount := stakeAmount prev;
     totalPot := totalPot prev;
     roundResult := roundResult prev;
     countdown := countdown prev;
     inviteLink := inviteLink prev |}.

(** socket.on('game_started_pre_tx'), up to the first [await]: the
    identifiers are refreshed and the moves cleared; for a private SOL
    game with a connected wallet the status is set to [waiting]. *)
Definition handleGameStartedPreTx (publicKey : option jsstring)
    (ref : GameState) (data : EventData) (prev : GameState)
  : GameState * list Callback :=
  let g := gameStateData data in
  let gameId' := str_or (str_or (ev_gameId data) (gd_gameId g)) (gameId ref) in
  let currency' :=
    str_or (str_or (gd_currency g) (Some (currency ref))) (Some (lit "points")) in
  let stakeAmount' :=
    q_or (q_or (gd_stakeAmount g) (stakeAmount ref)) (Some 0%Q) in
  let refreshed :=
    {| gameId := str_or gameId' (gameId prev);
       gameType := str_or (gd_gameType g) (gameType prev);
       currency := match str_or currency' (Some (currency prev)) with
                   | Some c => c
                   | None => currency prev
                   end;
       player1 := clear_move (player1 prev);
       player2 := option_map clear_move (player2 prev);
       currentRound := currentRound prev;
       gameStatus := gameStatus prev;
       winner := winner prev;
       stakeAmount := q_or stakeAmount' (stakeAmount prev);
       totalPot := totalPot prev;
       roundResult := roundResult prev;
       countdown := countdown prev;
       inviteLink := inviteLink prev |} in
  if is_lit "sol" currency' && present publicKey
     && is_lit "private" (gd_gameType g)
  then (with_status waiting refreshed, [CbGameJoined g])
  else (refreshed, []).

(** The same handler after [await anchorCreateGame(...)] or
    [await anchorJoinGame(...)] has returned: the status is set to
    [waiting] once more, and the acknowledgment is sent to the server. *)
Definition afterStakeTransaction (prev : GameState) : GameState :=
  with_status waiting prev.

Definition submit_move (move : option jsstring) (p : Player) : Player :=
  {| id := id p; wallet := wallet p; wins := wins p;
     currentMove := move; ready := true |}.

(** socket.on('move_submitted') *)
Definition handleMoveSubmitted (data : EventData) (prev : GameState)
  : GameState * list Callback :=
  let moveMakerPlayerId := ev_playerId data in
  let isPlayer1Move := strict_eq (id (player1 prev)) moveMakerPlayerId in
  let isPlayer2Move :=
    strict_eq (match player2 prev with Some p => id p | None => Undefined end)
              moveMakerPlayerId in
  ({| gameId := gameId prev;
      gameType := gameType prev;
      currency := currency prev;
      player1 := if isPlayer1Move
                 then submit_move (ev_move data) (player1 prev)
                 else player1 prev;
      player2 := if isPlayer2Move
                 then option_map (submit_move (ev_move data)) (player2 prev)
                 else player2 prev;
      currentRound := currentRound prev;
      gameStatus := gameStatus prev;
      winner := winner prev;
      stakeAmount := stakeAmount prev;
      totalPot := totalPot prev;
      roundResult := roundResult prev;
      countdown := countdown prev;
      inviteLink := inviteLink prev |},
   [CbMoveSubmitted data]).

(** The message shown for a finished round. *)
Definition roundResultMessage (publicKey : option jsstring) (data : EventData)
  : string :=
  let roundWinner := opt_field roundWinner (ev_roundResult data) in
  let walletOf (side : GameStateData -> option PlayerData) :=
    opt_field pd_wallet (opt_field side (ev_gameState data)) in
  if is_lit "player1" roundWinner then
    if opt_str_eqb (walletOf gd_player1) publicKey
    then "You won this round!" else "You lost this round!"
  else if is_lit "player2" roundWinner then
    if opt_str_eqb (walletOf gd_player2) publicKey
    then "You won this round!" else "You lost this round!"
  else "It's a draw!".

(** The player as shown with the round result: the move is kept, the
    ready flag is lowered. *)
Definition round_player (score : Z) (sent : option PlayerData) (p : Player)
  : Player :=
  {| id := id p; wallet := wallet p;
     wins := score;
     currentMove := nullish (opt_field pd_currentMove sent) (currentMove p);
     ready := false |}.

(** socket.on('round_completed'); reading [data.roundResult.scores] or
    [data.gameState] throws when the event lacks them. *)
Definition handleRoundCompleted (publicKey : option jsstring)
    (data : EventData) (prev : GameState)
  : result (GameState * list Callback) :=
  match opt_field scores (ev_roundResult data), ev_gameState data with
  | Some sc, Some g =>
      Ok ({| gameId := gameId prev;
             gameType := gameType prev;
             currency := currency prev;
             player1 := round_player (score_player1 sc) (gd_player1 g) (player1 prev);
             player2 := option_map
                          (round_player (score_player2 sc) (gd_player2 g))
                          (player2 prev);
             currentRound := z_or (gd_currentRound g) (currentRound prev);
             gameStatus := round_result;
             winner := winner prev;
             stakeAmount := stakeAmount prev;
             totalPot := totalPot prev;
             roundResult := Some (roundResultMessage publicKey data);
             countdown := countdown prev;
             inviteLink := inviteLink prev |},
          [CbRoundCompleted data])
  | _, _ => Throw "TypeError: Cannot read properties of undefined"
  end.

(** socket.on('next_round'): the update made after the three-second
    delay. *)
Definition handleNextRound (data : EventData) (prev : GameState)
  : GameState * list Callback :=
  ({| gameId := gameId prev;
      gameType := gameType prev;
      currency := currency prev;
      player1 := clear_move (player1 prev);
      player2 := option_map clear_move (player2 prev);
      currentRound := ev_round data;
      gameStatus := playing;
      winner := winner prev;
      stakeAmount := stakeAmount prev;
      totalPot := totalPot prev;
      roundResult := None;
      countdown := countdown prev;
      inviteLink := inviteLink prev |},
   []).

(** The forfeit update shared in shape by the two handlers below. *)
Definition forfeit (publicKey : option jsstring) (message : string)
    (prev : GameState) : GameState :=
  {| gameId := gameId prev;
     gameType := gameType prev;
     currency := currency prev;
     player1 := player1 prev;
     player2 := player2 prev;
     currentRound := currentRound prev;
     gameStatus := game_over;
     winner := to_option (myPlayerId publicKey);
     stakeAmount := stakeAmount prev;
     totalPot := totalPot prev;
     roundResult := Some message;
     countdown := countdown prev;
     inviteLink := inviteLink prev |}.

(** socket.on('player_left') *)
Definition handlePlayerLeft (publicKey : option jsstring) (ref : GameState)
    (data : EventData) (prev : GameState) : GameState * list Callback :=
  if GameStatus_eqb (gameStatus ref) playing then
    (forfeit publicKey "You won! Your opponent left the game." prev,
     [CbGameFinished
        {| gf_gameId := ev_gameId data;
           gf_winner_playerId := myPlayerId publicKey;
           gf_winner_reason := "opponent_quit";
           gf_gameState := None;
           gf_quitReason := "opponent_left" |}])
  else
    (initial_state, [SetIsInGame false]).

(** socket.on('player_disconnected') *)
Definition handlePlayerDisconnected (publicKey : option jsstring)
    (ref : GameState) (data : EventData) (prev : GameState)
  : GameState * list Callback :=
  let disconnectedPlayerId := ev_disconnectedPlayerId data in
  if negb (strict_eq disconnectedPlayerId (myPlayerId publicKey))
     && GameStatus_eqb (gameStatus ref) playing
  then
    (forfeit publicKey "You won! Your opponent disconnected." prev,
     [CbGameFinished
        {| gf_gameId := ev_gameId data;
           gf_winner_playerId := myPlayerId publicKey;
           gf_winner_reason := "opponent_disconnect";
           gf_gameState := ev_gameState data;
           gf_quitReason := "opponent_disconnected" |}])
  else (prev, []).

Definition found_player (p : PlayerData) : Player :=
  {| id := pd_id p; wallet := pd_wallet p; wins := z_or0 (pd_wins p);
     currentMove := pd_currentMove p;
     ready := truthy_str (pd_currentMove p) |}.

(** socket.on('match_found'): the state is replaced. *)
Definition handleMatchFound (data : EventData) : GameState * list Callback :=
  let g := gameStateData data in
  ({| gameId := str_or (ev_gameId data) (gd_gameId g);
      gameType := str_or (gd_gameType g) (Some (lit "public"));
      currency := match str_or (gd_currency g) (Some (lit "points")) with
                  | Some c => c
                  | None => lit "points"
                  end;
      player1 :=
        {| id := or_null (id_of (gd_player1 g));
           wallet := opt_field pd_wallet (gd_player1 g);
           wins := z_or0 (opt_field pd_wins (gd_player1 g));
           currentMove := opt_field pd_currentMove (gd_player1 g);
           ready := truthy_str (opt_field pd_currentMove (gd_player1 g)) |};
      player2 := option_map found_player (gd_player2 g);
      currentRound := z_or (gd_currentRound g) (Some 1);
      gameStatus := if is_lit "playing" (gd_gameStatus g) then playing else waiting;
      winner := gd_winner g;
      stakeAmount := gd_stakeAmount g;
      totalPot := gd_totalPot g;
      roundResult := None;
      countdown := Some 0;
      inviteLink := None |},
   [SetIsInGame true; CbGameJoined g]).

(** *** The ready flag *)

(** "Ready is derived from currentMove": a player with a move is ready. *)
Definition ready_derived (p : Player) : Prop :=
  currentMove p <> None -> ready p = true.

Definition ready_invariant (s : GameState) : Prop :=
  ready_derived (player1 s) /\
  match player2 s with
  | Some p => ready_derived p
  | None => True
  end.

(** The same condition on the players an event carries. *)
Definition sent_ready_derived (p : option PlayerData) : Prop :=
  opt_field pd_currentMove p <> None -> opt_field pd_ready p = Some true.

(** *** The client among the stake acknowledgments *)










End UseGame.

(* ===================================================================== *)
(** ** Concrete libraries and worlds, for running the code *)
(* ===================================================================== *)

Module Concrete.

(** A free model of the key library: a key is the way it was obtained. *)
Inductive Key : Type :=
| KeyText (text : jsstring)
| KeyBytes (bytes : list Z)
| KeyDerived (seeds : list (list Z)) (program : Key)
| KeySystem.

Fixpoint seeds_eqb (a b : list (list Z)) : bool :=
  match a, b with
  | [], [] => true
  | x :: a', y :: b' => jsstring_eqb x y && seeds_eqb a' b'
  | _, _ => false
  end.

Fixpoint Key_eqb (a b : Key) : bool :=
  match a, b with
  | KeyText x, KeyText y => jsstring_eqb x y
  | KeyBytes x, KeyBytes y => jsstring_eqb x y
  | KeyDerived s p, KeyDerived s' p' => seeds_eqb s s' && Key_eqb p p'
  | KeySystem, KeySystem => true
  | _, _ => false
  end.

Fixpoint Key_bytes (k : Key) : list Z :=
  match k with
  | KeyText text => utf8_encode text
  | KeyBytes bytes => bytes
  | KeyDerived seeds program => List.concat seeds ++ Key_bytes program
  | KeySystem => repeat 0 32
  end.

Definition MAX_SEED_LENGTH : nat := 32.

(** The library refuses a seed of more than 32 bytes. *)
Definition derive (seeds : list (list Z)) (program : Key) : result (Key * Z) :=
  if forallb (fun seed => Nat.leb (List.length seed) MAX_SEED_LENGTH) seeds
  then Ok (KeyDerived seeds program, 255)
  else Throw "Max seed length exceeded".

#[export] Instance web3 : Web3 := {|
  PublicKey := Key;
  pk_equals := Key_eqb;
  pk_of_base58 := fun text => Ok (KeyText text);
  pk_of_bytes := fun bytes => Ok (KeyBytes bytes);
  pk_to_buffer := Key_bytes;
  findProgramAddressSync := derive;
  system_program_id := KeySystem
|}.

(** *** A ledger for the service *)

(** The game account of session "7": discriminator, the id, player one
    (bytes 1), the tag of a present player two, player two (bytes 2). *)
Definition game_account_data : list Z :=
  repeat 0 8 ++ [1; 0; 0; 0] ++ [55] ++ repeat 1 32 ++ [1] ++ repeat 2 32.

(** The world is the number of finalize transactions the ledger will
    still refuse; every other request is granted.  Only game accounts
    exist. *)
Definition is_game_address (k : Key) : bool :=
  match k with
  | KeyDerived (tag :: _) _ => jsstring_eqb tag (utf8_encode (lit "game"))
  | _ => false
  end.

#[export] Instance ledger : World nat := {|
  get_account_info := fun address w =>
    (Ok (if is_game_address address then Some game_account_data else None), w);
  send_and_confirm := fun ix w =>
    match ix, w with
    | IxRaw _ _ _, S refusals => (Throw "Transaction simulation failed", refusals)
    | _, _ => (Ok (lit "signature"), w)
    end;
  wallet_send := fun ix w => (Ok (lit "signature"), w);
  confirm_transaction := fun sig w => (Ok None, w);
  random_nonce := fun w => (42, w)
|}.

Definition service_config : AutoFinalization.Config :=
  {| AutoFinalization.serviceWallet := Some (KeyText (lit "service"));
     AutoFinalization.PLATFORM_WALLET := KeyText (lit "platform") |}.

Definition alice : jsstring := lit "AliceWallet".
Definition bob : jsstring := lit "BobWallet".

(** One invocation for session "7", won by alice, stake 0.03. *)
Definition finalize_once : M bool :=
  AutoFinalization.autoFinalizeSolGame service_config
    (lit "7") alice bob (3 # 100).

(** The claim of idempotence, for the invocation [m] started in the
    world [w]: once [m] has succeeded, running it again leaves at most one
    finalize transaction submitted in all. *)
Definition at_most_one_payout (m : M bool) (w : nat) : Prop :=
  fst (run m w) = Ok true ->
  (payouts (log (snd (m (snd (run m w))))) <= 1)%nat.


(** *** The hook, called by the loser *)

(** On the ledger alice and bob play session "7"; the game is still in
    progress there. *)
Definition session_on_chain : AnchorProgram.GameAccount :=
  {| AnchorProgram.finished := false;
     AnchorProgram.winner := None;
     AnchorProgram.player1 := KeyText alice;
     AnchorProgram.player2 := Some (KeyText bob);
     AnchorProgram.stakeAmount := 30000000 |}.

#[export] Instance libs : AnchorProgram.Libs := {|
  AnchorProgram.decode_game := fun _ => Ok session_on_chain;
  AnchorProgram.sha256 := fun data => data
|}.

Definition bobs_wallet : AnchorProgram.Wallet :=
  {| AnchorProgram.publicKey := Some (KeyText bob);
     AnchorProgram.connected := true;
     AnchorProgram.hasSendTransaction := true |}.

End Concrete.

(* ===================================================================== *)
(** ** A session to run the handlers on *)
(* ===================================================================== *)

Module Scenario.
Import UseGame.

(** The local player; her id is the first eight characters, "AliceWal". *)
Definition alice_key : option jsstring := Some (lit "AliceWalletAddress").

Definition no_game_state : GameStateData :=
{| gd_gameId := None; gd_gameType := None; gd_currency := None;
   gd_player1 := None; gd_player2 := None; gd_currentRound := None;
   gd_gameStatus := None; gd_winner := None;
   gd_stakeAmount := None; gd_totalPot := None |}.


Definition seated (name : string) (move : option jsstring) (is_ready : bool)
  : Player :=
{| id := Str (lit name); wallet := None; wins := 0;
   currentMove := move; ready := is_ready |}.

(** A private SOL session of alice and bob, stake 0.03, still waiting. *)
Definition sol_waiting : GameState :=
{| gameId := Some (lit "7");
   gameType := Some (lit "private");
   currency := lit "sol";
   player1 := seated "AliceWal" None false;
   player2 := Some (seated "BobWalle" None false);
   currentRound := Some 1;
   gameStatus := waiting;
   winner := None;
   stakeAmount := Some (3 # 100);
   totalPot := Some (6 # 100);
   roundResult := None;
   countdown := Some 0;
   inviteLink := None |}.

Definition sol_playing : GameState := with_status playing sol_waiting.




(** The opponent, bob, is reported gone. *)
Definition bob_gone : EventData :=
{| ev_top := no_game_state; ev_gameState := None; ev_inviteLink := None;
   ev_playerType := None; ev_playerId := Undefined; ev_move := None;
   ev_round := None; ev_roundResult := None;
   ev_disconnectedPlayerId := Str (lit "BobWalle"); ev_countdown := None |}.

(** Both players have moved and are ready. *)
Definition both_moved : GameState :=
{| gameId := Some (lit "7");
   gameType := Some (lit "private");
   currency := lit "sol";
   player1 := seated "AliceWal" (Some (lit "rock")) true;
   player2 := Some (seated "BobWalle" (Some (lit "scissors")) true);
   currentRound := Some 1;
   gameStatus := playing;
   winner := None;
   stakeAmount := Some (3 # 100);
   totalPot := Some (6 # 100);
   roundResult := None;
   countdown := Some 0;
   inviteLink := None |}.

(** The round is reported: alice leads one to nil. *)
Definition round_done : EventData :=
{| ev_top := no_game_state; ev_gameState := Some no_game_state;
   ev_inviteLink := None; ev_playerType := None; ev_playerId := Undefined;
   ev_move := None; ev_round := None;
   ev_roundResult :=
     Some {| roundWinner := Some (lit "player1");
             scores := Some {| score_player1 := 1; score_player2 := 0 |} |};
   ev_disconnectedPlayerId := Undefined; ev_countdown := None |}.

(** Alice submits paper. *)
Definition alice_moves : EventData :=
{| ev_top := no_game_state; ev_gameState := None; ev_inviteLink := None;
   ev_playerType := None; ev_playerId := Str (lit "AliceWal");
   ev_move := Some (lit "paper");
   ev_round := None; ev_roundResult := None;
   ev_disconnectedPlayerId := Undefined; ev_countdown := None |}.

End Scenario.

(* ===================================================================== *)
(** ** What a run reports *)
(* ===================================================================== *)

Module Reporting.
Section WithWorld.
Context `{Web3} {W : Type} {HW : World W} {HL : AnchorProgram.Libs}.
Import AnchorProgram.

(** [m] only appends to the log. *)
Definition appends {A} (m : M (W:=W) A) : Prop := emits (fun _ => True) m.

(** [m] calls [onComplete], however it ends. *)
Definition completes {A} (m : M (W:=W) A) : Prop :=
  forall s : St,
    exists added : list Action,
      log (snd (m s)) = log s ++ added /\ In (Notified OnComplete) added.

(** [m] has called [onComplete] whenever it returns a value in [Q]. *)
Definition completes_when {A} (Q : A -> Prop) (m : M (W:=W) A) : Prop :=
  forall s : St,
    exists added : list Action,
      log (snd (m s)) = log s ++ added /\
      forall a, fst (m s) = Ok a -> Q a -> In (Notified OnComplete) added.

(** The block returned from the function. *)
Definition returns (flow : Flow) : Prop :=
  match flow with
  | Return _ => True
  | Continue => False
  end.

(** The accounts of a finalize instruction of the hook are those of the
    game account decoded from the ledger, for the game id passed in; the
    refund of an abandoned game puts player one in the place of a missing
    player two. *)
Definition pays_players_on_ledger (gameId : jsstring) (a : Action) : Prop :=
  match a with
  | Submitted (IxFinalizeGame g game p1Profile p2Profile p1 p2) =>
      g = gameId /\ findGamePDA gameId = Ok game /\
      findUserProfilePDA p1 = Ok p1Profile /\
      findUserProfilePDA p2 = Ok p2Profile /\
      exists data account,
        decode_game data = Ok account /\
        player1 account = p1 /\ player2 account = Some p2
  | Submitted (IxFinalizeAbandonedGame g game p1Profile p2Profile p1 p2) =>
      g = gameId /\ findGamePDA gameId = Ok game /\
      findUserProfilePDA p1 = Ok p1Profile /\
      findUserProfilePDA p2 = Ok p2Profile /\
      exists data account,
        decode_game data = Ok account /\
        player1 account = p1 /\
        p2 = match player2 account with
             | Some p => p
             | None => player1 account
             end
  | _ => True
  end.

End WithWorld.
End Reporting.

(* ===================================================================== *)
(** ** More inputs to run the code on *)
(* ===================================================================== *)

Module Samples.
Import Concrete.

(** A session id in the shape of a UUID: 32 hexadecimal digits and four
    dashes. *)
Definition uuid : jsstring := lit "550e8400-e29b-41d4-a716-446655440000".

(** Thirty-two euro signs (U+20AC), three bytes each in UTF-8. *)
Definition euros : jsstring := repeat 8364 32.

(** A game account as the service reads it: discriminator, the id with
    its length, player one, the option tag of player two, player two, and
    whatever follows. *)
Definition game_account (discriminator idBytes player1Bytes : list Z)
    (tag : Z) (tail : list Z) : list Z :=
  discriminator ++ Buf.u32le (Z.of_nat (List.length idBytes)) ++ idBytes
    ++ player1Bytes ++ tag :: tail.

(** A ledger on which no account exists and every transaction is
    granted. *)
Definition empty_ledger : World (H := Concrete.web3) unit := {|
  get_account_info := fun address w => (Ok None, w);
  send_and_confirm := fun ix w => (Ok (lit "signature"), w);
  wallet_send := fun ix w => (Ok (lit "signature"), w);
  confirm_transaction := fun sig w => (Ok None, w);
  random_nonce := fun w => (7, w)
|}.

(** The service before [initializeService] has loaded its wallet. *)
Definition service_not_started : AutoFinalization.Config (H := Concrete.web3) :=
  {| AutoFinalization.serviceWallet := None;
     AutoFinalization.PLATFORM_WALLET := Concrete.KeyText (lit "platform") |}.

(** A key library that refuses the empty text as an address. *)
Definition checking_web3 : Web3 := {|
  PublicKey := Concrete.Key;
  pk_equals := Concrete.Key_eqb;
  pk_of_base58 := fun text =>
    match text with
    | [] => Throw "Invalid public key input"
    | _ => Ok (Concrete.KeyText text)
    end;
  pk_of_bytes := fun bytes => Ok (Concrete.KeyBytes bytes);
  pk_to_buffer := Concrete.Key_bytes;
  findProgramAddressSync := Concrete.derive;
  system_program_id := Concrete.KeySystem
|}.

Definition checking_config : AutoFinalization.Config (H := checking_web3) :=
  @AutoFinalization.Build_Config checking_web3
    (Some (Concrete.KeyText (lit "service")))
    (Concrete.KeyText (lit "platform")).

(** The sample ledger of [Concrete], seen through that library. *)
Definition checking_ledger : World (H := checking_web3) nat :=
  @Build_World checking_web3 nat
    (fun address w =>
       (Ok (if Concrete.is_game_address address
            then Some Concrete.game_account_data else None), w))
    (fun ix w => (Ok (lit "signature"), w))
    (fun ix w => (Ok (lit "signature"), w))
    (fun sig w => (Ok None, w))
    (fun w => (7, w)).

(** On the ledger session "7" is finished and alice has won. *)
Definition session_finished : AnchorProgram.GameAccount (H := Concrete.web3) :=
  {| AnchorProgram.finished := true;
     AnchorProgram.winner := Some (Concrete.KeyText Concrete.alice);
     AnchorProgram.player1 := Concrete.KeyText Concrete.alice;
     AnchorProgram.player2 := Some (Concrete.KeyText Concrete.bob);
     AnchorProgram.stakeAmount := 30000000 |}.

Definition finished_libs : AnchorProgram.Libs (H := Concrete.web3) := {|
  AnchorProgram.decode_game := fun _ => Ok session_finished;
  AnchorProgram.sha256 := fun data => data
|}.

(** Bob, the joiner; his id is "BobWalle". *)
Definition bob_key : option jsstring := Some (lit "BobWalletAddress").

(** The server tells bob that he has joined alice's private SOL game, and
    reports the game as being played already. *)
Definition bob_joins : UseGame.EventData :=
  {| UseGame.ev_top := Scenario.no_game_state;
     UseGame.ev_gameState :=
       Some {| UseGame.gd_gameId := Some (lit "7");
               UseGame.gd_gameType := Some (lit "private");
               UseGame.gd_currency := Some (lit "sol");
               UseGame.gd_player1 :=
                 Some {| UseGame.pd_id := Str (lit "AliceWal");
                         UseGame.pd_wallet := None;
                         UseGame.pd_wins := None;
                         UseGame.pd_currentMove := None;
                         UseGame.pd_ready := None |};
               UseGame.gd_player2 :=
                 Some {| UseGame.pd_id := Str (lit "BobWalle");
                         UseGame.pd_wallet := None;
                         UseGame.pd_wins := None;
                         UseGame.pd_currentMove := None;
                         UseGame.pd_ready := None |};
               UseGame.gd_currentRound := Some 1;
               UseGame.gd_gameStatus := Some (lit "playing");
               UseGame.gd_winner := None;
               UseGame.gd_stakeAmount := Some (3 # 100);
               UseGame.gd_totalPot := Some (6 # 100) |};
     UseGame.ev_inviteLink := None;
     UseGame.ev_playerType := None;
     UseGame.ev_playerId := Undefined;
     UseGame.ev_move := None;
     UseGame.ev_round := None;
     UseGame.ev_roundResult := None;
     UseGame.ev_disconnectedPlayerId := Undefined;
     UseGame.ev_countdown := None |}.

End Samples.

(* ===================================================================== *)
(** ** hooks/use-game.ts: the addresses and the actions of the hook *)
(* ===================================================================== *)

Module UseGameActions.
Import UseGame.

Section Addresses.
Context `{Web3}.

Definition PROGRAM_ID : result PublicKey :=
  pk_of_base58 (lit "GstXQkBpu26KABj6YZ3pYKJhQphoQ72YL1zL38NC6D9U").

(** getGamePDA *)
Definition getGamePDA (gameId : jsstring) : result PublicKey :=
  match PROGRAM_ID with
  | Ok programId =>
      let truncatedGameId := substring0 32 (remove_dashes gameId) in
      first_of (findProgramAddressSync
                  [utf8_encode (lit "game"); utf8_encode truncatedGameId]
                  programId)
  | Throw m => Throw m
  end.

End Addresses.

(** [`${n}`] for an integer [0 <= n < 10^21]: its decimal digits, the
    last one first in the recursion. *)
Fixpoint digits (fuel : nat) (n : Z) (acc : jsstring) : jsstring :=
  match fuel with
  | O => acc
  | S fuel' =>
      let acc' := (48 + n mod 10) :: acc in
      if n / 10 =? 0 then acc' else digits fuel' (n / 10) acc'
  end.

Definition decimal (n : Z) : jsstring := digits 21 n [].

(** The number a string of decimal digits stands for. *)
Definition decimal_value (s : jsstring) : Z :=
  fold_left (fun v c => 10 * v + (c - 48)) s 0.

(** A decimal digit, as a code unit. *)
Definition is_digit (c : Z) : Prop := 48 <= c <= 57.

(** The messages the actions hand to [socket.emit]. *)
Inductive Message : Type :=
| CreateGame (gameId : jsstring) (stakeAmount : Q)
    (gameType currency playerId playerWallet : jsstring)
| SubmitMove (gameId playerId move : jsstring)
| StartGame (gameId : jsstring)
| LeaveGame (gameId playerId : jsstring).

(** What an action does, in order. *)
Inductive Effect : Type :=
| Emit (m : Message)
| ReportError (msg : string)
| SetGameState (s : GameState)
| SetInGame (b : bool).

(** The id of a new game: [`${Math.floor(Math.random() * 1000000)}`];
    [random] is the floored number. *)
Definition newGameId (random : Z) : jsstring := decimal random.

(** createGame(stakeAmount, gameType, currency); [connected] and
    [publicKey] are the wallet's.  Nothing in the [try] block throws. *)
Definition createGame (connected : bool) (publicKey : option jsstring)
    (random : Z) (stakeAmount : Q) (gameType currency : jsstring)
  : list Effect :=
  match connected, publicKey with
  | true, Some key =>
      let gameId := newGameId random in
      [Emit (CreateGame gameId
               (if jsstring_eqb currency (lit "sol") then stakeAmount else 100%Q)
               gameType currency (slice0 8 key) key)]
  | _, _ => [ReportError "Please connect your wallet first"]
  end.

(** makeMove(move); [ref] is [gameStateRef.current].  [socket.emit] is the
    function of use-socket.ts, so [!socket.emit] is false. *)
Definition makeMove (publicKey : option jsstring) (ref : GameState)
    (move : jsstring) : list Effect :=
  match publicKey, gameId ref with
  | Some key, Some (c :: rest) =>
      [Emit (SubmitMove (c :: rest) (slice0 8 key) move)]
  | _, _ => []
  end.

(** startGame() *)
Definition startGame (publicKey : option jsstring) (ref : GameState)
  : list Effect :=
  match publicKey, gameId ref with
  | Some key, Some (c :: rest) => [Emit (StartGame (c :: rest))]
  | _, _ => []
  end.

(** leaveGame(): past the guard the local state is always reset. *)
Definition leaveGame (publicKey : option jsstring) (ref : GameState)
  : list Effect :=
  match publicKey, gameId ref with
  | Some key, Some (c :: rest) =>
      [Emit (LeaveGame (c :: rest) (slice0 8 key));
       SetGameState initial_state;
       SetInGame false]
  | _, _ => []
  end.

(** resetGameState() *)
Definition resetGameState : list Effect :=
  [SetGameState initial_state; SetInGame false].

(** use-socket.ts, emit: the message is passed to socket.io when the
    current socket is connected, and dropped with a warning otherwise;
    what socket.io throws is caught. *)
Definition emit (socketConnected : bool) (m : Message) : list Message :=
  if socketConnected then [m] else [].

(** The messages of an action that reach socket.io. *)
Definition passed_on (socketConnected : bool) (effects : list Effect)
  : list Message :=
  flat_map (fun e => match e with
                     | Emit m => emit socketConnected m
                     | _ => []
                     end) effects.

(** The session after an action. *)
Definition session_after (effects : list Effect) (before : GameState)
  : GameState :=
  fold_left (fun s e => match e with
                        | SetGameState s' => s'
                        | _ => s
                        end) effects before.

End UseGameActions.

(* ===================================================================== *)
(** ** hooks/use-anchor-program.ts: the blockhash cache *)
(* ===================================================================== *)

Module BlockhashCache.

(** [blockhashCache], when it is not null. *)
Record Entry : Type := { blockhash : jsstring; timestamp : Z }.

Definition BLOCKHASH_CACHE_DURATION : Z := 30000.

(** [blockhashCache && (now - blockhashCache.timestamp) <
    BLOCKHASH_CACHE_DURATION], with the blockhash it then returns. *)
Definition cached (now : Z) (blockhashCache : option Entry) : option jsstring :=
  match blockhashCache with
  | Some entry =>
      if now - timestamp entry <? BLOCKHASH_CACHE_DURATION
      then Some (blockhash entry)
      else None
  | None => None
  end.

(** One call of getCachedBlockhash.  [now] is what [Date.now()] gives and
    [latest] what [connection.getLatestBlockhash] answers when it is
    asked.  The result is what the call returns or throws, the cache
    afterwards, and whether the node was asked. *)
Definition getCachedBlockhash (now : Z) (latest : result jsstring)
    (blockhashCache : option Entry)
  : result jsstring * option Entry * bool :=
  match cached now blockhashCache with
  | Some hash => (Ok hash, blockhashCache, false)
  | None =>
      match latest with
      | Ok hash => (Ok hash, Some {| blockhash := hash; timestamp := now |}, true)
      | Throw e => (Throw e, blockhashCache, true)
      end
  end.




End BlockhashCache.

(* ===================================================================== *)
(** ** services/autoFinalizationService: initializeService *)
(* ===================================================================== *)

Module ServiceStart.
Section WithWeb3.
Context `{Web3}.

(** initializeService().  [getServiceWallet] is what the function of
    config/serviceWallet gives: the key of a wallet, nothing, or an
    exception; [getBalance] is the answer of the node.  The result is the
    value returned and the module's [serviceWallet] afterwards.  With no
    wallet, reading [serviceWallet.publicKey] throws inside the [try]; the
    balance check has a [try] of its own. *)
Definition initializeService (getServiceWallet : result (option PublicKey))
    (getBalance : result Z) (serviceWallet : option PublicKey)
  : bool * option PublicKey :=
  match getServiceWallet with
  | Throw _ => (false, serviceWallet)
  | Ok None => (false, None)
  | Ok (Some wallet) =>
      match getBalance with
      | Ok balance => (true, Some wallet)
      | Throw _ => (true, Some wallet)
      end
  end.

(** The configuration the service works with after initializeService. *)
Definition started (getServiceWallet : result (option PublicKey))
    (getBalance : result Z) (platform : PublicKey) : AutoFinalization.Config :=
  {| AutoFinalization.serviceWallet :=
       snd (initializeService getServiceWallet getBalance None);
     AutoFinalization.PLATFORM_WALLET := platform |}.

End WithWeb3.
End ServiceStart.

(* ===================================================================== *)
(** ** hooks/use-privy-wallet.tsx: the wallet the hooks see *)
(* ===================================================================== *)

Module PrivyWallet.
Section WithWeb3.
Context `{Web3}.

(** What Privy knows of a wallet: its address and its chain type. *)
Record PrivyAccount : Type := { address : jsstring; chainType : jsstring }.

(** [solanaWallet]: the first of the Solana wallets, else the user's
    wallet if it is a Solana wallet; nothing before Privy is ready. *)
Definition solanaWallet (ready : bool) (wallets : list PrivyAccount)
    (userWallet : option PrivyAccount) : option PrivyAccount :=
  if negb ready then None
  else
    match wallets with
    | first :: _ => Some first
    | [] =>
        match userWallet with
        | Some w =>
            if jsstring_eqb (chainType w) (lit "solana") then Some w else None
        | None => None
        end
    end.

(** usePrivyWallet(), as far as the hooks use its result: [publicKey],
    [connected] and whether [sendTransaction] is there.  [new
    PublicKey(address)] may throw. *)
Definition usePrivyWallet (ready authenticated : bool)
    (wallets : list PrivyAccount) (userWallet : option PrivyAccount)
  : result AnchorProgram.Wallet :=
  if negb ready then
    Ok {| AnchorProgram.publicKey := None;
          AnchorProgram.connected := false;
          AnchorProgram.hasSendTransaction := false |}
  else
    match solanaWallet ready wallets userWallet with
    | None =>
        Ok {| AnchorProgram.publicKey := None;
              AnchorProgram.connected := authenticated && false;
              AnchorProgram.hasSendTransaction := true |}
    | Some w =>
        match pk_of_base58 (address w) with
        | Ok publicKey =>
            Ok {| AnchorProgram.publicKey := Some publicKey;
                  AnchorProgram.connected := authenticated && true;
                  AnchorProgram.hasSendTransaction := true |}
        | Throw e => Throw e
        end
    end.

End WithWeb3.
End PrivyWallet.

(* ===================================================================== *)
(** ** Staking: createGame, joinGame and cancelGame of the contract hook,
       and the handlers of use-game.ts that call them *)
(* ===================================================================== *)

Module Staking.
Section WithNode.
Context `{Web3}.

(** [{ sol: {} }] or [{ points: {} }] *)
Inductive CurrencyType : Type := SolCurrency | PointsCurrency.

(** The instructions built through Anchor's [program.methods]. *)
Inductive Ix : Type :=
| IxInitializeUserProfile (userProfile user systemProgram : PublicKey)
| IxCreateGame (gameId : jsstring) (stakeAmountBN : Q)
    (currencyType : CurrencyType) (roundsToWin : Z)
    (game userProfile user systemProgram : PublicKey)
| IxJoinGame (gameId : jsstring)
    (game userProfile user systemProgram : PublicKey)
| IxCancelGame (gameId : jsstring) (game user systemProgram : PublicKey).

Record Transaction : Type := {
  instruction : Ix;
  recentBlockhash : option jsstring;
  feePayer : option PublicKey
}.

(** What the code asks of the outside: the clock, the RPC node, the
    wallet, the backend, the socket, and React's reference to the current
    game state.  Each request answers and moves the outside on. *)
Class Node (N : Type) : Type := {
  (** [Date.now()] *)
  clock : N -> Z * N;
  (** [connection.getLatestBlockhash('confirmed')] *)
  latest_blockhash : N -> result jsstring * N;
  (** [connection.getAccountInfo(address)]: whether an account is there *)
  account_there : PublicKey -> N -> result bool * N;
  (** [connection.getBalance(address)] *)
  balance : PublicKey -> N -> result Z * N;
  (** [connection.getTransaction(signature, ...)]: whether it is there *)
  transaction_there : jsstring -> N -> result bool * N;
  (** the wallet's [sendTransaction(tx)] *)
  wallet_sends : Transaction -> N -> result jsstring * N;
  (** [connection.confirmTransaction(signature)]: [confirmation.value.err] *)
  confirmation : jsstring -> N -> result (option string) * N;
  (** [fetch(url, { method: 'POST', body })] and [response.json()]:
      [result.success] *)
  http_post : string -> option jsstring -> N -> result bool * N;
  (** [socket.connected] *)
  socket_connected : N -> bool * N;
  (** [gameStateRef.current] *)
  game_state_ref : N -> UseGame.GameState * N
}.

(** What the callers are told. *)
Inductive Notice : Type :=
| HookError (msg : string)       (** [options.onError] of the contract hook *)
| HookSuccess (msg : string)     (** its [options.onSuccess] *)
| HookBalanceUpdate              (** its [options.onBalanceUpdate], scheduled *)
| HookComplete                   (** the [onComplete] passed to the call *)
| GameError (msg : string)       (** [options.onError] of use-game *)
| GameCallback (cb : UseGame.Callback).

(** What a run did, in order, with the answers it got. *)
Inductive Act : Type :=
| AskedAccount (address : PublicKey) (answer : result bool)
| AskedBalance (address : PublicKey)
| AskedBlockhash
| AskedTransaction (signature : jsstring) (answer : result bool)
| Sent (tx : Transaction) (answer : result jsstring)
| AskedConfirmation (signature : jsstring) (answer : result (option string))
| Posted (path : string) (gameId : option jsstring)
| Emitted (event : string) (gameId : option jsstring)
| Told (n : Notice).

Section Monad.
Context {N : Type} {HN : Node N}.

(** The outside, the module's blockhash cache, React's game state, and
    the log. *)
Record St : Type := {
  node : N;
  blockhashCache : option BlockhashCache.Entry;
  session : UseGame.GameState;
  log : list Act
}.

Definition M (A : Type) : Type := St -> result A * St.

Definition ret {A} (a : A) : M A := fun s => (Ok a, s).
Definition throw {A} (msg : string) : M A := fun s => (Throw msg, s).

Definition bind {A B} (m : M A) (k : A -> M B) : M B :=
  fun s =>
    match m s with
    | (Ok a, s') => k a s'
    | (Throw e, s') => (Throw e, s')
    end.

(** [try { m } catch (e) { h e }] *)
Definition try_catch {A} (m : M A) (h : string -> M A) : M A :=
  fun s =>
    match m s with
    | (Ok a, s') => (Ok a, s')
    | (Throw e, s') => h e s'
    end.

Definition lift {A} (r : result A) : M A := fun s => (r, s).

Definition record (a : Act) : M unit :=
  fun s =>
    (Ok tt, {| node := node s; blockhashCache := blockhashCache s;
               session := session s; log := log s ++ [a] |}).

(** A request, logged with its answer. *)
Definition ask {A} (a : result A -> Act) (f : N -> result A * N) : M A :=
  fun s =>
    let '(r, n') := f (node s) in
    (r, {| node := n'; blockhashCache := blockhashCache s;
           session := session s; log := log s ++ [a r] |}).

(** Something read from the outside, which cannot fail. *)
Definition read {A} (f : N -> A * N) : M A :=
  fun s =>
    let '(a, n') := f (node s) in
    (Ok a, {| node := n'; blockhashCache := blockhashCache s;
              session := session s; log := log s |}).

Definition tell (n : Notice) : M unit := record (Told n).

Definition dateNow : M Z := read clock.
Definition getLatestBlockhash : M jsstring :=
  ask (fun _ => AskedBlockhash) latest_blockhash.
Definition getAccountInfo (address : PublicKey) : M bool :=
  ask (AskedAccount address) (account_there address).
Definition getBalance (address : PublicKey) : M Z :=
  ask (fun _ => AskedBalance address) (balance address).
Definition getTransaction (signature : jsstring) : M bool :=
  ask (AskedTransaction signature) (transaction_there signature).
Definition sendTransaction (tx : Transaction) : M jsstring :=
  ask (Sent tx) (wallet_sends tx).
Definition confirmTransaction (signature : jsstring) : M (option string) :=
  ask (AskedConfirmation signature) (confirmation signature).
Definition post (path : string) (gameId : option jsstring) : M bool :=
  ask (fun _ => Posted path gameId) (http_post path gameId).
Definition socketConnected : M bool := read socket_connected.
Definition gameStateRef : M UseGame.GameState := read game_state_ref.

(** [socket.emit(event, { gameId })]; the function of use-socket.ts does
    not throw. *)
Definition socketEmit (event : string) (gameId : option jsstring) : M unit :=
  record (Emitted event gameId).

Definition readCache : M (option BlockhashCache.Entry) :=
  fun s => (Ok (blockhashCache s), s).
Definition writeCache (c : option BlockhashCache.Entry) : M unit :=
  fun s =>
    (Ok tt, {| node := node s; blockhashCache := c;
               session := session s; log := log s |}).

(** [setGameState(prev => f prev)] *)
Definition setGameState (f : UseGame.GameState -> UseGame.GameState) : M unit :=
  fun s =>
    (Ok tt, {| node := node s; blockhashCache := blockhashCache s;
               session := f (session s); log := log s |}).

Local Notation "'let*' x ':=' m 'in' k" := (bind m (fun x => k))
  (at level 61, x name, m at next level, right associativity).
Local Notation "m ';;' k" := (bind m (fun _ => k))
  (at level 61, right associativity).

(** *** hooks/use-anchor-program.ts *)

(** getCachedBlockhash(connection), on the module's cache. *)
Definition getCachedBlockhash : M jsstring :=
  let* now := dateNow in
  let* cache := readCache in
  match BlockhashCache.cached now cache with
  | Some hash => ret hash
  | None =>
      let* hash := getLatestBlockhash in
      writeCache (Some {| BlockhashCache.blockhash := hash;
                          BlockhashCache.timestamp := now |}) ;;
      ret hash
  end.

(** The loop of waitAndLogTx: up to [attempts] requests, until the
    transaction is there. *)
Fixpoint pollTransaction (attempts : nat) (signature : jsstring) : M bool :=
  match attempts with
  | O => ret false
  | S attempts' =>
      let* tx := getTransaction signature in
      if tx then ret true else pollTransaction attempts' signature
  end.

(** waitAndLogTx(connection, signature, labels): what follows the loop
    only prints, and whatever is thrown is caught. *)
Definition waitAndLogTx (signature : jsstring) : M unit :=
  try_catch (let* tx := pollTransaction 20 signature in ret tt)
            (fun e => ret tt).

(** [!publicKey || !connected || !sendTransaction] fails *)
Definition usable (wallet : AnchorProgram.Wallet) : option PublicKey :=
  match AnchorProgram.publicKey wallet with
  | Some publicKey =>
      if AnchorProgram.connected wallet && AnchorProgram.hasSendTransaction wallet
      then Some publicKey
      else None
  | None => None
  end.

(** [onComplete?.()] *)
Definition complete (onComplete : bool) : M unit :=
  if onComplete then tell HookComplete else ret tt.

(** initializeUserProfile() *)
Definition initializeUserProfile (wallet : AnchorProgram.Wallet) : M bool :=
  match usable wallet with
  | None =>
      tell (HookError "Cannot initialize profile: wallet not connected") ;;
      ret false
  | Some publicKey =>
      try_catch
        (let* userProfilePDA := lift (AnchorProgram.findUserProfilePDA publicKey) in
         try_catch
           (let* profileAccount :=
              try_catch (getAccountInfo userProfilePDA) (fun e => ret false) in
            if profileAccount then
              tell (HookSuccess "User profile already exists") ;;
              ret true
            else
              let* blockhash := getCachedBlockhash in
              let tx :=
                {| instruction :=
                     IxInitializeUserProfile userProfilePDA publicKey
                       system_program_id;
                   recentBlockhash := Some blockhash;
                   feePayer := Some publicKey |} in
              let* signature := sendTransaction tx in
              let* confirmation := confirmTransaction signature in
              match confirmation with
              | Some err =>
                  tell (HookError "Failed to initialize user profile") ;;
                  ret false
              | None =>
                  tell (HookSuccess "User profile initialized successfully!") ;;
                  ret true
              end)
           (fun error =>
              tell (HookError "Failed to initialize user profile. Please try again later.") ;;
              ret false))
        (fun error =>
           tell (HookError "Failed to initialize user profile") ;;
           ret false)
  end.

(** "Initialize user profile if it doesn't exist", the block shared by
    createGame and joinGame. *)
Definition ensureUserProfile (wallet : AnchorProgram.Wallet)
    (userProfilePDA : PublicKey) : M unit :=
  try_catch
    (let* profileAccount := getAccountInfo userProfilePDA in
     if profileAccount then ret tt
     else (let* initialized := initializeUserProfile wallet in ret tt))
    (fun profileError =>
       let* initialized := initializeUserProfile wallet in ret tt).

(** [gameId] as a string; reading [gameId.replace] of undefined throws. *)
Definition defined (gameId : option jsstring) : result jsstring :=
  match gameId with
  | Some id => Ok id
  | None => Throw "TypeError: Cannot read properties of undefined (reading 'replace')"
  end.

Definition is_sol (currency : jsstring) : bool := jsstring_eqb currency (lit "sol").

(** The transaction createGame sends. *)
Definition createGameTransaction (gameId : jsstring) (stakeAmount : Q)
    (currency : jsstring) (gamePDA userProfilePDA publicKey : PublicKey)
  : Transaction :=
  let stakeAmountBN :=
    if is_sol currency
    then (stakeAmount * inject_Z AnchorProgram.LAMPORTS_PER_SOL)%Q
    else stakeAmount in
  let currencyType := if is_sol currency then SolCurrency else PointsCurrency in
  {| instruction :=
       IxCreateGame gameId stakeAmountBN currencyType 3
         gamePDA userProfilePDA publicKey system_program_id;
     recentBlockhash := None;
     feePayer := None |}.

(** createGame(gameId, stakeAmount, currency, onComplete).  [gameId] is
    what the caller passes, which use-game may leave undefined;
    [onComplete] tells whether the callback was passed.  Building the
    provider, the program object and the transaction is taken not to
    throw, and the number handed to [anchor.BN] is kept as it is. *)
Definition createGame (wallet : AnchorProgram.Wallet)
    (gameId : option jsstring) (stakeAmount : Q) (currency : jsstring)
    (onComplete : bool) : M bool :=
  match usable wallet with
  | None =>
      tell (HookError "Cannot create game: wallet not connected") ;;
      complete onComplete ;;
      ret false
  | Some publicKey =>
      try_catch
        (let* id := lift (defined gameId) in
         let* gamePDA := lift (AnchorProgram.findGamePDA id) in
         let* userProfilePDA := lift (AnchorProgram.findUserProfilePDA publicKey) in
         ensureUserProfile wallet userProfilePDA ;;
         let tx := createGameTransaction id stakeAmount currency
                     gamePDA userProfilePDA publicKey in
         let* createBalanceBefore := getBalance publicKey in
         let* createGamePDABalanceBefore := getBalance gamePDA in
         let* signature := sendTransaction tx in
         let* confirmation := confirmTransaction signature in
         match confirmation with
         | Some err => throw ("Transaction failed: " ++ err)
         | None => ret tt
         end ;;
         let* createBalanceAfter := getBalance publicKey in
         let* createGamePDABalanceAfter := getBalance gamePDA in
         waitAndLogTx signature ;;
         try_catch
           (let* gameAccount := getAccountInfo gamePDA in
            if gameAccount then ret tt
            else throw "Game creation failed - game not found on-chain")
           (fun verifyError => throw verifyError) ;;
         tell (HookSuccess
                 (if is_sol currency
                  then "Game created successfully! SOL staked automatically."
                  else "Game created successfully! Points deducted automatically.")) ;;
         (if is_sol currency then tell HookBalanceUpdate else ret tt) ;;
         complete onComplete ;;
         ret true)
        (fun error =>
           tell (HookError "Failed to create game on-chain. Please try again later.") ;;
           complete onComplete ;;
           throw error)
  end.

(** The transaction joinGame sends. *)
Definition joinGameTransaction (gameId blockhash : jsstring)
    (gamePDA userProfilePDA publicKey : PublicKey) : Transaction :=
  {| instruction :=
       IxJoinGame gameId gamePDA userProfilePDA publicKey system_program_id;
     recentBlockhash := Some blockhash;
     feePayer := Some publicKey |}.

(** joinGame(gameId, onComplete).  The [logs] an error may carry are
    taken to be absent; an error without a message is the empty string. *)
Definition joinGame (wallet : AnchorProgram.Wallet)
    (gameId : option jsstring) (onComplete : bool) : M bool :=
  match usable wallet with
  | None =>
      tell (HookError "Cannot join game: wallet not connected") ;;
      complete onComplete ;;
      ret false
  | Some publicKey =>
      try_catch
        (let* id := lift (defined gameId) in
         let* gamePDA := lift (AnchorProgram.findGamePDA id) in
         let* userProfilePDA := lift (AnchorProgram.findUserProfilePDA publicKey) in
         ensureUserProfile wallet userProfilePDA ;;
         let* balanceBefore := getBalance publicKey in
         let* gamePDABalanceBefore := getBalance gamePDA in
         let* blockhash := getCachedBlockhash in
         let tx := joinGameTransaction id blockhash
                     gamePDA userProfilePDA publicKey in
         let* signature :=
           try_catch (sendTransaction tx) (fun sendError => throw sendError) in
         let* balanceAfter := getBalance publicKey in
         let* gamePDABalanceAfter := getBalance gamePDA in
         let* gamePda := lift (AnchorProgram.findGamePDA id) in
         waitAndLogTx signature ;;
         tell (HookSuccess "Game joined successfully! Stake transferred automatically.") ;;
         tell HookBalanceUpdate ;;
         complete onComplete ;;
         ret true)
        (fun error =>
           let errorMessage :=
             match error with
             | EmptyString => "Unknown error"%string
             | _ => error
             end in
           tell (HookError ("Failed to join game on-chain: " ++ errorMessage)) ;;
           complete onComplete ;;
           throw error)
  end.

(** The transaction cancelGame sends. *)
Definition cancelGameTransaction (gameId : jsstring)
    (gamePDA publicKey : PublicKey) : Transaction :=
  {| instruction := IxCancelGame gameId gamePDA publicKey system_program_id;
     recentBlockhash := None;
     feePayer := None |}.

(** cancelGame(gameId, onComplete) *)
Definition cancelGame (wallet : AnchorProgram.Wallet) (gameId : jsstring)
    (onComplete : bool) : M bool :=
  match usable wallet with
  | None =>
      tell (HookError "Cannot cancel game: wallet not connected") ;;
      complete onComplete ;;
      ret false
  | Some publicKey =>
      try_catch
        (let* gamePDA := lift (AnchorProgram.findGamePDA gameId) in
         let tx := cancelGameTransaction gameId gamePDA publicKey in
         let* signature := sendTransaction tx in
         let* confirmation := confirmTransaction signature in
         tell (HookSuccess "Game cancelled and SOL refunded successfully!") ;;
         complete onComplete ;;
         ret true)
        (fun error =>
           tell (HookError "Failed to cancel game on-chain. Please try again later.") ;;
           complete onComplete ;;
           ret false)
  end.

(** *** hooks/use-game.ts *)

Section Handlers.
(** [publicKey.toString()] *)
Variable toString : PublicKey -> jsstring.

(** [n || 0] *)
Definition number_or_0 (n : option Q) : Q :=
  match UseGame.q_or n (Some 0%Q) with
  | Some v => v
  | None => 0%Q
  end.

(** [c || 'points'] *)
Definition currency_or_points (c : option jsstring) : jsstring :=
  match str_or c (Some (lit "points")) with
  | Some v => v
  | None => lit "points"
  end.

(** "Notify backend that on-chain creation is complete": by HTTP, and by
    the socket if it is connected; neither can fail the handler. *)
Definition notifyBackend (path event : string) (gameId : option jsstring)
  : M unit :=
  let* current := gameStateRef in
  let actualGameId := str_or (UseGame.gameId current) gameId in
  try_catch (let* success := post path actualGameId in ret tt)
            (fun error => ret tt) ;;
  let* connected := socketConnected in
  if connected then socketEmit event actualGameId else ret tt.

(** [isPlayer1] and [isPlayer2] of handleGameStartedPreTx. *)
Definition position (data : UseGame.EventData) (myPlayerId : maybe_str)
  : bool * bool :=
  let g := UseGame.gameStateData data in
  if truthy_str (UseGame.ev_playerType data) then
    (UseGame.is_lit "player1" (UseGame.ev_playerType data),
     UseGame.is_lit "player2" (UseGame.ev_playerType data))
  else
    (strict_eq (UseGame.id_of (UseGame.gd_player1 g)) myPlayerId,
     strict_eq (UseGame.id_of (UseGame.gd_player2 g)) myPlayerId).

Fixpoint callbacks (cbs : list UseGame.Callback) : M unit :=
  match cbs with
  | [] => ret tt
  | cb :: rest => tell (GameCallback cb) ;; callbacks rest
  end.

(** [gameId], [currency] and [stakeAmount] of handleGameStartedPreTx;
    [ref] is [gameStateRef.current] when the event arrives. *)
Definition startGameId (data : UseGame.EventData) (ref : UseGame.GameState)
  : option jsstring :=
  str_or (str_or (UseGame.ev_gameId data)
                 (UseGame.gd_gameId (UseGame.gameStateData data)))
         (UseGame.gameId ref).

Definition startCurrency (data : UseGame.EventData) (ref : UseGame.GameState)
  : option jsstring :=
  str_or (str_or (UseGame.gd_currency (UseGame.gameStateData data))
                 (Some (UseGame.currency ref)))
         (Some (lit "points")).

Definition startStakeAmount (data : UseGame.EventData) (ref : UseGame.GameState)
  : option Q :=
  UseGame.q_or (UseGame.q_or (UseGame.gd_stakeAmount (UseGame.gameStateData data))
                             (UseGame.stakeAmount ref))
               (Some 0%Q).

(** [currency === 'sol' && publicKey && gameStateData.gameType ===
    'private'] *)
Definition stakesOnStart (wallet : AnchorProgram.Wallet)
    (data : UseGame.EventData) (ref : UseGame.GameState) : bool :=
  UseGame.is_lit "sol" (startCurrency data ref)
  && UseGame.present (AnchorProgram.publicKey wallet)
  && UseGame.is_lit "private" (UseGame.gd_gameType (UseGame.gameStateData data)).

(** The branch of handleGameStartedPreTx on the position of the player:
    player one creates the game on the chain, player two joins it, and
    each then tells the backend. *)
Definition stakeForPosition (wallet : AnchorProgram.Wallet)
    (data : UseGame.EventData) (ref : UseGame.GameState) : M unit :=
  let publicKey := option_map toString (AnchorProgram.publicKey wallet) in
  let gameId := startGameId data ref in
  let '(isPlayer1, isPlayer2) := position data (UseGame.myPlayerId publicKey) in
  if isPlayer1 then
    let* created :=
      createGame wallet gameId (number_or_0 (startStakeAmount data ref))
        (currency_or_points (startCurrency data ref)) false in
    setGameState UseGame.afterStakeTransaction ;;
    notifyBackend "/api/games/onchain/created" "onchain_game_created" gameId
  else if isPlayer2 then
    let* joined := joinGame wallet gameId false in
    setGameState UseGame.afterStakeTransaction ;;
    notifyBackend "/api/games/onchain/joined" "onchain_game_joined" gameId
  else ret tt.

(** socket.on('game_started_pre_tx'), the whole handler: the updates of
    the state and the callback are those of [UseGame.handleGameStartedPreTx]
    and [UseGame.afterStakeTransaction]. *)
Definition handleGameStartedPreTx (wallet : AnchorProgram.Wallet)
    (data : UseGame.EventData) : M unit :=
  let publicKey := option_map toString (AnchorProgram.publicKey wallet) in
  let* ref := gameStateRef in
  setGameState (fun prev =>
    fst (UseGame.handleGameStartedPreTx publicKey ref data prev)) ;;
  if stakesOnStart wallet data ref then
    callbacks [UseGame.CbGameJoined (UseGame.gameStateData data)] ;;
    try_catch
      (let* startTime := dateNow in
       stakeForPosition wallet data ref ;;
       let* endTime := dateNow in
       ret tt)
      (fun error => tell (GameError ("Failed to stake SOL: " ++ error)))
  else ret tt.

(** socket.on('create_onchain_game') *)
Definition handleCreateOnchainGame (wallet : AnchorProgram.Wallet)
    (data : UseGame.EventData) : M unit :=
  let g := UseGame.gameStateData data in
  let gameId := str_or (UseGame.ev_gameId data) (UseGame.gd_gameId g) in
  let currency := currency_or_points (UseGame.gd_currency g) in
  let stakeAmount :=
    number_or_0 (UseGame.q_or (UseGame.gd_stakeAmount (UseGame.ev_top data))
                              (UseGame.gd_stakeAmount g)) in
  if is_sol currency && UseGame.present (AnchorProgram.publicKey wallet) then
    try_catch
      (let* created := createGame wallet gameId stakeAmount currency false in
       socketEmit "onchain_game_created" gameId)
      (fun error => tell (GameError ("Failed to stake SOL: " ++ error)))
  else ret tt.

(** socket.on('join_onchain_game') *)
Definition handleJoinOnchainGame (wallet : AnchorProgram.Wallet)
    (data : UseGame.EventData) : M unit :=
  let g := UseGame.gameStateData data in
  let gameId := str_or (UseGame.ev_gameId data) (UseGame.gd_gameId g) in
  let currency := currency_or_points (UseGame.gd_currency g) in
  if is_sol currency && UseGame.present (AnchorProgram.publicKey wallet) then
    try_catch
      (let* joined := joinGame wallet gameId false in
       socketEmit "onchain_game_joined" gameId)
      (fun error => tell (GameError ("Failed to stake SOL: " ++ error)))
  else ret tt.

End Handlers.

(** *** What a run's log shows *)

(** [m] only appends to the log, and every action it appends satisfies
    [P]. *)
Definition emits {A} (P : Act -> Prop) (m : M A) : Prop :=
  forall s : St,
    exists added : list Act,
      log (snd (m s)) = log s ++ added /\ Forall P added.

(** [m] does not throw. *)
Definition safe {A} (m : M A) : Prop :=
  forall s : St, exists a : A, fst (m s) = Ok a.

(** The transactions handed to the wallet. *)
Definition is_sent (a : Act) : bool :=
  match a with
  | Sent _ _ => true
  | _ => false
  end.

Definition sent (l : list Act) : nat := List.length (filter is_sent l).

(** [m] hands at most [n] transactions to the wallet. *)
Definition sends_at_most {A} (n : nat) (m : M A) : Prop :=
  forall s : St,
    exists added : list Act,
      log (snd (m s)) = log s ++ added /\ (sent added <= n)%nat.

(** A stake transaction for the game: createGame or joinGame. *)
Definition is_stake (a : Act) : bool :=
  match a with
  | Sent {| instruction := IxCreateGame _ _ _ _ _ _ _ _ |} _ => true
  | Sent {| instruction := IxJoinGame _ _ _ _ _ |} _ => true
  | _ => false
  end.

(** The backend is told that the stake is on the chain. *)
Definition is_acknowledgment (a : Act) : bool :=
  match a with
  | Posted _ _ => true
  | Emitted _ _ => true
  | _ => false
  end.

Definition is_confirmation (a : Act) : bool :=
  match a with
  | AskedConfirmation _ _ => true
  | _ => false
  end.

(** In what a run has added to the log, every acknowledgment comes after
    a stake transaction that the wallet has sent. *)
Definition stake_first (added : list Act) : Prop :=
  forall a, In a added -> is_acknowledgment a = true ->
    exists (before after : list Act) (tx : Transaction) (signature : jsstring),
      added = before ++ Sent tx (Ok signature) :: after
      /\ is_stake (Sent tx (Ok signature)) = true
      /\ In a after.

End Monad.
End WithNode.
End Staking.

(* ===================================================================== *)
(** ** An outside to run the staking code in *)
(* ===================================================================== *)

Module StakingSamples.
Import Concrete.

(** The text of a key that was made from text. *)
Definition key_text (k : Key) : jsstring :=
  match k with
  | KeyText text => text
  | _ => []
  end.

(** An outside that grants everything: every account is there, every
    transaction is signed, sent and confirmed without an error. *)
Definition granting_node : Staking.Node (H := Concrete.web3) unit :=
  @Staking.Build_Node Concrete.web3 unit
    (fun n => (1000, n))
    (fun n => (Ok (lit "blockhash"), n))
    (fun address n => (Ok true, n))
    (fun address n => (Ok 1000000000, n))
    (fun signature n => (Ok true, n))
    (fun tx n => (Ok (lit "signature"), n))
    (fun signature n => (Ok None, n))
    (fun path gameId n => (Ok true, n))
    (fun n => (true, n))
    (fun n => (Scenario.sol_waiting, n)).

(** The same outside, except that every transaction is confirmed with an
    error. *)
Definition failing_node : Staking.Node (H := Concrete.web3) unit :=
  @Staking.Build_Node Concrete.web3 unit
    (fun n => (1000, n))
    (fun n => (Ok (lit "blockhash"), n))
    (fun address n => (Ok true, n))
    (fun address n => (Ok 1000000000, n))
    (fun signature n => (Ok true, n))
    (fun tx n => (Ok (lit "signature"), n))
    (fun signature n => (Ok (Some "InstructionError"%string), n))
    (fun path gameId n => (Ok true, n))
    (fun n => (true, n))
    (fun n => (Scenario.sol_waiting, n)).

(** The state a run starts from. *)
Definition at_start : Staking.St (H := Concrete.web3) (N := unit) :=
  {| Staking.node := tt;
     Staking.blockhashCache := None;
     Staking.session := Scenario.sol_waiting;
     Staking.log := [] |}.

(** Privy is ready and knows alice's Solana wallet. *)
Definition alices_account : PrivyWallet.PrivyAccount :=
  {| PrivyWallet.address := alice; PrivyWallet.chainType := lit "solana" |}.

(** Alice's wallet while she is not logged in. *)
Definition alice_logged_out : AnchorProgram.Wallet (H := Concrete.web3) :=
  {| AnchorProgram.publicKey := Some (KeyText alice);
     AnchorProgram.connected := false;
     AnchorProgram.hasSendTransaction := true |}.

(** The private SOL game of alice and bob starts; the client is told
    that it is player one. *)
Definition private_sol_start : UseGame.EventData :=
  {| UseGame.ev_top := Scenario.no_game_state;
     UseGame.ev_gameState := UseGame.ev_gameState Samples.bob_joins;
     UseGame.ev_inviteLink := None;
     UseGame.ev_playerType := Some (lit "player1");
     UseGame.ev_playerId := Undefined;
     UseGame.ev_move := None;
     UseGame.ev_round := None;
     UseGame.ev_roundResult := None;
     UseGame.ev_disconnectedPlayerId := Undefined;
     UseGame.ev_countdown := None |}.

End StakingSamples.

(* ===================================================================== *)
(** * Theorems *)
(* ===================================================================== *)

(** ** The seed of the game account *)

Section SeedLength.

Lemma utf8_of_code_point_length (c : Z) :
  (List.length (utf8_of_code_point c) <= 4)%nat.
Proof.
  unfold utf8_of_code_point.
  destruct (c <? 128); [simpl; lia|].
  destruct (c <? 2048); [simpl; lia|].
  destruct (c <? 65536); simpl; lia.
Qed.

(** A code unit that is no surrogate takes at most three bytes. *)
Lemma utf8_of_code_unit_length (u : Z) :
  u < 65536 -> (List.length (utf8_of_code_point u) <= 3)%nat.
Proof.
  intros Hu. unfold utf8_of_code_point.
  destruct (u <? 128); [simpl; lia|].
  destruct (u <? 2048); [simpl; lia|].
  destruct (Z.ltb_spec u 65536); [simpl; lia | lia].
Qed.

(** ASCII text is its own encoding. *)
Lemma utf8_encode_ascii (s : jsstring) :
  ascii_only s -> utf8_encode s = s.
Proof.
  induction 1 as [|u rest Hu _ IH]; [reflexivity|].
  simpl. unfold is_high_surrogate, is_low_surrogate.
  destruct (Z.leb_spec 55296 u); [lia|].
  destruct (Z.leb_spec 56320 u); [lia|]. simpl.
  unfold utf8_of_code_point.
  destruct (Z.ltb_spec u 128); [|lia].
  simpl. now rewrite IH.
Qed.

Lemma ascii_only_firstn (n : nat) (s : jsstring) :
  ascii_only s -> ascii_only (firstn n s).
Proof.
  unfold ascii_only. intros Hs. revert n.
  induction Hs; intros [|n]; simpl; auto.
Qed.

Lemma ascii_only_remove_dashes (s : jsstring) :
  ascii_only s -> ascii_only (remove_dashes s).
Proof.
  unfold ascii_only, remove_dashes. induction 1; simpl; auto.
  destruct (negb (x =? 45)); auto.
Qed.

(** Every code unit gives at most three bytes, whatever the pairing of
    surrogates. *)
Lemma utf8_encode_length_fuel (n : nat) :
  forall s : jsstring,
    (List.length s <= n)%nat -> well_formed s ->
    (List.length (utf8_encode s) <= 3 * List.length s)%nat.
Proof.
  induction n as [|n IH]; intros s Hn Hwf.
  - destruct s; simpl in *; lia.
  - destruct s as [|u rest]; [simpl; lia|].
    inversion Hwf as [|? ? Hu Hrest]; subst.
    assert (Hr : (List.length (utf8_encode rest) <= 3 * List.length rest)%nat)
      by (apply IH; simpl in *; [lia | assumption]).
    cbn [utf8_encode].
    destruct (is_high_surrogate u).
    + destruct rest as [|v rest']; [simpl; lia|].
      destruct (is_low_surrogate v).
      * inversion Hrest; subst.
        assert (Hr' : (List.length (utf8_encode rest') <= 3 * List.length rest')%nat)
          by (apply IH; simpl in *; [lia | assumption]).
        rewrite length_app.
        pose proof (utf8_of_code_point_length (combine_surrogates u v)).
        simpl List.length. lia.
      * rewrite length_app. simpl List.length in *. lia.
    + destruct (is_low_surrogate u).
      * rewrite length_app. simpl List.length in *. lia.
      * rewrite length_app.
        pose proof (utf8_of_code_unit_length u (proj2 Hu)).
        simpl List.length. lia.
Qed.

Lemma well_formed_firstn (n : nat) (s : jsstring) :
  well_formed s -> well_formed (firstn n s).
Proof.
  unfold well_formed. intros Hs. revert n.
  induction Hs; intros [|n]; simpl; auto.
Qed.

Lemma well_formed_remove_dashes (s : jsstring) :
  well_formed s -> well_formed (remove_dashes s).
Proof.
  unfold well_formed, remove_dashes. induction 1; simpl; auto.
  destruct (negb (x =? 45)); auto.
Qed.

(** What the truncation does guarantee: 32 code units, hence 32 bytes
    for an ASCII id and up to 96 bytes otherwise. *)
Lemma game_seed_ascii (gameId : jsstring) :
  ascii_only gameId ->
  (List.length (AnchorProgram.game_seed gameId) <= 32)%nat.
Proof.
  intros Hid. unfold AnchorProgram.game_seed, substring0.
  rewrite utf8_encode_ascii
    by (apply ascii_only_firstn, ascii_only_remove_dashes, Hid).
  rewrite length_firstn. lia.
Qed.

Lemma game_seed_bound (gameId : jsstring) :
  well_formed gameId ->
  (List.length (AnchorProgram.game_seed gameId) <= 96)%nat.
Proof.
  intros Hid. unfold AnchorProgram.game_seed, substring0.
  set (t := firstn 32 (remove_dashes gameId)).
  assert (Ht : (List.length t <= 32)%nat)
    by (unfold t; rewrite length_firstn; lia).
  pose proof (utf8_encode_length_fuel (List.length t) t (le_n _)
                (well_formed_firstn _ _ (well_formed_remove_dashes _ Hid))).
  lia.
Qed.

(** C9. The seed is cut to 32 characters, not to 32 bytes: for the id
    made of seventeen letters e-acute (U+00E9) both implementations hand a
    seed of 34 bytes to the derivation, which the key library refuses. *)
Theorem game_seed_exceeds_32_bytes :
  let gameId : jsstring := repeat 233 17 in
  well_formed gameId /\
  List.length (AnchorProgram.game_seed gameId) = 34%nat /\
  List.length (AutoFinalization.game_seed gameId) = 34%nat /\
  AnchorProgram.findGamePDA (H := Concrete.web3) gameId
    = Throw "Max seed length exceeded" /\
  AutoFinalization.findGamePDA (H := Concrete.web3) gameId
    = Throw "Max seed length exceeded".
Proof.
  cbv zeta. split; [|repeat split; vm_compute; reflexivity].
  unfold well_formed. repeat constructor; unfold code_unit; lia.
Qed.

End SeedLength.

(** ** One derivation, written twice *)

Section SameAddress.
Context `{Web3}.

(** C10. The hook and the auto-finalization service derive the same
    game account address from every game id: the same seeds under the
    same program id. *)
Theorem findGamePDA_agree (gameId : jsstring) :
  AnchorProgram.findGamePDA gameId = AutoFinalization.findGamePDA gameId.
Proof.
  unfold AnchorProgram.findGamePDA, AutoFinalization.findGamePDA.
  unfold AnchorProgram.PROGRAM_ID, AutoFinalization.PROGRAM_ID.
  unfold AnchorProgram.game_seed, AutoFinalization.game_seed.
  reflexivity.
Qed.

End SameAddress.

(** ** Payout arithmetic *)

Section Payout.
Import Fees.
Open Scope Q_scope.







Close Scope Q_scope.
End Payout.

Section PayoutInDoubles.
Import PrimFloat.
Open Scope float_scope.

(** In doubles the stake 0.03 gives the doubles written 0.06 and 0.0018
    for pot and fee; the payout comes out one unit in the last place below
    the double written 0.0582, in the service and in the hook, and prints
    as 0.058 with three decimals as the service logs it. *)
Lemma payout_in_doubles :
  FeesDouble.feeRate 0.03 = 0.03 /\
  FeesDouble.totalPot 0.03 = 0.06 /\
  FeesDouble.platformFee 0.03 = 0.0018 /\
  FeesDouble.expectedWinnings 0.03 = 0.058199999999999995 /\
  FeesDouble.hook_expectedWinnings 0.03 = 0.058199999999999995 /\
  next_up (FeesDouble.expectedWinnings 0.03) = 0.0582.
Proof. repeat split; vm_compute; reflexivity. Qed.

Close Scope float_scope.
End PayoutInDoubles.


(* ===================================================================== *)
(** ** The session handlers *)
(* ===================================================================== *)

Section Forfeit.
Import UseGame.
Local Open Scope string_scope.




(** C6, as stated, fails: the two handlers on the same [playing] session
    give different result messages and different reasons. *)
Lemma disconnect_differs_from_left :
  handlePlayerDisconnected Scenario.alice_key Scenario.sol_playing
    Scenario.bob_gone Scenario.sol_playing
  <> handlePlayerLeft Scenario.alice_key Scenario.sol_playing
       Scenario.bob_gone Scenario.sol_playing.
Proof. vm_compute. discriminate. Qed.

(** C6 (amended). While the session is [playing] and the player reported
    gone is not the local one, both handlers make the same forfeit update
    (game over, local player wins, all other fields kept) but for the
    result message, and both report the local player as winner; the
    disconnection is reported with reason [opponent_disconnect] and the
    event's game state, the departure with reason [opponent_quit]. *)
Theorem disconnect_and_left_differ_in_reason
    (publicKey : option jsstring) (ref prev : GameState) (data : EventData) :
  gameStatus ref = playing ->
  strict_eq (ev_disconnectedPlayerId data) (myPlayerId publicKey) = false ->
  handlePlayerLeft publicKey ref data prev =
    (forfeit publicKey "You won! Your opponent left the game." prev,
     [CbGameFinished
        {| gf_gameId := ev_gameId data;
           gf_winner_playerId := myPlayerId publicKey;
           gf_winner_reason := "opponent_quit";
           gf_gameState := None;
           gf_quitReason := "opponent_left" |}])
  /\
  handlePlayerDisconnected publicKey ref data prev =
    (forfeit publicKey "You won! Your opponent disconnected." prev,
     [CbGameFinished
        {| gf_gameId := ev_gameId data;
           gf_winner_playerId := myPlayerId publicKey;
           gf_winner_reason := "opponent_disconnect";
           gf_gameState := ev_gameState data;
           gf_quitReason := "opponent_disconnected" |}])
  /\
  (forall message,
     gameStatus (forfeit publicKey message prev) = game_over /\
     winner (forfeit publicKey message prev) = to_option (myPlayerId publicKey) /\
     player1 (forfeit publicKey message prev) = player1 prev /\
     player2 (forfeit publicKey message prev) = player2 prev).
Proof.
  intros Hplaying Hother. unfold handlePlayerLeft, handlePlayerDisconnected.
  rewrite Hplaying, Hother. cbn [GameStatus_eqb negb andb].
  repeat split.
Qed.

Lemma disconnect_and_left_differ_in_reason_witness :
  gameStatus (fst (handlePlayerDisconnected Scenario.alice_key
                     Scenario.sol_playing Scenario.bob_gone
                     Scenario.sol_playing)) = game_over.
Proof.
  rewrite (proj1 (proj2 (disconnect_and_left_differ_in_reason
             Scenario.alice_key Scenario.sol_playing Scenario.sol_playing
             Scenario.bob_gone eq_refl eq_refl))).
  reflexivity.
Defined.

End Forfeit.

Section ReadyFlag.
Import UseGame.

Lemma ready_derived_submit (move : option jsstring) (p : Player) :
  ready_derived (submit_move move p).
Proof. intros _. reflexivity. Qed.

Lemma ready_derived_clear (p : Player) : ready_derived (clear_move p).
Proof. intros Hmove. now elim Hmove. Qed.

Lemma ready_derived_joined (p : PlayerData) :
  sent_ready_derived (Some p) -> ready_derived (joined_player p).
Proof.
  unfold sent_ready_derived, ready_derived. simpl.
  intros Hsent Hmove. now rewrite (Hsent Hmove).
Qed.

(** C8, as stated, fails: the round result keeps the moves of both
    players and lowers both ready flags, so a session in which "a move
    means ready" held does not satisfy it afterwards. *)
Lemma round_completed_breaks_ready :
  ready_invariant Scenario.both_moved /\
  exists after callbacks,
    handleRoundCompleted Scenario.alice_key Scenario.round_done
      Scenario.both_moved = Ok (after, callbacks) /\
    ~ ready_invariant after.
Proof.
  split.
  - split; intros _; reflexivity.
  - eexists. eexists. split; [reflexivity|].
    intros [Hp1 _]. unfold ready_derived in Hp1. simpl in Hp1.
    assert (Hready : false = true) by (apply Hp1; discriminate).
    discriminate Hready.
Qed.

(** C8 (amended). "A move means ready" is kept by the move-submitted
    handler and established by the next-round handler; the game-joined
    handler copies both fields from the event, so its result satisfies it
    whenever the players in the event do; the round-completed handler
    lowers both ready flags and keeps the moves (the event's move if it
    carries one, the previous move otherwise). *)
Theorem ready_flag_by_handler
    (publicKey : option jsstring) (data : EventData) (prev : GameState) :
  (ready_invariant prev ->
   ready_invariant (fst (handleMoveSubmitted data prev)))
  /\
  ready_invariant (fst (handleNextRound data prev))
  /\
  (sent_ready_derived (gd_player1 (gameStateData data)) ->
   sent_ready_derived (gd_player2 (gameStateData data)) ->
   ready_invariant (fst (handleGameJoined publicKey data)))
  /\
  (forall after callbacks,
     handleRoundCompleted publicKey data prev = Ok (after, callbacks) ->
     ready (player1 after) = false /\
     currentMove (player1 after)
       = nullish (opt_field pd_currentMove
                    (opt_field gd_player1 (ev_gameState data)))
                 (currentMove (player1 prev)) /\
     forall p, player2 prev = Some p ->
       exists p', player2 after = Some p' /\
         ready p' = false /\
         currentMove p'
           = nullish (opt_field pd_currentMove
                        (opt_field gd_player2 (ev_gameState data)))
                     (currentMove p)).
Proof.
  split; [|split; [|split]].
  - intros [Hp1 Hp2]. unfold handleMoveSubmitted, ready_invariant. simpl.
    split.
    + destruct (strict_eq (id (player1 prev)) (ev_playerId data));
        [exact (ready_derived_submit _ _) | exact Hp1].
    + destruct (strict_eq _ (ev_playerId data)); [|exact Hp2].
      destruct (player2 prev); simpl; [exact (ready_derived_submit _ _) | exact I].
  - unfold handleNextRound, ready_invariant. simpl. split.
    + exact (ready_derived_clear _).
    + destruct (player2 prev); simpl; [exact (ready_derived_clear _) | exact I].
  - intros Hs1 Hs2. unfold handleGameJoined, ready_invariant. simpl. split.
    + unfold sent_ready_derived in Hs1. unfold ready_derived. simpl.
      intros Hmove. now rewrite (Hs1 Hmove).
    + destruct (gd_player2 (gameStateData data)) as [p|]; simpl; [|exact I].
      exact (ready_derived_joined _ Hs2).
  - intros after callbacks Hrun. unfold handleRoundCompleted in Hrun.
    destruct (opt_field scores (ev_roundResult data)) as [sc|];
      [|discriminate].
    destruct (ev_gameState data) as [g|]; [|discriminate].
    injection Hrun as <- _. simpl.
    repeat split.
    intros p Hp. rewrite Hp. simpl. eexists. repeat split.
Qed.

(** Alice's move on a session where both had moved; the next round. *)
Lemma ready_flag_by_handler_witness :
  ready_invariant (fst (handleMoveSubmitted Scenario.alice_moves
                          Scenario.both_moved)).
Proof.
  apply (proj1 (ready_flag_by_handler None Scenario.alice_moves
                  Scenario.both_moved)).
  split; intros _; reflexivity.
Defined.

End ReadyFlag.

Section StakeAcknowledgments.
Import UseGame.







End StakeAcknowledgments.


(* ===================================================================== *)
(** ** What the service and the hook send to the ledger *)
(* ===================================================================== *)

Section Emitting.
Context `{Web3} {W : Type} {HW : World W}.

Lemma emits_ret {A} (P : Action -> Prop) (a : A) : emits P (ret (W:=W) a).
Proof. intros s. exists []. simpl. now rewrite app_nil_r. Qed.

Lemma emits_throw {A} (P : Action -> Prop) (e : string) :
  emits P (throw (W:=W) (A:=A) e).
Proof. intros s. exists []. simpl. now rewrite app_nil_r. Qed.

Lemma emits_lift {A} (P : Action -> Prop) (r : result A) :
  emits P (lift (W:=W) r).
Proof. intros s. exists []. simpl. now rewrite app_nil_r. Qed.

Lemma emits_random (P : Action -> Prop) : emits P (random (W:=W)).
Proof.
  intros s. exists []. unfold random.
  destruct (random_nonce (world s)). simpl. now rewrite app_nil_r.
Qed.

Lemma emits_call {A} (P : Action -> Prop) (a : Action)
    (f : W -> result A * W) :
  P a -> emits P (call a f).
Proof.
  intros Ha s. exists [a]. unfold call.
  destruct (f (world s)). simpl. auto.
Qed.

Lemma emits_notify (P : Action -> Prop) (n : Notice) :
  P (Notified n) -> emits P (notify (W:=W) n).
Proof. intros Hn s. exists [Notified n]. simpl. auto. Qed.

Lemma emits_bind {A B} (P : Action -> Prop) (m : M A) (k : A -> M (W:=W) B) :
  emits P m -> (forall a, emits P (k a)) -> emits P (bind m k).
Proof.
  intros Hm Hk s. unfold bind.
  destruct (Hm s) as (l1 & E1 & F1).
  destruct (m s) as [[a|e] s1]; simpl in *.
  - destruct (Hk a s1) as (l2 & E2 & F2).
    exists (l1 ++ l2). rewrite E2, E1, app_assoc.
    split; [reflexivity | now apply Forall_app].
  - now exists l1.
Qed.

Lemma emits_try_catch {A} (P : Action -> Prop) (m : M (W:=W) A)
    (h : string -> M A) :
  emits P m -> (forall e, emits P (h e)) -> emits P (try_catch m h).
Proof.
  intros Hm Hh s. unfold try_catch.
  destruct (Hm s) as (l1 & E1 & F1).
  destruct (m s) as [[a|e] s1]; simpl in *.
  - now exists l1.
  - destruct (Hh e s1) as (l2 & E2 & F2).
    exists (l1 ++ l2). rewrite E2, E1, app_assoc.
    split; [reflexivity | now apply Forall_app].
Qed.

(** A handler that only reports does not change what was done. *)
Lemma snd_reported {A} (m : M (W:=W) A) (b : A) (s : St) :
  snd (try_catch m (fun _ => ret b) s) = snd (m s).
Proof. unfold try_catch, ret. now destruct (m s) as [[a|e] s']. Qed.

End Emitting.

(** Walks through a monadic program, one constructor at a time. *)
Ltac emit :=
  repeat first
    [ apply emits_ret
    | apply emits_throw
    | apply emits_lift
    | apply emits_random
    | apply emits_notify; exact I
    | apply emits_call; simpl; now auto
    | apply emits_bind; [|intros ?]
    | apply emits_try_catch; [|intros ?]
    | match goal with
      | |- emits _ (match ?x with _ => _ end) => destruct x eqn:?
      end ].

Section ServiceTraces.
Context `{Web3} {W : Type} {HW : World W}.
Import AutoFinalization.

(** The referrer lookup never throws and fetches the winner's profile,
    nothing else. *)
Lemma lookup_referrer_spec (cfg : Config) (profile fallback : PublicKey)
    (s : St) :
  exists found w',
    lookup_referrer cfg profile fallback s
    = (Ok found, {| world := w'; log := log s ++ [Fetched profile] |}).
Proof.
  unfold lookup_referrer, try_catch, bind, getAccountInfo, call, ret.
  destruct (get_account_info profile (world s)) as [[[data|]|e] w'];
    [|eauto|eauto].
  destruct (Buf.get _ data) as [tag|]; [|eauto].
  destruct tag as [|[tag|tag|]|tag]; eauto.
  destruct (pk_of_bytes _); [|eauto].
  destruct (findUserProfilePDA _); eauto.
Qed.

(** One answer of the world, or one branch of the code, at a time. *)
Ltac run_step :=
  match goal with
  | |- context [lookup_referrer ?c ?a ?b ?s] =>
      let found := fresh "found" in
      let w := fresh "w" in
      let E := fresh "E" in
      destruct (lookup_referrer_spec c a b s) as (found & w & E);
      rewrite E; clear E
  | |- context [get_account_info ?a ?w] =>
      destruct (get_account_info a w) as [[[?|]|?] ?] eqn:?
  | |- context [send_and_confirm ?i ?w] =>
      destruct (send_and_confirm i w) as [[?|?] ?] eqn:?
  | |- context [match ?x with _ => _ end] =>
      destruct x eqn:?
  end; cbn [fst snd log world] in *.

Lemma finalize_body_outcome (cfg : Config)
    (gameId winnerPublicKey loserPublicKey : jsstring) (stakeAmount : Q)
    (s : St) :
  exists added,
    log (snd (finalize_body cfg gameId winnerPublicKey loserPublicKey
                stakeAmount s))
      = log s ++ added /\
    outcome cfg gameId winnerPublicKey s
      (fst (finalize_body cfg gameId winnerPublicKey loserPublicKey
              stakeAmount s))
      added
      (snd (finalize_body cfg gameId winnerPublicKey loserPublicKey
              stakeAmount s)).
Proof.
  unfold finalize_body.
  cbv [bind lift ret throw try_catch getAccountInfo sendAndConfirm call].
  repeat run_step.
  all: eexists; (split;
    [ repeat (rewrite <- app_assoc; simpl);
      first [reflexivity | symmetry; apply app_nil_r] | ]).
  all: unfold finalizeInstruction in *.
  all: econstructor; eauto.
Qed.

(** The whole function: the same requests, and [true] exactly when the
    body did not throw. *)
Lemma autoFinalize_outcome (cfg : Config)
    (gameId winnerPublicKey loserPublicKey : jsstring) (stakeAmount : Q)
    (s : St) :
  let out := autoFinalizeSolGame cfg gameId winnerPublicKey loserPublicKey
               stakeAmount s in
  exists added r,
    log (snd out) = log s ++ added /\
    outcome cfg gameId winnerPublicKey s r added (snd out) /\
    fst out = Ok (match r with Ok _ => true | Throw _ => false end).
Proof.
  cbv zeta. unfold autoFinalizeSolGame.
  rewrite snd_reported.
  destruct (finalize_body_outcome cfg gameId winnerPublicKey loserPublicKey
              stakeAmount s) as (added & Hlog & Hout).
  exists added. unfold try_catch, ret.
  destruct (finalize_body _ _ _ _ _ s) as [[b|e] s']; simpl in *.
  - assert (Hb : b = true) by (inversion Hout; reflexivity).
    subst b. exists (Ok true). repeat split; assumption.
  - exists (Throw e). repeat split; assumption.
Qed.

(** C1 (amended). The service keeps no record of finalizations and checks
    none: from any state, also one that follows a successful finalization
    of the same session, an invocation with the service wallet loaded and
    a derivable game address first fetches the game account again, and
    every invocation that returns [true] has submitted a set-winner and a
    finalize transaction of its own.  So the finalize transaction is
    submitted as many times as the function is run successfully; that the
    payout happens once is left to the on-chain program. *)
Theorem each_success_submits_its_own_payout (cfg : Config)
    (gameId winnerPublicKey loserPublicKey : jsstring) (stakeAmount : Q)
    (s : St) :
  let out := autoFinalizeSolGame cfg gameId winnerPublicKey loserPublicKey
               stakeAmount s in
  (forall serviceKey gamePDA,
     serviceWallet cfg = Some serviceKey ->
     findGamePDA gameId = Ok gamePDA ->
     exists rest, log (snd out) = log s ++ Fetched gamePDA :: rest)
  /\
  (fst out = Ok true ->
   exists serviceKey gamePDA winnerKey winnerProfilePDA programId keys,
     serviceWallet cfg = Some serviceKey /\
     findGamePDA gameId = Ok gamePDA /\
     pk_of_base58 winnerPublicKey = Ok winnerKey /\
     findUserProfilePDA winnerKey = Ok winnerProfilePDA /\
     log (snd out) =
       log s ++
       [Fetched gamePDA;
        Submitted (IxSetWinner gameId winnerKey gamePDA serviceKey);
        Fetched gamePDA;
        Fetched winnerProfilePDA;
        Submitted (IxRaw programId keys (instructionData gameId))]).
Proof.
  cbv zeta.
  destruct (autoFinalize_outcome cfg gameId winnerPublicKey loserPublicKey
              stakeAmount s) as (added & r & Hlog & Hout & Hres).
  rewrite Hlog, Hres. split.
  - intros serviceKey gamePDA Hkey Hpda.
    destruct Hout;
      try match goal with
          | Hg : findGamePDA gameId = Ok ?g |- _ =>
              rewrite Hpda in Hg; injection Hg as <-
          end;
      eauto.
    match goal with
    | Hor : _ \/ _ |- _ => destruct Hor as [Hnone | Hthrow]; congruence
    end.
  - intros Htrue. destruct Hout; try discriminate.
    repeat eexists; eauto.
Qed.


Lemma autoFinalize_names_winner (cfg : Config)
    (gameId winnerPublicKey loserPublicKey : jsstring) (stakeAmount : Q) :
  emits (names_winner_argument gameId winnerPublicKey)
    (autoFinalizeSolGame cfg gameId winnerPublicKey loserPublicKey
       stakeAmount).
Proof.
  intros s.
  destruct (autoFinalize_outcome cfg gameId winnerPublicKey loserPublicKey
              stakeAmount s) as (added & r & Hlog & Hout & _).
  exists added. split; [exact Hlog|].
  destruct Hout; repeat constructor; simpl; auto.
Qed.

End ServiceTraces.

Section HookTraces.
Context `{Web3} {W : Type} {HW : World W} {HL : AnchorProgram.Libs}.
Import AnchorProgram.

Lemma finalizeGame_sent_as_wallet (wallet : Wallet) (gameId : jsstring) :
  emits (sent_as_wallet wallet) (finalizeGame wallet gameId).
Proof.
  unfold finalizeGame.
  destruct gameId as [|c gameId]; [emit|].
  destruct (publicKey wallet) as [me|] eqn:Hme; [|emit].
  destruct (connected wallet && hasSendTransaction wallet); [|emit].
  unfold on_tx_error, normal_finalization, complete_on_chain, abandon_pathway.
  unfold getAccountInfo, sendTransaction, confirmTransaction.
  emit.
Qed.

(** C2 (amended). The service's set-winner instruction names exactly the
    key of the winner it was called with, for the game it was called
    with, and the service sends no move, reveal or abandon instruction.
    The hook's recovery takes no winner at all: its synthetic commitment,
    its reveal (always of Rock) and its abandon instruction are sent with
    the connected wallet as user, whoever won off-chain, and it sends no
    set-winner instruction. *)
Theorem recovery_names_caller_or_argument
    (cfg : AutoFinalization.Config) (wallet : Wallet)
    (gameId winnerPublicKey loserPublicKey : jsstring) (stakeAmount : Q) :
  emits (AutoFinalization.names_winner_argument gameId winnerPublicKey)
    (AutoFinalization.autoFinalizeSolGame cfg gameId winnerPublicKey
       loserPublicKey stakeAmount)
  /\
  emits (sent_as_wallet wallet) (finalizeGame wallet gameId).
Proof.
  split.
  - apply autoFinalize_names_winner.
  - apply finalizeGame_sent_as_wallet.
Qed.

End HookTraces.

(* ===================================================================== *)
(** ** The service and the hook on a concrete ledger *)
(* ===================================================================== *)

Section OnTheLedger.
Import Concrete.

(** C1, as stated, fails: run twice on a ledger that grants every
    request, the service submits the finalize transaction twice; the
    second run is no no-op. *)
Lemma second_finalization_pays_again :
  ~ at_most_one_payout finalize_once 0%nat.
Proof.
  unfold at_most_one_payout. intros Hclaim.
  assert (Hfirst : fst (run finalize_once 0%nat) = Ok true)
    by (vm_compute; reflexivity).
  apply Hclaim in Hfirst. vm_compute in Hfirst. lia.
Qed.

(** The first run in that world, and a second one after it. *)
Lemma each_success_submits_its_own_payout_witness :
  (exists rest,
     log (snd (finalize_once (snd (run finalize_once 0%nat))))
     = log (snd (run finalize_once 0%nat))
       ++ Fetched (KeyDerived [utf8_encode (lit "game"); utf8_encode (lit "7")]
                     (KeyText (lit "GstXQkBpu26KABj6YZ3pYKJhQphoQ72YL1zL38NC6D9U")))
       :: rest)
  /\
  payouts (log (snd (finalize_once (snd (run finalize_once 0%nat))))) = 2%nat.
Proof.
  split.
  - apply (proj1 (each_success_submits_its_own_payout service_config
                    (lit "7") alice bob (3 # 100)
                    (snd (run finalize_once 0%nat)))
             (KeyText (lit "service"))).
    + reflexivity.
    + vm_compute. reflexivity.
  - destruct (proj2 (each_success_submits_its_own_payout service_config
                       (lit "7") alice bob (3 # 100)
                       (snd (run finalize_once 0%nat))))
      as (k & g & w & p & pid & keys & _ & _ & _ & _ & Hlog).
    + vm_compute. reflexivity.
    + change (finalize_once (snd (run finalize_once 0%nat)))
        with (AutoFinalization.autoFinalizeSolGame service_config (lit "7")
                alice bob (3 # 100) (snd (run finalize_once 0%nat))).
      rewrite Hlog.
      unfold payouts. rewrite filter_app, length_app.
      vm_compute. reflexivity.
Defined.



(** C2, as stated, fails: bob lost session "7" to alice; when he calls
    the hook's finalizeGame, the synthetic move is committed in his
    name. *)
Lemma loser_recovers_in_own_name :
  ~ Forall (names (KeyText alice))
      (log (snd (run (AnchorProgram.finalizeGame bobs_wallet (lit "7")) 0%nat))).
Proof.
  intros Hall.
  assert (Hin : In (Submitted
                      (IxSubmitMove (lit "7")
                         (0 :: AnchorProgram.le_bytes 8 42)
                         (KeyDerived
                            [utf8_encode (lit "game"); utf8_encode (lit "7")]
                            (KeyText (lit "GstXQkBpu26KABj6YZ3pYKJhQphoQ72YL1zL38NC6D9U")))
                         (KeyText bob)))
                   (log (snd (run (AnchorProgram.finalizeGame bobs_wallet
                                     (lit "7")) 0%nat))))
    by (right; left; reflexivity).
  apply (proj1 (Forall_forall _ _) Hall) in Hin.
  simpl in Hin. discriminate Hin.
Qed.

End OnTheLedger.


(* ===================================================================== *)
(** ** More on the seed and the address of the game account *)
(* ===================================================================== *)

Section SeedAndAddress.
Context `{Web3}.

Lemma remove_dashes_idempotent (s : jsstring) :
  remove_dashes (remove_dashes s) = remove_dashes s.
Proof.
  unfold remove_dashes. induction s as [|u s IH]; [reflexivity|].
  simpl. destruct (negb (u =? 45)) eqn:Hu; simpl; [rewrite Hu|]; now rewrite ?IH.
Qed.

Lemma remove_dashes_app (a b : jsstring) :
  remove_dashes (a ++ b) = remove_dashes a ++ remove_dashes b.
Proof. apply filter_app. Qed.

Lemma ascii_seed (gameId : jsstring) :
  ascii_only gameId ->
  utf8_encode (substring0 32 (remove_dashes gameId))
  = firstn 32 (remove_dashes gameId).
Proof.
  intros Hid. unfold substring0.
  apply utf8_encode_ascii, ascii_only_firstn, ascii_only_remove_dashes, Hid.
Qed.

(** X1. For an id written in ASCII the seed is the id without its dashes, cut
    to 32 characters, byte for byte, in the hook and in the service: at
    most 32 bytes, as the key library requires. *)
Theorem ascii_id_seed_within_limit (gameId : jsstring) :
  ascii_only gameId ->
  AnchorProgram.game_seed gameId = firstn 32 (remove_dashes gameId) /\
  AutoFinalization.game_seed gameId = firstn 32 (remove_dashes gameId) /\
  (List.length (AnchorProgram.game_seed gameId) <= 32)%nat.
Proof.
  intros Hid.
  unfold AnchorProgram.game_seed, AutoFinalization.game_seed.
  rewrite (ascii_seed gameId Hid). repeat split. rewrite length_firstn. lia.
Qed.

Lemma ascii_only_lit (text : string) :
  forallb (fun a => (N_of_ascii a <? 128)%N) (list_ascii_of_string text) = true ->
  ascii_only (lit text).
Proof.
  unfold ascii_only, lit. induction (list_ascii_of_string text) as [|a l IH];
    simpl; intros Hall; constructor.
  - apply andb_true_iff in Hall as [Ha _]. apply N.ltb_lt in Ha. lia.
  - apply IH. now apply andb_true_iff in Hall as [_ Hl].
Qed.

(** A UUID loses its four dashes and keeps its 32 digits. *)
Lemma ascii_id_seed_within_limit_witness :
  AnchorProgram.game_seed Samples.uuid
  = lit "550e8400e29b41d4a716446655440000".
Proof.
  rewrite (proj1 (ascii_id_seed_within_limit Samples.uuid
                    (ascii_only_lit "550e8400-e29b-41d4-a716-446655440000"
                       eq_refl))).
  reflexivity.
Defined.

(** Whatever the id, the seed has at most 96 bytes: 32 code units of at
    most three bytes each. *)
Theorem seed_at_most_96_bytes (gameId : jsstring) :
  well_formed gameId ->
  (List.length (AnchorProgram.game_seed gameId) <= 96)%nat /\
  (List.length (AutoFinalization.game_seed gameId) <= 96)%nat.
Proof.
  intros Hid. split; exact (game_seed_bound gameId Hid).
Qed.

(** The bound is reached by thirty-two euro signs. *)
Lemma seed_at_most_96_bytes_witness :
  (List.length (AnchorProgram.game_seed Samples.euros) <= 96)%nat /\
  List.length (AnchorProgram.game_seed Samples.euros) = 96%nat.
Proof.
  split.
  - refine (proj1 (seed_at_most_96_bytes Samples.euros _)).
    unfold well_formed, Samples.euros.
    repeat constructor; unfold code_unit; lia.
  - vm_compute. reflexivity.
Defined.

(** X2. The address depends on the first 32 characters other than dashes and
    on nothing else: the dashes of an id do not matter, and once an id has
    32 such characters anything appended to it is ignored, so two ids that
    agree that far share one game account. *)
Theorem address_ignores_dashes_and_tail (gameId suffix : jsstring) :
  AnchorProgram.findGamePDA (remove_dashes gameId)
    = AnchorProgram.findGamePDA gameId
  /\
  ((32 <= List.length (remove_dashes gameId))%nat ->
   AnchorProgram.findGamePDA (gameId ++ suffix)
     = AnchorProgram.findGamePDA gameId /\
   AutoFinalization.findGamePDA (gameId ++ suffix)
     = AutoFinalization.findGamePDA gameId).
Proof.
  split.
  - unfold AnchorProgram.findGamePDA, AnchorProgram.game_seed.
    now rewrite remove_dashes_idempotent.
  - intros Hlong.
    assert (Hcut : substring0 32 (remove_dashes (gameId ++ suffix))
                   = substring0 32 (remove_dashes gameId)).
    { unfold substring0. rewrite remove_dashes_app, firstn_app.
      replace (32 - List.length (remove_dashes gameId))%nat with 0%nat by lia.
      simpl. apply app_nil_r. }
    unfold AnchorProgram.findGamePDA, AutoFinalization.findGamePDA,
      AnchorProgram.game_seed, AutoFinalization.game_seed.
    now rewrite Hcut.
Qed.

End SeedAndAddress.

Section SeedAndAddressOnKeys.

(** Two sessions whose ids differ after the 32nd digit get one address. *)
Lemma address_ignores_dashes_and_tail_witness :
  AnchorProgram.findGamePDA (H := Concrete.web3) (Samples.uuid ++ lit "-second")
  = AnchorProgram.findGamePDA (H := Concrete.web3) Samples.uuid.
Proof.
  refine (proj1 (proj2 (address_ignores_dashes_and_tail (H := Concrete.web3)
                          Samples.uuid (lit "-second")) _)).
  vm_compute. lia.
Defined.

End SeedAndAddressOnKeys.

(* ===================================================================== *)
(** ** Reading and writing account and instruction bytes *)
(* ===================================================================== *)

Section Bytes.
Context `{Web3}.
Import AutoFinalization.

Lemma slice_middle (pre mid rest : list Z) :
  Buf.slice (Z.of_nat (List.length pre))
            (Z.of_nat (List.length pre) + Z.of_nat (List.length mid))
            (pre ++ mid ++ rest) = mid.
Proof.
  unfold Buf.slice.
  replace (Z.of_nat (List.length pre) + Z.of_nat (List.length mid)
           - Z.of_nat (List.length pre)) with (Z.of_nat (List.length mid)) by lia.
  rewrite !Nat2Z.id, skipn_app, skipn_all, Nat.sub_diag. simpl.
  rewrite firstn_app, firstn_all, Nat.sub_diag. simpl. apply app_nil_r.
Qed.

Lemma u32le_value (v : Z) :
  0 <= v < 4294967296 ->
  v mod 256 + 256 * ((v / 256) mod 256) + 65536 * ((v / 65536) mod 256)
  + 16777216 * ((v / 16777216) mod 256) = v.
Proof. intros Hv. Z.div_mod_to_equations. lia. Qed.

(** What [writeUInt32LE] wrote, [readUInt32LE] reads back. *)
Lemma read_u32le (pre rest : list Z) (v : Z) :
  0 <= v < 4294967296 ->
  Buf.readUInt32LE (Z.of_nat (List.length pre)) (pre ++ Buf.u32le v ++ rest)
  = Ok v.
Proof.
  intros Hv. unfold Buf.readUInt32LE.
  change 4 with (Z.of_nat (List.length (Buf.u32le v))).
  rewrite slice_middle. unfold Buf.u32le.
  now rewrite u32le_value.
Qed.

(** X3. The data of the finalize instruction: the eight bytes of the
    discriminator, the byte length of the id in four bytes, and the id,
    whole, in UTF-8; the length read back is the length of what follows. *)
Theorem instruction_data_layout (gameId : jsstring) :
  Z.of_nat (List.length (utf8_encode gameId)) < 4294967296 ->
  firstn 8 (instructionData gameId) = FINALIZE_GAME_DISCRIMINATOR /\
  Buf.readUInt32LE 8 (instructionData gameId)
    = Ok (Z.of_nat (List.length (utf8_encode gameId))) /\
  skipn 12 (instructionData gameId) = utf8_encode gameId /\
  List.length (instructionData gameId)
    = (12 + List.length (utf8_encode gameId))%nat.
Proof.
  intros Hlen. unfold instructionData. cbv zeta.
  split; [reflexivity | split; [|split]].
  - change 8 with (Z.of_nat (List.length FINALIZE_GAME_DISCRIMINATOR)).
    apply read_u32le. lia.
  - reflexivity.
  - rewrite !length_app. reflexivity.
Qed.

Lemma instruction_data_layout_witness :
  Buf.readUInt32LE 8 (instructionData Samples.uuid) = Ok 36.
Proof.
  refine (proj1 (proj2 (instruction_data_layout Samples.uuid _))).
  vm_compute. reflexivity.
Defined.

Lemma filter_same_length {A} (p : A -> bool) (l : list A) :
  List.length (filter p l) = List.length l -> filter p l = l.
Proof.
  induction l as [|a l IH]; [reflexivity|]. simpl.
  pose proof (filter_length_le p l) as Hle.
  destruct (p a); simpl; intros Hlen.
  - f_equal. apply IH. lia.
  - lia.
Qed.

(** X4. The instruction carries the id as given, the seed carries it without
    dashes and cut to 32 characters: for an ASCII id the two are the same
    bytes exactly when the id has no dash and at most 32 characters. *)
Theorem seed_is_instruction_id (gameId : jsstring) :
  ascii_only gameId ->
  (game_seed gameId = utf8_encode gameId <->
   remove_dashes gameId = gameId /\ (List.length gameId <= 32)%nat).
Proof.
  intros Hid. unfold game_seed.
  rewrite (ascii_seed gameId Hid), (utf8_encode_ascii gameId Hid). split.
  - intros Hsame.
    assert (Hlen : List.length (firstn 32 (remove_dashes gameId))
                   = List.length gameId) by now rewrite Hsame.
    rewrite length_firstn in Hlen.
    pose proof (filter_length_le (fun u => negb (u =? 45)) gameId) as Hle.
    fold (remove_dashes gameId) in Hle.
    split; [|lia].
    apply filter_same_length. fold (remove_dashes gameId). lia.
  - intros [Hdash Hlen]. rewrite Hdash. apply firstn_all2. exact Hlen.
Qed.

(** The id "7" is its own seed; a UUID is not. *)
Lemma seed_is_instruction_id_witness :
  game_seed (lit "7") = utf8_encode (lit "7") /\
  game_seed Samples.uuid <> utf8_encode Samples.uuid.
Proof.
  split.
  - apply (proj2 (seed_is_instruction_id (lit "7")
                    (ascii_only_lit "7" eq_refl))).
    split; [reflexivity | simpl; lia].
  - intros Hsame.
    apply (proj1 (seed_is_instruction_id Samples.uuid
                    (ascii_only_lit "550e8400-e29b-41d4-a716-446655440000"
                       eq_refl))) in Hsame.
    destruct Hsame as [_ Hlen]. vm_compute in Hlen. lia.
Defined.

(** An account of fewer than twelve bytes cannot hold the length of the
    id: reading it throws, before any key is built. *)
Theorem parse_players_short_account (gameData : list Z) :
  (List.length gameData < 12)%nat ->
  parse_players gameData = Throw "RangeError: out of range".
Proof.
  intros Hshort. unfold parse_players, Buf.readUInt32LE, Buf.slice.
  assert (Hlen : (List.length
                    (firstn (Z.to_nat (8 + 4 - 8)) (skipn (Z.to_nat 8) gameData))
                  < 4)%nat).
  { rewrite length_firstn, length_skipn. lia. }
  destruct (firstn _ (skipn _ gameData)) as [|b0 [|b1 [|b2 [|b3 [|b4 l]]]]];
    try reflexivity; simpl in Hlen; lia.
Qed.

Lemma parse_players_short_account_witness :
  parse_players (repeat 0 11) = Throw "RangeError: out of range".
Proof.
  apply parse_players_short_account. simpl. lia.
Defined.

(** X5. On an account laid out as the code expects, the two keys are built
    from the 32 bytes after the id and from the 32 bytes after the option
    tag; a tag other than 1 means no second player and throws. *)
Theorem parse_players_layout
    (discriminator idBytes player1Bytes tail : list Z) (tag : Z) :
  List.length discriminator = 8%nat ->
  Z.of_nat (List.length idBytes) < 4294967296 ->
  List.length player1Bytes = 32%nat ->
  parse_players
    (Samples.game_account discriminator idBytes player1Bytes tag tail)
  = match pk_of_bytes player1Bytes with
    | Throw m => Throw m
    | Ok player1Key =>
        if tag =? 1 then
          match pk_of_bytes (firstn 32 tail) with
          | Throw m => Throw m
          | Ok player2Key => Ok (player1Key, player2Key)
          end
        else Throw "Game has no player2 - cannot finalize"
    end.
Proof.
  intros Hdisc Hid Hp1. unfold parse_players, Samples.game_account.
  change 8 with (Z.of_nat 8) at 1. rewrite <- Hdisc at 1.
  rewrite read_u32le by lia.
  set (n := Z.of_nat (List.length idBytes)).
  assert (Hslice1 :
    Buf.slice (8 + 4 + n) (8 + 4 + n + 32)
      (discriminator ++ Buf.u32le n ++ idBytes ++ player1Bytes ++ tag :: tail)
    = player1Bytes).
  { pose proof (slice_middle (discriminator ++ Buf.u32le n ++ idBytes)
                  player1Bytes (tag :: tail)) as Hs.
    rewrite !length_app, Hdisc, Hp1 in Hs. simpl List.length in Hs.
    rewrite <- !app_assoc in Hs.
    replace (8 + 4 + n) with (Z.of_nat (8 + (4 + List.length idBytes)))
      by (unfold n; lia).
    replace (Z.of_nat (8 + (4 + List.length idBytes)) + 32)
      with (Z.of_nat (8 + (4 + List.length idBytes)) + Z.of_nat 32) by lia.
    exact Hs. }
  rewrite Hslice1.
  destruct (pk_of_bytes player1Bytes) as [player1Key|m]; [|reflexivity].
  set (pre := discriminator ++ Buf.u32le n ++ idBytes ++ player1Bytes).
  assert (Hpre : Z.of_nat (List.length pre) = 8 + 4 + n + 32).
  { unfold pre. rewrite !length_app, Hdisc, Hp1. simpl List.length.
    unfold n. lia. }
  assert (Hdata :
    discriminator ++ Buf.u32le n ++ idBytes ++ player1Bytes ++ tag :: tail
    = pre ++ tag :: tail)
    by (unfold pre; now rewrite <- !app_assoc).
  rewrite Hdata, <- Hpre.
  assert (Hget : Buf.get (Z.of_nat (List.length pre)) (pre ++ tag :: tail)
                 = Some tag).
  { unfold Buf.get.
    destruct (Z.ltb_spec (Z.of_nat (List.length pre)) 0); [lia|].
    rewrite Nat2Z.id, nth_error_app2, Nat.sub_diag by lia. reflexivity. }
  rewrite Hget.
  assert (Hslice2 :
    Buf.slice (Z.of_nat (List.length pre) + 1)
              (Z.of_nat (List.length pre) + 1 + 32) (pre ++ tag :: tail)
    = firstn 32 tail).
  { unfold Buf.slice.
    replace (Z.of_nat (List.length pre) + 1 + 32
             - (Z.of_nat (List.length pre) + 1)) with 32 by lia.
    replace (Z.to_nat (Z.of_nat (List.length pre) + 1))
      with (List.length pre + 1)%nat by lia.
    rewrite skipn_app, skipn_all2 by lia.
    replace (List.length pre + 1 - List.length pre)%nat with 1%nat by lia.
    reflexivity. }
  rewrite Hslice2.
  destruct (Z.eqb_spec tag 1) as [->|Hne]; [reflexivity|].
  destruct tag as [|[t|t|]|t]; try reflexivity. now elim Hne.
Qed.

End Bytes.

Section BytesOnKeys.
Import AutoFinalization.

(** The account of the sample ledger holds players [1...] and [2...]. *)
Lemma parse_players_layout_witness :
  parse_players (H := Concrete.web3)
    (Samples.game_account (repeat 0 8) [55] (repeat 1 32) 1 (repeat 2 32))
  = Ok (Concrete.KeyBytes (repeat 1 32), Concrete.KeyBytes (repeat 2 32)).
Proof.
  rewrite (parse_players_layout (H := Concrete.web3)
             (repeat 0 8) [55] (repeat 1 32) (repeat 2 32) 1).
  - reflexivity.
  - reflexivity.
  - simpl. lia.
  - reflexivity.
Defined.

End BytesOnKeys.

(* ===================================================================== *)
(** ** More on the auto-finalization service *)
(* ===================================================================== *)

Section ServiceEdges.
Context `{Web3} {W : Type} {HW : World W}.
Import AutoFinalization.

(** X6. Without a loaded service wallet, or for an id whose address cannot be
    derived, the service answers [false] at once: no request is made and
    nothing changes. *)
Theorem no_wallet_or_address_no_request (cfg : Config)
    (gameId winnerPublicKey loserPublicKey : jsstring) (stakeAmount : Q)
    (s : St) :
  serviceWallet cfg = None \/ (exists e, findGamePDA gameId = Throw e) ->
  autoFinalizeSolGame cfg gameId winnerPublicKey loserPublicKey stakeAmount s
  = (Ok false, s).
Proof.
  intros Hcase. unfold autoFinalizeSolGame, try_catch, finalize_body.
  destruct (serviceWallet cfg) as [serviceKey|] eqn:Hkey.
  - destruct Hcase as [Hnone | [e Hthrow]]; [discriminate|].
    unfold bind, lift. rewrite Hthrow. reflexivity.
  - reflexivity.
Qed.

(** X7. When the game account does not exist, or holds no second player or
    cannot be read, the service has fetched it once and submits nothing. *)
Theorem unusable_account_no_submission (cfg : Config)
    (gameId winnerPublicKey loserPublicKey : jsstring) (stakeAmount : Q)
    (s : St) (serviceKey gamePDA : PublicKey) (info : option (list Z))
    (w' : W) :
  serviceWallet cfg = Some serviceKey ->
  findGamePDA gameId = Ok gamePDA ->
  get_account_info gamePDA (world s) = (Ok info, w') ->
  (info = None \/
   exists data e, info = Some data /\ parse_players data = Throw e) ->
  autoFinalizeSolGame cfg gameId winnerPublicKey loserPublicKey stakeAmount s
  = (Ok false, {| world := w'; log := log s ++ [Fetched gamePDA] |}).
Proof.
  intros Hkey Hpda Hfetch Hcase.
  unfold autoFinalizeSolGame, try_catch, finalize_body.
  rewrite Hkey. unfold bind, lift, getAccountInfo, call.
  rewrite Hpda, Hfetch.
  destruct Hcase as [-> | (data & e & -> & Hparse)].
  - reflexivity.
  - rewrite Hparse. reflexivity.
Qed.

(** X8. An address the key library does not accept as the winner's stops the
    service before anything is submitted. *)
Theorem invalid_winner_no_submission (cfg : Config)
    (gameId winnerPublicKey loserPublicKey : jsstring) (stakeAmount : Q)
    (s : St) (e : string) :
  pk_of_base58 winnerPublicKey = Throw e ->
  let out := autoFinalizeSolGame cfg gameId winnerPublicKey loserPublicKey
               stakeAmount s in
  fst out = Ok false /\
  exists added,
    log (snd out) = log s ++ added /\
    Forall (fun a => match a with Submitted _ => False | _ => True end) added.
Proof.
  intros Hbad. cbv zeta.
  destruct (autoFinalize_outcome cfg gameId winnerPublicKey loserPublicKey
              stakeAmount s) as (added & r & Hlog & Hout & Hres).
  rewrite Hres.
  destruct Hout; try congruence;
    (split; [reflexivity|]); eexists; (split; [exact Hlog|]);
    repeat constructor.
Qed.

(** One answer of the world, or one branch of the code, at a time. *)
Ltac service_step :=
  match goal with
  | |- context [lookup_referrer ?c ?a ?b ?s] =>
      let found := fresh "found" in
      let w := fresh "w" in
      let E := fresh "E" in
      destruct (lookup_referrer_spec c a b s) as (found & w & E);
      rewrite E; clear E
  | |- context [get_account_info ?a ?w] =>
      destruct (get_account_info a w) as [[[?|]|?] ?] eqn:?
  | |- context [send_and_confirm ?i ?w] =>
      destruct (send_and_confirm i w) as [[?|?] ?] eqn:?
  | |- context [match ?x with _ => _ end] =>
      destruct x eqn:?
  end; cbn [fst snd log world] in *.

(** X9. The finalize transaction is submitted only after the ledger has
    accepted the set-winner transaction of the same invocation, for the
    same game and naming the winner argument. *)
Theorem finalize_follows_accepted_set_winner (cfg : Config)
    (gameId winnerPublicKey loserPublicKey : jsstring) (stakeAmount : Q)
    (s : St) :
  let out := autoFinalizeSolGame cfg gameId winnerPublicKey loserPublicKey
               stakeAmount s in
  exists added,
    log (snd out) = log s ++ added /\
    (payouts added = 1%nat ->
     exists serviceKey gamePDA winnerKey sig before after,
       serviceWallet cfg = Some serviceKey /\
       findGamePDA gameId = Ok gamePDA /\
       pk_of_base58 winnerPublicKey = Ok winnerKey /\
       send_and_confirm (IxSetWinner gameId winnerKey gamePDA serviceKey)
         before = (Ok sig, after)).
Proof.
  cbv zeta. unfold autoFinalizeSolGame. rewrite snd_reported.
  unfold finalize_body.
  cbv [bind lift ret throw try_catch getAccountInfo sendAndConfirm call].
  repeat service_step.
  all: eexists; (split;
    [ repeat (rewrite <- app_assoc; simpl);
      first [reflexivity | symmetry; apply app_nil_r] | ]).
  all: unfold finalizeInstruction; cbn; intros Hone; try discriminate Hone.
  all: repeat eexists; eauto.
Qed.

(** X10. The referrer lookup fetches the winner's profile once and never
    throws.  It reports a referrer only when the profile has the tag 1 at
    offset 44, the 32 bytes after it make a key and the profile address of
    that key can be derived; otherwise the profile account passed to the
    instruction is player one's, and when the profile is missing or its tag
    is not 1 the referrer account is the platform wallet. *)
Theorem referrer_or_platform (cfg : Config)
    (winnerProfilePDA player1ProfilePDA : PublicKey) (s : St) :
  exists referrerWallet referrerProfilePDA hasReferrer w',
    lookup_referrer cfg winnerProfilePDA player1ProfilePDA s
    = (Ok (referrerWallet, referrerProfilePDA, hasReferrer),
       {| world := w'; log := log s ++ [Fetched winnerProfilePDA] |}) /\
    (hasReferrer = true ->
     exists profileData,
       get_account_info winnerProfilePDA (world s) = (Ok (Some profileData), w') /\
       Buf.get 44 profileData = Some 1 /\
       pk_of_bytes (Buf.slice 45 77 profileData) = Ok referrerWallet /\
       findUserProfilePDA referrerWallet = Ok referrerProfilePDA) /\
    (hasReferrer = false -> referrerProfilePDA = player1ProfilePDA) /\
    ((forall profileData,
        fst (get_account_info winnerProfilePDA (world s)) = Ok (Some profileData) ->
        Buf.get 44 profileData <> Some 1) ->
     referrerWallet = PLATFORM_WALLET cfg /\ hasReferrer = false).
Proof.
  assert (Hdefault : forall w',
    exists referrerWallet referrerProfilePDA hasReferrer w'0,
      (Ok (PLATFORM_WALLET cfg, player1ProfilePDA, false),
       {| world := w'; log := log s ++ [Fetched winnerProfilePDA] |})
      = (Ok (referrerWallet, referrerProfilePDA, hasReferrer),
         {| world := w'0; log := log s ++ [Fetched winnerProfilePDA] |}) /\
      (hasReferrer = true ->
       exists profileData,
         get_account_info winnerProfilePDA (world s)
           = (Ok (Some profileData), w'0) /\
         Buf.get 44 profileData = Some 1 /\
         pk_of_bytes (Buf.slice 45 77 profileData) = Ok referrerWallet /\
         findUserProfilePDA referrerWallet = Ok referrerProfilePDA) /\
      (hasReferrer = false -> referrerProfilePDA = player1ProfilePDA) /\
      ((forall profileData,
          fst (get_account_info winnerProfilePDA (world s))
            = Ok (Some profileData) ->
          Buf.get 44 profileData <> Some 1) ->
       referrerWallet = PLATFORM_WALLET cfg /\ hasReferrer = false)).
  { intros w'. exists (PLATFORM_WALLET cfg), player1ProfilePDA, false, w'.
    split; [reflexivity|]. split; [discriminate|]. split; auto. }
  unfold lookup_referrer, try_catch, bind, getAccountInfo, call, ret.
  change (8 + 8 + 4 + 4 + 4 + 8 + 8) with 44.
  change (44 + 1 + 32) with 77. change (44 + 1) with 45.
  destruct (get_account_info winnerProfilePDA (world s))
    as [[[data|]|e] w'] eqn:Hfetch; cbn [fst]; try apply Hdefault.
  destruct (Buf.get 44 data) as [tag|] eqn:Htag; [|apply Hdefault].
  destruct tag as [|[tag|tag|]|tag]; try apply Hdefault.
  destruct (pk_of_bytes (Buf.slice 45 77 data)) as [referrerWallet|m] eqn:Hkey;
    [|apply Hdefault].
  destruct (findUserProfilePDA referrerWallet) as [profile|m] eqn:Hprofile.
  - exists referrerWallet, profile, true, w'.
    split; [reflexivity|]. split; [|split].
    + intros _. exists data. auto.
    + discriminate.
    + intros Hnot. exfalso. now apply (Hnot data).
  - exists referrerWallet, player1ProfilePDA, false, w'.
    split; [reflexivity|]. split; [|split].
    + discriminate.
    + reflexivity.
    + intros Hnot. exfalso. now apply (Hnot data).
Qed.

End ServiceEdges.

Section ServiceEdgesOnTheLedger.
Import Concrete.

(** Before the wallet is loaded the service does not touch the ledger. *)
Lemma no_wallet_or_address_no_request_witness :
  run (AutoFinalization.autoFinalizeSolGame Samples.service_not_started
         (lit "7") alice bob (3 # 100)) 0%nat
  = (Ok false, {| world := 0%nat; log := [] |}).
Proof.
  apply (no_wallet_or_address_no_request Samples.service_not_started).
  left. reflexivity.
Defined.

(** On a ledger without the game account the service fetches once. *)
Lemma unusable_account_no_submission_witness :
  AutoFinalization.autoFinalizeSolGame (HW := Samples.empty_ledger)
    service_config (lit "7") alice bob (3 # 100)
    {| world := tt; log := [] |}
  = (Ok false,
     {| world := tt;
        log := [Fetched (KeyDerived [utf8_encode (lit "game"); utf8_encode (lit "7")]
                           (KeyText (lit "GstXQkBpu26KABj6YZ3pYKJhQphoQ72YL1zL38NC6D9U")))] |}).
Proof.
  apply (unusable_account_no_submission (HW := Samples.empty_ledger)
           service_config (lit "7") alice bob (3 # 100)
           {| world := tt; log := [] |} (KeyText (lit "service")) _ None tt).
  - reflexivity.
  - reflexivity.
  - reflexivity.
  - left. reflexivity.
Defined.

(** An empty winner address is refused by the key library. *)
Lemma invalid_winner_no_submission_witness :
  fst (AutoFinalization.autoFinalizeSolGame (HW := Samples.checking_ledger)
         Samples.checking_config (lit "7") [] bob (3 # 100)
         {| world := 0%nat; log := [] |})
  = Ok false.
Proof.
  refine (proj1 (invalid_winner_no_submission (HW := Samples.checking_ledger)
                   Samples.checking_config (lit "7") [] bob (3 # 100)
                   {| world := 0%nat; log := [] |}
                   "Invalid public key input" _)).
  reflexivity.
Defined.

End ServiceEdgesOnTheLedger.

(* ===================================================================== *)
(** ** More on the hook's finalizeGame *)
(* ===================================================================== *)

Section HookCompletion.
Context `{Web3} {W : Type} {HW : World W} {HL : AnchorProgram.Libs}.
Import AnchorProgram Reporting.

Lemma completes_weaken {A} (Q : A -> Prop) (m : M (W:=W) A) :
  completes m -> completes_when Q m.
Proof.
  intros Hm s. destruct (Hm s) as (added & Hlog & Hin).
  exists added. auto.
Qed.

Lemma appends_when {A} (Q : A -> Prop) (m : M (W:=W) A) :
  appends m -> (forall s a, fst (m s) = Ok a -> ~ Q a) -> completes_when Q m.
Proof.
  intros Hm Hno s. destruct (Hm s) as (added & Hlog & _).
  exists added. split; [exact Hlog|].
  intros a Ha Hq. now elim (Hno s a Ha).
Qed.

Lemma completes_notify_complete {A} (k : unit -> M (W:=W) A) :
  (forall u, appends (k u)) -> completes (bind (notify OnComplete) k).
Proof.
  intros Hk s. unfold bind, notify, record. cbn.
  destruct (Hk tt {| world := world s; log := log s ++ [Notified OnComplete] |})
    as (added & Hlog & _).
  exists (Notified OnComplete :: added). rewrite Hlog. cbn.
  rewrite <- app_assoc. split; [reflexivity | now left].
Qed.

Lemma completes_after_notify {A} (n : Notice) (k : unit -> M (W:=W) A) :
  (forall u, completes (k u)) -> completes (bind (notify n) k).
Proof.
  intros Hk s. unfold bind, notify, record. cbn.
  destruct (Hk tt {| world := world s; log := log s ++ [Notified n] |})
    as (added & Hlog & Hin).
  exists (Notified n :: added). rewrite Hlog. cbn.
  rewrite <- app_assoc. split; [reflexivity | now right].
Qed.

Lemma completes_when_bind {A B} (Q : B -> Prop) (m : M (W:=W) A)
    (k : A -> M B) :
  appends m -> (forall a, completes_when Q (k a)) ->
  completes_when Q (bind m k).
Proof.
  intros Hm Hk s. unfold bind.
  destruct (Hm s) as (l1 & E1 & _).
  destruct (m s) as [[a|e] s1]; cbn in *.
  - destruct (Hk a s1) as (l2 & E2 & Hin).
    exists (l1 ++ l2). rewrite E2, E1, app_assoc. split; [reflexivity|].
    intros b Hb Hq. apply in_or_app. right. now apply (Hin b).
  - exists l1. split; [exact E1|]. discriminate.
Qed.

(** A block that may return from the function, followed by the rest. *)
Lemma completes_when_bind_flow {A B} (Q1 : A -> Prop) (Q : B -> Prop)
    (m : M (W:=W) A) (k : A -> M B) :
  completes_when Q1 m ->
  (forall a, (Q1 a /\ appends (k a)) \/ completes_when Q (k a)) ->
  completes_when Q (bind m k).
Proof.
  intros Hm Hk s. unfold bind.
  destruct (Hm s) as (l1 & E1 & Hin1).
  destruct (m s) as [[a|e] s1]; cbn in *.
  - destruct (Hk a) as [[Hq Happ] | Hwhen].
    + destruct (Happ s1) as (l2 & E2 & _).
      exists (l1 ++ l2). rewrite E2, E1, app_assoc. split; [reflexivity|].
      intros b _ _. apply in_or_app. left. now apply (Hin1 a).
    + destruct (Hwhen s1) as (l2 & E2 & Hin).
      exists (l1 ++ l2). rewrite E2, E1, app_assoc. split; [reflexivity|].
      intros b Hb Hqb. apply in_or_app. right. now apply (Hin b).
  - exists l1. split; [exact E1|]. discriminate.
Qed.

Lemma completes_when_try_catch {A} (Q : A -> Prop) (m : M (W:=W) A)
    (h : string -> M A) :
  completes_when Q m -> (forall e, completes_when Q (h e)) ->
  completes_when Q (try_catch m h).
Proof.
  intros Hm Hh s. unfold try_catch.
  destruct (Hm s) as (l1 & E1 & Hin1).
  destruct (m s) as [[a|e] s1]; cbn in *.
  - exists l1. split; [exact E1|]. intros b Hb Hq. injection Hb as <-.
    now apply (Hin1 a).
  - destruct (Hh e s1) as (l2 & E2 & Hin).
    exists (l1 ++ l2). rewrite E2, E1, app_assoc. split; [reflexivity|].
    intros b Hb Hq. apply in_or_app. right. now apply (Hin b).
Qed.

Lemma completes_try_catch {A} (m : M (W:=W) A) (h : string -> M A) :
  completes_when (fun _ => True) m -> (forall e, completes (h e)) ->
  completes (try_catch m h).
Proof.
  intros Hm Hh s. unfold try_catch.
  destruct (Hm s) as (l1 & E1 & Hin1).
  destruct (m s) as [[a|e] s1]; cbn in *.
  - exists l1. split; [exact E1|]. now apply (Hin1 a).
  - destruct (Hh e s1) as (l2 & E2 & Hin).
    exists (l1 ++ l2). rewrite E2, E1, app_assoc. split; [reflexivity|].
    apply in_or_app. now right.
Qed.

Lemma completes_when_throw {A} (Q : A -> Prop) (e : string) :
  completes_when Q (throw (W:=W) e).
Proof.
  intros s. exists []. cbn. rewrite app_nil_r.
  split; [reflexivity | discriminate].
Qed.

(** The piece only appends to the log. *)
Ltac only_appends :=
  unfold appends;
  unfold getAccountInfo, sendTransaction, confirmTransaction; emit.

(** Report, call [onComplete], then return or throw. *)
Ltac reported :=
  first [ apply completes_notify_complete; intros ?; only_appends
        | apply completes_after_notify; intros ?; reported ].

(** The block falls through without calling [onComplete]. *)
Ltac falls_through :=
  apply appends_when;
  [ only_appends
  | let s := fresh in let a := fresh in let Ha := fresh in
    intros s a Ha; cbn in Ha; injection Ha as <-; auto ].

Lemma on_tx_error_completes {A} (txError : string) :
  completes (on_tx_error (A:=A) txError : M (W:=W) A).
Proof.
  unfold on_tx_error. apply completes_try_catch.
  - apply completes_weaken.
    destruct (includes "account" txError || includes "constraint" txError
              || includes "seeds" txError); [reported|].
    destruct txError; reported.
  - intros e. reported.
Qed.

Lemma normal_finalization_completes (gameId : jsstring)
    (gamePDA : PublicKey) (gameAccount : GameAccount) :
  completes_when (fun _ => True)
    (normal_finalization gameId gamePDA gameAccount).
Proof.
  unfold normal_finalization.
  apply completes_when_bind; [only_appends | intros p1].
  apply completes_when_bind; [only_appends | intros p2].
  apply completes_when_bind; [only_appends | intros p2p].
  apply completes_when_bind; [only_appends | intros sig].
  apply completes_when_bind; [only_appends | intros conf].
  apply completes_weaken. destruct conf; reported.
Qed.

Lemma abandon_pathway_completes (me : PublicKey) (gameId : jsstring)
    (gamePDA : PublicKey) (gameAccount : GameAccount) :
  completes_when returns (abandon_pathway me gameId gamePDA gameAccount).
Proof.
  unfold abandon_pathway.
  apply completes_when_try_catch; [|intros e; falls_through].
  apply completes_when_bind; [only_appends | intros sig].
  apply completes_when_bind; [only_appends | intros c1].
  apply completes_when_bind; [only_appends | intros p1].
  apply completes_when_bind; [only_appends | intros p2].
  apply completes_when_bind; [only_appends | intros sig2].
  apply completes_when_bind; [only_appends | intros c2].
  apply completes_weaken. reported.
Qed.

Lemma complete_on_chain_completes (me : PublicKey) (gameId : jsstring)
    (gamePDA : PublicKey) (gameAccount : GameAccount) :
  completes_when returns (complete_on_chain me gameId gamePDA gameAccount).
Proof.
  unfold complete_on_chain.
  apply completes_when_try_catch; [|intros e; falls_through].
  cbv zeta.
  apply completes_when_bind; [only_appends | intros nonce].
  apply completes_when_bind; [only_appends | intros sig].
  apply completes_when_bind; [only_appends | intros c1].
  apply completes_when_bind; [only_appends | intros sig2].
  apply completes_when_bind; [only_appends | intros c2].
  apply completes_when_try_catch;
    [|intros e; apply abandon_pathway_completes].
  apply completes_when_bind; [only_appends | intros info].
  destruct info as [data|]; [|falls_through].
  apply completes_when_bind; [only_appends | intros upd].
  destruct (finished upd && is_some (winner upd));
    [falls_through | apply completes_when_throw].
Qed.

(** X11. However finalizeGame ends - returning true or false, or throwing -
    it has called [onComplete], so the caller's loading state is always
    cleared. *)
Theorem finalizeGame_always_completes (wallet : Wallet) (gameId : jsstring) :
  completes (finalizeGame wallet gameId).
Proof.
  unfold finalizeGame.
  destruct gameId as [|c gameId]; [reported|].
  destruct (publicKey wallet) as [me|]; [|reported].
  destruct (connected wallet && hasSendTransaction wallet); [|reported].
  apply completes_try_catch; [|intros e; reported].
  apply completes_when_bind; [only_appends | intros gamePDA].
  apply completes_when_try_catch;
    [|intros e; apply completes_weaken, on_tx_error_completes].
  apply completes_when_bind; [only_appends | intros info].
  destruct info as [data|]; [|apply completes_weaken; reported].
  destruct (decode_game data) as [gameAccount|m];
    [|apply completes_weaken; reported].
  destruct (finished gameAccount); [apply completes_weaken; reported|].
  cbv zeta.
  apply completes_when_bind_flow with (Q1 := returns).
  - destruct (negb false && negb (is_some (winner gameAccount)));
      [apply complete_on_chain_completes | falls_through].
  - intros [b|].
    + left. split; [exact I | only_appends].
    + right. apply normal_finalization_completes.
Qed.

(** Without a game id, a connected wallet or its sendTransaction the hook
    reports the error, calls [onComplete] and answers [false]; it makes no
    request. *)
Theorem finalizeGame_not_connected (wallet : Wallet) (gameId : jsstring)
    (s : St) :
  gameId = [] \/ publicKey wallet = None \/ connected wallet = false
  \/ hasSendTransaction wallet = false ->
  finalizeGame wallet gameId s
  = (Ok false,
     {| world := world s;
        log := log s ++
               [Notified (OnError "Cannot finalize game: wallet not connected");
                Notified OnComplete] |}).
Proof.
  intros Hcase.
  assert (Hout :
    bind (notify (OnError "Cannot finalize game: wallet not connected"))
      (fun _ => bind (notify OnComplete) (fun _ => ret false)) s
    = (Ok false,
       {| world := world s;
          log := log s ++
                 [Notified (OnError "Cannot finalize game: wallet not connected");
                  Notified OnComplete] |})).
  { cbn. now rewrite <- app_assoc. }
  unfold finalizeGame.
  destruct gameId as [|c gameId]; [exact Hout|].
  destruct (publicKey wallet) as [me|]; [|exact Hout].
  destruct (connected wallet) eqn:Hc, (hasSendTransaction wallet) eqn:Hs;
    try exact Hout.
  destruct Hcase as [Hid | [Hkey | [Hconn | Hsend]]]; discriminate.
Qed.

(** X12. A game the ledger already shows as finished is left alone: the hook
    fetches the account once, submits nothing, and answers [true]. *)
Theorem finalizeGame_already_finalized (wallet : Wallet) (gameId : jsstring)
    (s : St) (me gamePDA : PublicKey) (data : list Z)
    (gameAccount : GameAccount) (w' : W) :
  gameId <> [] ->
  publicKey wallet = Some me ->
  connected wallet = true ->
  hasSendTransaction wallet = true ->
  findGamePDA gameId = Ok gamePDA ->
  get_account_info gamePDA (world s) = (Ok (Some data), w') ->
  decode_game data = Ok gameAccount ->
  finished gameAccount = true ->
  finalizeGame wallet gameId s
  = (Ok true,
     {| world := w';
        log := log s ++
               [Fetched gamePDA;
                Notified (OnSuccess "Game is already finalized on-chain");
                Notified OnComplete] |}).
Proof.
  intros Hid Hkey Hconn Hsend Hpda Hfetch Hdecode Hfinished.
  unfold finalizeGame.
  destruct gameId as [|c gameId]; [now elim Hid|].
  rewrite Hkey, Hconn, Hsend. cbn [andb].
  unfold try_catch, bind, lift, getAccountInfo, call.
  rewrite Hpda, Hfetch, Hdecode, Hfinished. cbn.
  now rewrite <- !app_assoc.
Qed.

Lemma emits_bind_lift {A B} (P : Action -> Prop) (r : result A)
    (k : A -> M (W:=W) B) :
  (forall a, r = Ok a -> emits P (k a)) -> emits P (bind (lift r) k).
Proof.
  intros Hk s. unfold bind, lift.
  destruct r as [a|e]; [now apply Hk|].
  exists []. cbn. now rewrite app_nil_r.
Qed.

Lemma emits_bind_ret {A B} (P : Action -> Prop) (a : A)
    (k : A -> M (W:=W) B) :
  emits P (k a) -> emits P (bind (ret a) k).
Proof. intros Hk s. exact (Hk s). Qed.

Lemma emits_bind_throw {A B} (P : Action -> Prop) (e : string)
    (k : A -> M (W:=W) B) :
  emits P (bind (throw e) k).
Proof. intros s. exists []. cbn. now rewrite app_nil_r. Qed.

(** As [emit], keeping what was learnt on the way. *)
Ltac emit_tracking :=
  repeat first
    [ apply emits_ret
    | apply emits_throw
    | apply emits_bind_throw
    | apply emits_bind_ret
    | apply emits_bind_lift; intros ? ?
    | apply emits_random
    | apply emits_notify; exact I
    | apply emits_call; simpl; now eauto 12
    | match goal with
      | |- emits _ (bind (match ?x with _ => _ end) _) => destruct x eqn:?
      end
    | apply emits_bind; [|intros ?]
    | apply emits_try_catch; [|intros ?]
    | match goal with
      | |- emits _ (match ?x with _ => _ end) => destruct x eqn:?
      end ].

(** X13. The money of a finalize or refund instruction goes to the players the
    ledger holds for the game, at the address derived from the game id
    passed in, never to accounts chosen by the caller. *)
Theorem finalizeGame_pays_players_on_ledger (wallet : Wallet)
    (gameId : jsstring) :
  emits (pays_players_on_ledger gameId) (finalizeGame wallet gameId).
Proof.
  unfold finalizeGame.
  destruct gameId as [|c gameId]; [emit|].
  destruct (publicKey wallet) as [me|] eqn:Hme; [|emit].
  destruct (connected wallet && hasSendTransaction wallet); [|emit].
  unfold on_tx_error, normal_finalization, complete_on_chain, abandon_pathway.
  unfold getAccountInfo, sendTransaction, confirmTransaction.
  emit_tracking.
Qed.

End HookCompletion.

Section HookOnTheLedger.
Import Concrete.

(** With no wallet connected nothing is asked of the ledger. *)
Lemma finalizeGame_not_connected_witness :
  fst (run (AnchorProgram.finalizeGame
              {| AnchorProgram.publicKey := None;
                 AnchorProgram.connected := false;
                 AnchorProgram.hasSendTransaction := false |}
              (lit "7")) 0%nat) = Ok false.
Proof.
  unfold run.
  rewrite (finalizeGame_not_connected
             {| AnchorProgram.publicKey := None;
                AnchorProgram.connected := false;
                AnchorProgram.hasSendTransaction := false |} (lit "7")).
  - reflexivity.
  - right. left. reflexivity.
Defined.

(** Bob asks for a finalization that has already happened. *)
Lemma finalizeGame_already_finalized_witness :
  fst (AnchorProgram.finalizeGame (HL := Samples.finished_libs) bobs_wallet
         (lit "7") {| world := 0%nat; log := [] |}) = Ok true.
Proof.
  rewrite (finalizeGame_already_finalized (HL := Samples.finished_libs)
             bobs_wallet (lit "7") {| world := 0%nat; log := [] |}
             (KeyText bob)
             (KeyDerived [utf8_encode (lit "game"); utf8_encode (lit "7")]
                (KeyText (lit "GstXQkBpu26KABj6YZ3pYKJhQphoQ72YL1zL38NC6D9U")))
             game_account_data Samples.session_finished 0%nat).
  - reflexivity.
  - discriminate.
  - reflexivity.
  - reflexivity.
  - reflexivity.
  - reflexivity.
  - reflexivity.
  - reflexivity.
  - reflexivity.
Defined.

End HookOnTheLedger.

(* ===================================================================== *)
(** ** More on the handlers of use-game.ts *)
(* ===================================================================== *)

Section BetweenRounds.
Import UseGame.
Local Open Scope string_scope.

Lemma round_completed_status (publicKey : option jsstring)
    (data : EventData) (prev after : GameState) (callbacks : list Callback) :
  handleRoundCompleted publicKey data prev = Ok (after, callbacks) ->
  gameStatus after = round_result.
Proof.
  unfold handleRoundCompleted.
  destruct (opt_field scores (ev_roundResult data)); [|discriminate].
  destruct (ev_gameState data); [|discriminate].
  intros Hrun. injection Hrun as <- _. reflexivity.
Qed.

(** X14. While the result of a round is shown the status is not [playing], so
    an opponent who leaves then forfeits nothing: [player_left] sends the
    remaining player back to the lobby without a winner, whatever the
    score, and [player_disconnected] changes nothing. *)
Theorem opponent_gone_between_rounds (publicKey : option jsstring)
    (round gone : EventData) (prev after : GameState)
    (callbacks : list Callback) :
  handleRoundCompleted publicKey round prev = Ok (after, callbacks) ->
  handlePlayerLeft publicKey after gone after
    = (initial_state, [SetIsInGame false])
  /\ handlePlayerDisconnected publicKey after gone after = (after, []).
Proof.
  intros Hround.
  pose proof (round_completed_status _ _ _ _ _ Hround) as Hstatus.
  unfold handlePlayerLeft, handlePlayerDisconnected.
  rewrite Hstatus. simpl. rewrite andb_false_r. split; reflexivity.
Qed.

(** Bob leaves while alice looks at the round she has just won. *)
Lemma opponent_gone_between_rounds_witness :
  exists after callbacks,
    handleRoundCompleted Scenario.alice_key Scenario.round_done
      Scenario.both_moved = Ok (after, callbacks) /\
    wins (player1 after) = 1 /\
    winner (fst (handlePlayerLeft Scenario.alice_key after Scenario.bob_gone
                   after)) = None.
Proof.
  eexists. eexists. split; [reflexivity|]. split; [reflexivity|].
  rewrite (proj1 (opponent_gone_between_rounds Scenario.alice_key
                    Scenario.round_done Scenario.bob_gone
                    Scenario.both_moved _ _ eq_refl)).
  reflexivity.
Defined.

(** X15. A forfeit is shown until the next [player_left]: the handler that
    declared the local player the winner, run once more on the state it
    produced, wipes winner and message and returns to the lobby; a
    repeated [player_disconnected] leaves the forfeit in place. *)
Theorem second_player_left_clears_forfeit (publicKey : option jsstring)
    (first second : EventData) (prev : GameState) :
  gameStatus prev = playing ->
  let won := fst (handlePlayerLeft publicKey prev first prev) in
  gameStatus won = game_over
  /\ handlePlayerLeft publicKey won second won
     = (initial_state, [SetIsInGame false])
  /\ handlePlayerDisconnected publicKey won second won = (won, []).
Proof.
  intros Hplaying won. unfold won, handlePlayerLeft, handlePlayerDisconnected.
  rewrite Hplaying. simpl. rewrite andb_false_r.
  split; [|split]; reflexivity.
Qed.

Lemma second_player_left_clears_forfeit_witness :
  winner (fst (handlePlayerLeft Scenario.alice_key Scenario.sol_playing
                 Scenario.bob_gone Scenario.sol_playing))
    = Some (lit "AliceWal")
  /\ winner (fst (handlePlayerLeft Scenario.alice_key
                    (fst (handlePlayerLeft Scenario.alice_key
                            Scenario.sol_playing Scenario.bob_gone
                            Scenario.sol_playing))
                    Scenario.bob_gone
                    (fst (handlePlayerLeft Scenario.alice_key
                            Scenario.sol_playing Scenario.bob_gone
                            Scenario.sol_playing)))) = None.
Proof.
  split; [reflexivity|].
  rewrite (proj1 (proj2 (second_player_left_clears_forfeit Scenario.alice_key
                           Scenario.bob_gone Scenario.bob_gone
                           Scenario.sol_playing eq_refl))).
  reflexivity.
Defined.

(** X16. The joiner of a private SOL game is kept waiting by the join events:
    after [game_joined] for such a game, in which the local player is
    player two, any number of [player_joined] events that still show that
    player as player two leave the status [waiting], whatever status the
    server reports in them. *)
Theorem joiner_of_private_sol_game_waits (publicKey : option jsstring)
    (joined : EventData) (later : list EventData) :
  let mine (data : EventData) :=
    strict_eq (id_of (gd_player2 (gameStateData data))) (myPlayerId publicKey) in
  mine joined = true ->
  is_lit "sol" (gd_currency (gameStateData joined)) = true ->
  is_lit "private" (gd_gameType (gameStateData joined)) = true ->
  Forall (fun data => mine data = true) later ->
  gameStatus
    (fold_left (fun s data => fst (handlePlayerJoined publicKey data s))
       later (fst (handleGameJoined publicKey joined)))
  = waiting.
Proof.
  intros mine Hmine Hsol Hprivate Hlater.
  set (start := fst (handleGameJoined publicKey joined)).
  assert (Hstart : gameStatus start = waiting
                   /\ jsstring_eqb (currency start) (lit "sol") = true
                   /\ is_lit "private" (gameType start) = true).
  { unfold start, handleGameJoined. cbn [fst gameStatus currency gameType].
    unfold mine in Hmine. rewrite Hmine, Hsol, Hprivate.
    split; [reflexivity|]. split; [|reflexivity].
    unfold is_lit, opt_str_eqb in Hsol.
    destruct (gd_currency (gameStateData joined)) as [[|c cur]|];
      try discriminate Hsol.
    exact Hsol. }
  clearbody start. revert start Hstart.
  induction Hlater as [|data later Hdata _ IH]; intros start Hstart.
  - exact (proj1 Hstart).
  - simpl. apply IH. destruct Hstart as (_ & Hcur & Htype).
    unfold handlePlayerJoined.
    cbn [fst gameStatus currency gameType]. unfold mine in Hdata.
    rewrite Hdata, Hcur, Htype. auto.
Qed.

End BetweenRounds.

Section JoinerOnTheSession.
Import UseGame.

(** Bob joins and is told twice more that he has; each event reports the
    game as being played. *)
Lemma joiner_of_private_sol_game_waits_witness :
  gd_gameStatus (gameStateData Samples.bob_joins) = Some (lit "playing")
  /\ gameStatus
       (fold_left
          (fun s data => fst (handlePlayerJoined Samples.bob_key data s))
          [Samples.bob_joins; Samples.bob_joins]
          (fst (handleGameJoined Samples.bob_key Samples.bob_joins)))
     = waiting.
Proof.
  split; [reflexivity|].
  apply (joiner_of_private_sol_game_waits Samples.bob_key Samples.bob_joins
           [Samples.bob_joins; Samples.bob_joins]).
  - reflexivity.
  - reflexivity.
  - reflexivity.
  - repeat constructor.
Defined.

End JoinerOnTheSession.

(* ===================================================================== *)
(** ** The ids the hook creates, and its actions *)
(* ===================================================================== *)

Section CreatedIds.
Context `{Web3}.
Import UseGameActions.

Lemma decimal_value_app (ds : jsstring) (d : Z) :
  decimal_value (ds ++ [d]) = 10 * decimal_value ds + (d - 48).
Proof. unfold decimal_value. now rewrite fold_left_app. Qed.

(** The digits of a number below [10^k], given fuel for [k] digits. *)
Lemma digits_spec (fuel : nat) :
  forall (k : nat) (n : Z) (acc : jsstring),
    (k <= fuel)%nat -> 0 <= n < 10 ^ Z.of_nat k ->
    exists ds : jsstring,
      digits fuel n acc = ds ++ acc /\ Forall is_digit ds /\
      (List.length ds <= Nat.max 1 k)%nat /\ decimal_value ds = n.
Proof.
  induction fuel as [|fuel IH]; intros k n acc Hk Hn.
  - assert (k = 0%nat) by lia. subst k. change (10 ^ Z.of_nat 0) with 1 in Hn.
    exists []. simpl.
    split; [reflexivity | split; [constructor | split; [lia|]]].
    unfold decimal_value. simpl. lia.
  - cbn [digits]. pose proof (Z.mod_pos_bound n 10 ltac:(lia)) as Hmod.
    pose proof (Z.div_mod n 10 ltac:(lia)) as Hdiv.
    destruct (n / 10 =? 0) eqn:Hq.
    + apply Z.eqb_eq in Hq. exists [48 + n mod 10].
      split; [reflexivity | split; [|split]].
      * constructor; [unfold is_digit; lia | constructor].
      * simpl List.length. lia.
      * unfold decimal_value. cbn [fold_left]. lia.
    + apply Z.eqb_neq in Hq.
      assert (Hpos : 0 < n / 10) by (pose proof (Z.div_pos n 10); lia).
      destruct k as [|k].
      { change (10 ^ Z.of_nat 0) with 1 in Hn. lia. }
      assert (Hsmall : 0 <= n / 10 < 10 ^ Z.of_nat k).
      { split; [lia|]. apply Z.div_lt_upper_bound; [lia|].
        rewrite Nat2Z.inj_succ, Z.pow_succ_r in Hn by lia. lia. }
      destruct (IH k (n / 10) ((48 + n mod 10) :: acc) ltac:(lia) Hsmall)
        as (ds & Hds & Hall & Hlen & Hval).
      exists (ds ++ [48 + n mod 10]). rewrite Hds, <- app_assoc.
      split; [reflexivity | split; [|split]].
      * apply Forall_app. split; [exact Hall|].
        constructor; [unfold is_digit; lia | constructor].
      * rewrite length_app. simpl List.length.
        destruct k as [|k]; [|lia].
        change (10 ^ Z.of_nat 0) with 1 in Hsmall. lia.
      * rewrite decimal_value_app, Hval. lia.
Qed.

Lemma digits_no_dashes (ds : jsstring) :
  Forall is_digit ds -> remove_dashes ds = ds.
Proof.
  unfold remove_dashes. induction 1 as [|d ds Hd _ IH]; [reflexivity|].
  simpl. replace (d =? 45) with false
    by (symmetry; apply Z.eqb_neq; unfold is_digit in Hd; lia).
  simpl. now rewrite IH.
Qed.

Lemma digits_ascii (ds : jsstring) : Forall is_digit ds -> ascii_only ds.
Proof.
  unfold ascii_only. apply Forall_impl. unfold is_digit. intros; lia.
Qed.

Lemma newGameId_spec (random : Z) :
  0 <= random < 1000000 ->
  Forall is_digit (newGameId random) /\
  (List.length (newGameId random) <= 6)%nat /\
  decimal_value (newGameId random) = random.
Proof.
  intros Hrandom.
  destruct (digits_spec 21 6 random [] ltac:(lia) ltac:(simpl; lia))
    as (ds & Hds & Hall & Hlen & Hval).
  unfold newGameId, decimal. rewrite Hds, app_nil_r.
  repeat split; [exact Hall | simpl in Hlen; lia | exact Hval].
Qed.

(** X17. The id createGame makes up is its own seed: at most six digits, so
    nothing is cut and nothing removed, in the hook, in the contract hook
    and in the service, and the three derive the same address from it;
    two different random numbers give two different seeds. *)
Theorem created_id_is_its_own_seed (random : Z) :
  0 <= random < 1000000 ->
  let gameId := newGameId random in
  AnchorProgram.game_seed gameId = gameId
  /\ AutoFinalization.game_seed gameId = gameId
  /\ (List.length gameId <= 6)%nat
  /\ getGamePDA gameId = AnchorProgram.findGamePDA gameId
  /\ getGamePDA gameId = AutoFinalization.findGamePDA gameId
  /\ forall other : Z,
       0 <= other < 1000000 ->
       AnchorProgram.game_seed (newGameId other) = AnchorProgram.game_seed gameId ->
       other = random.
Proof.
  intros Hrandom gameId. subst gameId.
  assert (Hseed : forall n, 0 <= n < 1000000 ->
            utf8_encode (substring0 32 (remove_dashes (newGameId n)))
            = newGameId n).
  { intros n Hn. destruct (newGameId_spec n Hn) as (Hall & Hlen & _).
    unfold substring0. rewrite (digits_no_dashes _ Hall).
    rewrite firstn_all2 by lia.
    apply utf8_encode_ascii, digits_ascii, Hall. }
  destruct (newGameId_spec random Hrandom) as (Hall & Hlen & Hval).
  split; [exact (Hseed random Hrandom)|].
  split; [exact (Hseed random Hrandom)|].
  split; [exact Hlen|].
  split; [reflexivity|]. split; [reflexivity|].
  intros other Hother Hsame.
  unfold AnchorProgram.game_seed in Hsame.
  rewrite (Hseed other Hother), (Hseed random Hrandom) in Hsame.
  destruct (newGameId_spec other Hother) as (_ & _ & Hval').
  rewrite <- Hval', <- Hval. now rewrite Hsame.
Qed.

End CreatedIds.

Section CreatedIdsOnKeys.
Import UseGameActions.

(** The id made from 42 is "42", and so is its seed. *)
Lemma created_id_is_its_own_seed_witness :
  AnchorProgram.game_seed (newGameId 42) = lit "42".
Proof.
  rewrite (proj1 (created_id_is_its_own_seed (H := Concrete.web3) 42
                    ltac:(lia))).
  reflexivity.
Defined.

End CreatedIdsOnKeys.

Section Actions.
Import UseGame UseGameActions.

(** X18. Leaving with the socket down: past its guard leaveGame resets the
    session and leaves the game view although nothing reaches socket.io,
    so the server is not told; short of a wallet or of a game id it does
    nothing at all, and the session stays as it is. *)
Theorem leaveGame_resets_without_telling (publicKey : option jsstring)
    (ref before : GameState) :
  passed_on false (leaveGame publicKey ref) = []
  /\ (present publicKey = true -> truthy_str (gameId ref) = true ->
      session_after (leaveGame publicKey ref) before = initial_state
      /\ In (SetInGame false) (leaveGame publicKey ref)
      /\ exists id playerId,
           passed_on true (leaveGame publicKey ref) = [LeaveGame id playerId]
           /\ gameId ref = Some id
           /\ Str playerId = myPlayerId publicKey)
  /\ (present publicKey = false \/ truthy_str (gameId ref) = false ->
      leaveGame publicKey ref = []
      /\ session_after (leaveGame publicKey ref) before = before).
Proof.
  unfold leaveGame.
  destruct publicKey as [key|]; [destruct (gameId ref) as [[|c rest]|]|];
    cbn [passed_on flat_map emit app present truthy_str].
  - split; [reflexivity|]. split; [intros _ Hid; discriminate Hid|].
    intros _. split; reflexivity.
  - split; [reflexivity|]. split.
    + intros _ _. split; [reflexivity|]. split; [simpl; auto|].
      exists (c :: rest), (slice0 8 key). repeat split.
    + intros [Hno|Hno]; discriminate Hno.
  - split; [reflexivity|]. split; [intros _ Hid; discriminate Hid|].
    intros _. split; reflexivity.
  - split; [reflexivity|]. split; [intros Hkey; discriminate Hkey|].
    intros _. split; reflexivity.
Qed.

(** Alice leaves the session she is playing in. *)
Lemma leaveGame_resets_without_telling_witness :
  session_after (leaveGame Scenario.alice_key Scenario.sol_playing)
    Scenario.sol_playing = initial_state
  /\ passed_on false (leaveGame Scenario.alice_key Scenario.sol_playing) = [].
Proof.
  split.
  - refine (proj1 (proj1 (proj2 (leaveGame_resets_without_telling
                                   Scenario.alice_key Scenario.sol_playing
                                   Scenario.sol_playing)) _ _));
      reflexivity.
  - reflexivity.
Defined.

End Actions.

(* ===================================================================== *)
(** ** The blockhash cache *)
(* ===================================================================== *)

Section CachedBlockhash.
Import BlockhashCache.







End CachedBlockhash.

(* ===================================================================== *)
(** ** Starting the service *)
(* ===================================================================== *)

Section ServiceStarts.
Context `{Web3} {W : Type} {HW : World W}.
Import AutoFinalization ServiceStart.

(** X21. A service whose initializeService returned false, because the wallet
    could not be loaded, holds no wallet afterwards; every later call of
    autoFinalizeSolGame then answers false without asking the ledger for
    anything.  The server that starts the service does not look at the
    value returned. *)
Theorem service_not_started_settles_nothing
    (getServiceWallet : result (option PublicKey)) (getBalance : result Z)
    (platform : PublicKey)
    (gameId winnerPublicKey loserPublicKey : jsstring) (stakeAmount : Q)
    (s : St) :
  fst (initializeService getServiceWallet getBalance None) = false ->
  serviceWallet (started getServiceWallet getBalance platform) = None
  /\ autoFinalizeSolGame (started getServiceWallet getBalance platform)
       gameId winnerPublicKey loserPublicKey stakeAmount s
     = (Ok false, s).
Proof.
  intros Hfailed.
  assert (Hnone : serviceWallet (started getServiceWallet getBalance platform)
                  = None).
  { unfold started, initializeService in *. cbn [serviceWallet].
    destruct getServiceWallet as [[wallet|]|e]; try reflexivity.
    destruct getBalance; discriminate Hfailed. }
  split; [exact Hnone|].
  unfold autoFinalizeSolGame, finalize_body, try_catch.
  rewrite Hnone. reflexivity.
Qed.

(** initializeService returns true exactly when a wallet was loaded; the
    balance of the wallet, and whether the node could tell it, make no
    difference. *)
Theorem service_started_iff_wallet_loaded
    (getServiceWallet : result (option PublicKey)) (getBalance : result Z)
    (before : option PublicKey) :
  (fst (initializeService getServiceWallet getBalance before) = true <->
   exists wallet, getServiceWallet = Ok (Some wallet))
  /\ (forall wallet, getServiceWallet = Ok (Some wallet) ->
      snd (initializeService getServiceWallet getBalance before) = Some wallet)
  /\ (forall e, getServiceWallet = Throw e ->
      snd (initializeService getServiceWallet getBalance before) = before).
Proof.
  unfold initializeService.
  destruct getServiceWallet as [[wallet|]|e]; [destruct getBalance| |];
    cbn [fst snd]; (split; [split|split]);
    try (intros _; eexists; reflexivity);
    try (intros [w Hw]; discriminate Hw);
    try discriminate;
    try (intros ? Heq; injection Heq as <-; reflexivity);
    try (intros ? Heq; discriminate Heq);
    try reflexivity;
    try (intros; reflexivity).
Qed.

End ServiceStarts.

Section ServiceStartsOnTheLedger.
Import Concrete.

(** The wallet file cannot be read: the service finalizes nothing. *)
Lemma service_not_started_settles_nothing_witness :
  run (AutoFinalization.autoFinalizeSolGame
         (ServiceStart.started (Throw "ENOENT") (Ok 0) (KeyText (lit "platform")))
         (lit "7") alice bob (3 # 100)) 0%nat
  = (Ok false, {| world := 0%nat; log := [] |}).
Proof.
  unfold run.
  refine (proj2 (service_not_started_settles_nothing
                   (Throw "ENOENT") (Ok 0) (KeyText (lit "platform"))
                   (lit "7") alice bob (3 # 100)
                   {| world := 0%nat; log := [] |} _)).
  reflexivity.
Defined.

End ServiceStartsOnTheLedger.

(* ===================================================================== *)
(** ** Staking *)
(* ===================================================================== *)

Section StakingLogic.
Context `{Web3} {N : Type} {HN : Staking.Node N}.
Import Staking.

(** *** What is appended to the log *)

Lemma staking_emits_ret {A} (P : Act -> Prop) (a : A) :
  emits P (ret (N:=N) a).
Proof. intros s. exists []. cbn. now rewrite app_nil_r. Qed.

Lemma staking_emits_throw {A} (P : Act -> Prop) (e : string) :
  emits P (throw (N:=N) (A:=A) e).
Proof. intros s. exists []. cbn. now rewrite app_nil_r. Qed.

Lemma staking_emits_lift {A} (P : Act -> Prop) (r : result A) :
  emits P (lift (N:=N) r).
Proof. intros s. exists []. cbn. now rewrite app_nil_r. Qed.

Lemma staking_emits_record (P : Act -> Prop) (a : Act) :
  P a -> emits P (record (N:=N) a).
Proof. intros Ha s. exists [a]. cbn. split; [reflexivity | now constructor]. Qed.

Lemma staking_emits_ask {A} (P : Act -> Prop) (a : result A -> Act)
    (f : N -> result A * N) :
  (forall r, P (a r)) -> emits P (ask a f).
Proof.
  intros Ha s. unfold ask. destruct (f (node s)) as [r n'].
  exists [a r]. cbn. split; [reflexivity | now constructor].
Qed.

Lemma staking_emits_read {A} (P : Act -> Prop) (f : N -> A * N) :
  emits P (read f).
Proof.
  intros s. unfold read. destruct (f (node s)) as [a n'].
  exists []. cbn. now rewrite app_nil_r.
Qed.

Lemma staking_emits_readCache (P : Act -> Prop) : emits P (readCache (N:=N)).
Proof. intros s. exists []. cbn. now rewrite app_nil_r. Qed.

Lemma staking_emits_writeCache (P : Act -> Prop) (c : option BlockhashCache.Entry) :
  emits P (writeCache (N:=N) c).
Proof. intros s. exists []. cbn. now rewrite app_nil_r. Qed.

Lemma staking_emits_setGameState (P : Act -> Prop)
    (f : UseGame.GameState -> UseGame.GameState) :
  emits P (setGameState (N:=N) f).
Proof. intros s. exists []. cbn. now rewrite app_nil_r. Qed.

Lemma staking_emits_bind {A B} (P : Act -> Prop) (m : M (N:=N) A)
    (k : A -> M (N:=N) B) :
  emits P m -> (forall a, emits P (k a)) -> emits P (bind m k).
Proof.
  intros Hm Hk s. unfold bind.
  destruct (Hm s) as (l1 & E1 & F1).
  destruct (m s) as [[a|e] s1]; cbn in *.
  - destruct (Hk a s1) as (l2 & E2 & F2).
    exists (l1 ++ l2). rewrite E2, E1, app_assoc.
    split; [reflexivity | now apply Forall_app].
  - exists l1. auto.
Qed.

Lemma staking_emits_try_catch {A} (P : Act -> Prop) (m : M (N:=N) A)
    (h : string -> M (N:=N) A) :
  emits P m -> (forall e, emits P (h e)) -> emits P (try_catch m h).
Proof.
  intros Hm Hh s. unfold try_catch.
  destruct (Hm s) as (l1 & E1 & F1).
  destruct (m s) as [[a|e] s1]; cbn in *.
  - exists l1. auto.
  - destruct (Hh e s1) as (l2 & E2 & F2).
    exists (l1 ++ l2). rewrite E2, E1, app_assoc.
    split; [reflexivity | now apply Forall_app].
Qed.

Lemma staking_emits_weaken {A} (P Q : Act -> Prop) (m : M (N:=N) A) :
  (forall a, P a -> Q a) -> emits P m -> emits Q m.
Proof.
  intros HPQ Hm s. destruct (Hm s) as (l & E & F).
  exists l. split; [exact E|]. revert F. apply Forall_impl, HPQ.
Qed.

(** *** Not throwing *)

Lemma safe_ret {A} (a : A) : safe (ret (N:=N) a).
Proof. intros s. now exists a. Qed.

Lemma safe_record (a : Act) : safe (record (N:=N) a).
Proof. intros s. now exists tt. Qed.

Lemma safe_read {A} (f : N -> A * N) : safe (read f).
Proof. intros s. unfold read. destruct (f (node s)) as [a n']. now exists a. Qed.

Lemma safe_setGameState (f : UseGame.GameState -> UseGame.GameState) :
  safe (setGameState (N:=N) f).
Proof. intros s. now exists tt. Qed.

Lemma safe_bind {A B} (m : M (N:=N) A) (k : A -> M (N:=N) B) :
  safe m -> (forall a, safe (k a)) -> safe (bind m k).
Proof.
  intros Hm Hk s. unfold bind. destruct (Hm s) as (a & Ha).
  destruct (m s) as [[a'|e] s1]; cbn in Ha; [|discriminate Ha].
  apply Hk.
Qed.

Lemma safe_try_catch {A} (m : M (N:=N) A) (h : string -> M (N:=N) A) :
  (forall e, safe (h e)) -> safe (try_catch m h).
Proof.
  intros Hh s. unfold try_catch.
  destruct (m s) as [[a|e] s1]; [now exists a | apply Hh].
Qed.

(** *** Counting the transactions sent *)

Lemma sent_app (l1 l2 : list Act) : sent (l1 ++ l2) = (sent l1 + sent l2)%nat.
Proof. unfold sent. now rewrite filter_app, length_app. Qed.

Lemma sends_nothing {A} (m : M (N:=N) A) :
  emits (fun a => is_sent a = false) m -> sends_at_most 0 m.
Proof.
  intros Hm s. destruct (Hm s) as (l & E & F). exists l. split; [exact E|].
  clear E. unfold sent. induction F as [|a l Ha _ IH]; [cbn; lia|].
  cbn. rewrite Ha. exact IH.
Qed.

Lemma sends_weaken {A} (n n' : nat) (m : M (N:=N) A) :
  (n <= n')%nat -> sends_at_most n m -> sends_at_most n' m.
Proof.
  intros Hn Hm s. destruct (Hm s) as (l & E & Hl). exists l. split; [exact E | lia].
Qed.

Lemma sends_ask {A} (a : result A -> Act) (f : N -> result A * N) :
  sends_at_most 1 (ask a f).
Proof.
  intros s. unfold ask. destruct (f (node s)) as [r n'].
  exists [a r]. cbn. split; [reflexivity|].
  unfold sent. cbn. destruct (is_sent (a r)); cbn; lia.
Qed.

Lemma sends_bind {A B} (n1 n2 : nat) (m : M (N:=N) A) (k : A -> M (N:=N) B) :
  sends_at_most n1 m -> (forall a, sends_at_most n2 (k a)) ->
  sends_at_most (n1 + n2) (bind m k).
Proof.
  intros Hm Hk s. unfold bind.
  destruct (Hm s) as (l1 & E1 & F1).
  destruct (m s) as [[a|e] s1]; cbn in *.
  - destruct (Hk a s1) as (l2 & E2 & F2).
    exists (l1 ++ l2). rewrite E2, E1, app_assoc, sent_app.
    split; [reflexivity | lia].
  - exists l1. split; [exact E1 | lia].
Qed.

Lemma sends_try_catch {A} (n1 n2 : nat) (m : M (N:=N) A)
    (h : string -> M (N:=N) A) :
  sends_at_most n1 m -> (forall e, sends_at_most n2 (h e)) ->
  sends_at_most (n1 + n2) (try_catch m h).
Proof.
  intros Hm Hh s. unfold try_catch.
  destruct (Hm s) as (l1 & E1 & F1).
  destruct (m s) as [[a|e] s1]; cbn in *.
  - exists l1. split; [exact E1 | lia].
  - destruct (Hh e s1) as (l2 & E2 & F2).
    exists (l1 ++ l2). rewrite E2, E1, app_assoc, sent_app.
    split; [reflexivity | lia].
Qed.

(** *** Reading a result back *)

Lemma bind_returns {A B} (m : M (N:=N) A) (k : A -> M (N:=N) B)
    (s s' : St) (b : B) :
  bind m k s = (Ok b, s') ->
  exists a s1, m s = (Ok a, s1) /\ k a s1 = (Ok b, s').
Proof.
  unfold bind. destruct (m s) as [[a|e] s1]; [|discriminate].
  intros Hk. now exists a, s1.
Qed.

Lemma lift_returns {A} (r : result A) (s s' : St (N:=N)) (a : A) :
  lift r s = (Ok a, s') -> r = Ok a /\ s' = s.
Proof. unfold lift. intros Heq. injection Heq as -> <-. auto. Qed.

Lemma ask_returns {A} (a : result A -> Act) (f : N -> result A * N)
    (s s' : St) (r : A) :
  ask a f s = (Ok r, s') ->
  log s' = log s ++ [a (Ok r)] /\ blockhashCache s' = blockhashCache s
  /\ session s' = session s /\ f (node s) = (Ok r, node s').
Proof.
  unfold ask. destruct (f (node s)) as [r' n'].
  intros Heq. injection Heq as -> <-. cbn. auto.
Qed.

Lemma tell_returns (n : Notice) (s s' : St (N:=N)) (u : unit) :
  tell n s = (Ok u, s') -> log s' = log s ++ [Told n].
Proof. unfold tell, record. intros Heq. injection Heq as _ <-. reflexivity. Qed.

Lemma appended {A} (m : M (N:=N) A) (s : St) :
  emits (fun _ => True) m ->
  exists added, log (snd (m s)) = log s ++ added.
Proof. intros Hm. destruct (Hm s) as (l & E & _). now exists l. Qed.

End StakingLogic.

Section StakingHook.
Context `{Web3} {N : Type} {HN : Staking.Node N}.
Import Staking.

(** Goals [emits P m]; [tac] proves that an action satisfies [P]. *)
Ltac staking_emit tac :=
  unfold tell, getLatestBlockhash, getAccountInfo, getBalance, getTransaction,
    sendTransaction, confirmTransaction, post, socketEmit, dateNow,
    socketConnected, gameStateRef, complete;
  repeat first
    [ apply staking_emits_ret
    | apply staking_emits_throw
    | apply staking_emits_lift
    | apply staking_emits_read
    | apply staking_emits_readCache
    | apply staking_emits_writeCache
    | apply staking_emits_setGameState
    | apply staking_emits_record; tac
    | apply staking_emits_ask; intros ?; tac
    | apply staking_emits_bind; [|intros ?]
    | apply staking_emits_try_catch; [|intros ?]
    | match goal with
      | |- emits _ (match ?x with _ => _ end) => destruct x
      end ].

(** *** waitAndLogTx *)

Lemma pollTransaction_log (signature : jsstring) (attempts : nat) :
  forall s : St,
    exists (misses : nat) (last : list Act),
      log (snd (pollTransaction attempts signature s))
        = log s ++ repeat (AskedTransaction signature (Ok false)) misses ++ last
      /\ ((misses = attempts /\ last = [] /\
           fst (pollTransaction attempts signature s) = Ok false)
          \/ ((misses < attempts)%nat /\
              ((last = [AskedTransaction signature (Ok true)] /\
                fst (pollTransaction attempts signature s) = Ok true)
               \/ exists e,
                    last = [AskedTransaction signature (Throw e)] /\
                    fst (pollTransaction attempts signature s) = Throw e)))
      /\ blockhashCache (snd (pollTransaction attempts signature s))
         = blockhashCache s
      /\ session (snd (pollTransaction attempts signature s)) = session s.
Proof.
  induction attempts as [|attempts IH]; intros s.
  - exists 0%nat, []. cbn. rewrite app_nil_r.
    split; [reflexivity|]. split; [left; auto | auto].
  - cbn [pollTransaction]. unfold bind, getTransaction, ask.
    destruct (transaction_there signature (node s)) as [[[|]|e] n'].
    + exists 0%nat, [AskedTransaction signature (Ok true)]. cbn.
      split; [reflexivity|]. split; [|auto]. right. split; [lia|]. left. auto.
    + match goal with
      | |- context [pollTransaction attempts signature ?s1] =>
          destruct (IH s1) as (misses & last & Hlog & Hend & Hcache & Hsession)
      end.
      exists (S misses), last. rewrite Hlog, Hcache, Hsession. cbn.
      rewrite <- app_assoc. split; [reflexivity|]. split; [|auto].
      destruct Hend as [(-> & -> & Hr) | (Hlt & Hr)].
      * left. auto.
      * right. split; [lia | exact Hr].
    + exists 0%nat, [AskedTransaction signature (Throw e)]. cbn.
      split; [reflexivity|]. split; [|auto]. right. split; [lia|]. right.
      exists e. auto.
Qed.

(** X22. waitAndLogTx never throws, asks the node for the transaction at least
    once and at most 20 times, and stops asking at the first answer that
    is not "not there yet": all requests but the last were answered that
    way, and when a transaction or an error came back it came last. *)
Theorem waitAndLogTx_asks_until_answered (signature : jsstring) (s : St) :
  fst (waitAndLogTx signature s) = Ok tt
  /\ exists (misses : nat) (last : list Act),
       log (snd (waitAndLogTx signature s))
         = log s ++ repeat (AskedTransaction signature (Ok false)) misses ++ last
       /\ ((misses = 20%nat /\ last = [])
           \/ ((misses < 20)%nat /\
               exists answer,
                 last = [AskedTransaction signature answer] /\
                 answer <> Ok false)).
Proof.
  destruct (pollTransaction_log signature 20 s)
    as (misses & last & Hlog & Hend & _).
  unfold waitAndLogTx, try_catch, bind.
  destruct (pollTransaction 20 signature s) as [[found|e] s1]; cbn in *.
  - split; [reflexivity|]. exists misses, last. split; [exact Hlog|].
    destruct Hend as [(-> & -> & _) | (Hlt & [(-> & _) | (e & -> & _)])].
    + left. auto.
    + right. split; [exact Hlt|]. eexists. split; [reflexivity | discriminate].
    + right. split; [exact Hlt|]. eexists. split; [reflexivity | discriminate].
  - split; [reflexivity|]. exists misses, last. split; [exact Hlog|].
    destruct Hend as [(-> & -> & _) | (Hlt & [(-> & _) | (e' & -> & _)])].
    + left. auto.
    + right. split; [exact Hlt|]. eexists. split; [reflexivity | discriminate].
    + right. split; [exact Hlt|]. eexists. split; [reflexivity | discriminate].
Qed.

Lemma pollTransaction_emits (P : Act -> Prop) (signature : jsstring)
    (attempts : nat) :
  (forall answer, P (AskedTransaction signature answer)) ->
  emits P (pollTransaction attempts signature).
Proof.
  intros HP. induction attempts as [|attempts IH]; cbn [pollTransaction].
  - apply staking_emits_ret.
  - apply staking_emits_bind.
    + apply staking_emits_ask. exact HP.
    + intros [|]; [apply staking_emits_ret | exact IH].
Qed.

Lemma waitAndLogTx_emits (P : Act -> Prop) (signature : jsstring) :
  (forall answer, P (AskedTransaction signature answer)) ->
  emits P (waitAndLogTx signature).
Proof.
  intros HP. unfold waitAndLogTx.
  apply staking_emits_try_catch; [|intros e; apply staking_emits_ret].
  apply staking_emits_bind; [|intros b; apply staking_emits_ret].
  now apply pollTransaction_emits.
Qed.

Lemma waitAndLogTx_safe (signature : jsstring) : safe (waitAndLogTx signature).
Proof.
  unfold waitAndLogTx. apply safe_try_catch. intros e. apply safe_ret.
Qed.

(** *** getCachedBlockhash *)

Lemma getCachedBlockhash_emits (P : Act -> Prop) :
  P AskedBlockhash -> emits P getCachedBlockhash.
Proof.
  intros HP. unfold getCachedBlockhash.
  staking_emit ltac:(exact HP).
Qed.

(** The call on the module's cache is the call of [BlockhashCache], with
    the clock and the node of the outside. *)
Lemma getCachedBlockhash_on_the_cache (s : St) :
  let now := fst (clock (node s)) in
  let latest := fst (latest_blockhash (snd (clock (node s)))) in
  let call := BlockhashCache.getCachedBlockhash now latest (blockhashCache s) in
  fst (getCachedBlockhash s) = fst (fst call)
  /\ blockhashCache (snd (getCachedBlockhash s)) = snd (fst call)
  /\ log (snd (getCachedBlockhash s))
     = log s ++ (if snd call then [AskedBlockhash] else []).
Proof.
  unfold getCachedBlockhash, BlockhashCache.getCachedBlockhash,
    bind, dateNow, read, readCache, getLatestBlockhash, ask, writeCache, ret.
  destruct (clock (node s)) as [now n1]. cbn.
  destruct (BlockhashCache.cached now (blockhashCache s)) as [hash|]; cbn.
  - rewrite app_nil_r. auto.
  - destruct (latest_blockhash n1) as [[hash|e] n2]; cbn; auto.
Qed.

(** *** initializeUserProfile *)

Lemma initializeUserProfile_emits (P : Act -> Prop)
    (wallet : AnchorProgram.Wallet) :
  (forall a, is_stake a = false -> is_acknowledgment a = false -> P a) ->
  emits P (initializeUserProfile wallet).
Proof.
  intros HP. unfold initializeUserProfile, getCachedBlockhash.
  destruct (usable wallet) as [publicKey|];
    staking_emit ltac:(apply HP; reflexivity).
Qed.

Lemma initializeUserProfile_safe (wallet : AnchorProgram.Wallet) :
  safe (initializeUserProfile wallet).
Proof.
  unfold initializeUserProfile.
  destruct (usable wallet) as [publicKey|].
  - apply safe_try_catch. intros e.
    apply safe_bind; [apply safe_record | intros _; apply safe_ret].
  - apply safe_bind; [apply safe_record | intros _; apply safe_ret].
Qed.

Ltac quiet :=
  apply sends_nothing;
  staking_emit ltac:(reflexivity).

Lemma initializeUserProfile_sends_once (wallet : AnchorProgram.Wallet) :
  sends_at_most 1 (initializeUserProfile wallet).
Proof.
  unfold initializeUserProfile.
  destruct (usable wallet) as [publicKey|];
    [|apply (sends_weaken 0 1); [lia | quiet]].
  apply (sends_try_catch 1 0); [|intros e; quiet].
  apply (sends_bind 0 1); [quiet | intros userProfilePDA].
  apply (sends_try_catch 1 0); [|intros e; quiet].
  apply (sends_bind 0 1); [quiet | intros profileAccount].
  destruct profileAccount; [apply (sends_weaken 0 1); [lia | quiet]|].
  apply (sends_bind 0 1); [unfold getCachedBlockhash; quiet | intros blockhash].
  apply (sends_bind 1 0); [apply sends_ask | intros signature].
  quiet.
Qed.

(** X23. initializeUserProfile never throws and hands at most one transaction
    to the wallet; when it returns true, the node has said that the
    profile account is there, or the wallet has sent the transaction that
    creates it and the node has confirmed it without an error. *)
Theorem initializeUserProfile_true_means_profile
    (wallet : AnchorProgram.Wallet) (s : St) :
  (exists b, fst (initializeUserProfile wallet s) = Ok b)
  /\ exists added,
       log (snd (initializeUserProfile wallet s)) = log s ++ added
       /\ (sent added <= 1)%nat
       /\ (fst (initializeUserProfile wallet s) = Ok true ->
           (exists userProfilePDA, In (AskedAccount userProfilePDA (Ok true)) added)
           \/ exists tx signature,
                In (Sent tx (Ok signature)) added /\
                In (AskedConfirmation signature (Ok None)) added).
Proof.
  split; [apply initializeUserProfile_safe|].
  destruct (initializeUserProfile_sends_once wallet s) as (added & Hlog & Hsent).
  exists added. split; [exact Hlog|]. split; [exact Hsent|].
  revert Hlog. clear Hsent.
  unfold initializeUserProfile, getCachedBlockhash.
  destruct (usable wallet) as [publicKey|]; [|cbn; discriminate].
  unfold try_catch, bind, lift, getAccountInfo, sendTransaction,
    confirmTransaction, getLatestBlockhash, dateNow, readCache, writeCache,
    read, ask, tell, record, ret.
  destruct (AnchorProgram.findUserProfilePDA publicKey) as [userProfilePDA|e];
    [|cbn; discriminate].
  destruct (account_there userProfilePDA (node s)) as [[[|]|e] n1]; cbn.
  - intros Hlog _. left. exists userProfilePDA.
    rewrite <- !app_assoc in Hlog.
    apply app_inv_head in Hlog. subst added. now left.
  - destruct (clock n1) as [now n2]. cbn.
    destruct (BlockhashCache.cached now (blockhashCache s)) as [hash|]; cbn.
    + match goal with
      | |- context [wallet_sends ?tx n2] =>
          destruct (wallet_sends tx n2) as [[signature|e] n3]; cbn;
            [|discriminate]
      end.
      destruct (confirmation signature n3) as [[[err|]|e] n4]; cbn;
        try discriminate.
      intros Hlog _. right. rewrite <- !app_assoc in Hlog.
      apply app_inv_head in Hlog. subst added.
      eexists. exists signature. cbn. split; [right; left; reflexivity|].
      right. right. left. reflexivity.
    + destruct (latest_blockhash n2) as [[hash|e] n3]; cbn; [|discriminate].
      match goal with
      | |- context [wallet_sends ?tx n3] =>
          destruct (wallet_sends tx n3) as [[signature|e] n4]; cbn;
            [|discriminate]
      end.
      destruct (confirmation signature n4) as [[[err|]|e] n5]; cbn;
        try discriminate.
      intros Hlog _. right. rewrite <- !app_assoc in Hlog.
      apply app_inv_head in Hlog. subst added.
      eexists. exists signature. cbn. split; [do 2 right; left; reflexivity|].
      do 3 right. left. reflexivity.
  - destruct (clock n1) as [now n2]. cbn.
    destruct (BlockhashCache.cached now (blockhashCache s)) as [hash|]; cbn.
    + match goal with
      | |- context [wallet_sends ?tx n2] =>
          destruct (wallet_sends tx n2) as [[signature|e'] n3]; cbn;
            [|discriminate]
      end.
      destruct (confirmation signature n3) as [[[err|]|e'] n4]; cbn;
        try discriminate.
      intros Hlog _. right. rewrite <- !app_assoc in Hlog.
      apply app_inv_head in Hlog. subst added.
      eexists. exists signature. cbn. split; [right; left; reflexivity|].
      right. right. left. reflexivity.
    + destruct (latest_blockhash n2) as [[hash|e'] n3]; cbn; [|discriminate].
      match goal with
      | |- context [wallet_sends ?tx n3] =>
          destruct (wallet_sends tx n3) as [[signature|e'] n4]; cbn;
            [|discriminate]
      end.
      destruct (confirmation signature n4) as [[[err|]|e'] n5]; cbn;
        try discriminate.
      intros Hlog _. right. rewrite <- !app_assoc in Hlog.
      apply app_inv_head in Hlog. subst added.
      eexists. exists signature. cbn. split; [do 2 right; left; reflexivity|].
      do 3 right. left. reflexivity.
Qed.

End StakingHook.

Section StakingCalls.
Context `{Web3} {N : Type} {HN : Staking.Node N}.
Import Staking.

Lemma try_catch_returns {A} (m : M (N:=N) A) (h : string -> M (N:=N) A)
    (s s' : St) (a : A) :
  try_catch m h s = (Ok a, s') ->
  m s = (Ok a, s') \/ exists e s1, m s = (Throw e, s1) /\ h e s1 = (Ok a, s').
Proof.
  unfold try_catch. destruct (m s) as [[a'|e] s1]; intros Hrun.
  - now left.
  - right. now exists e, s1.
Qed.

Lemma read_returns {A} (f : N -> A * N) (s s' : St) (a : A) :
  read f s = (Ok a, s') -> log s' = log s.
Proof.
  unfold read. destruct (f (node s)) as [a' n'].
  intros Heq. injection Heq as _ <-. reflexivity.
Qed.

Lemma record_returns (a : Act) (s s' : St (N:=N)) (u : unit) :
  record a s = (Ok u, s') -> log s' = log s ++ [a].
Proof. unfold record. intros Heq. injection Heq as _ <-. reflexivity. Qed.

Lemma setGameState_returns (f : UseGame.GameState -> UseGame.GameState)
    (s s' : St (N:=N)) (u : unit) :
  setGameState f s = (Ok u, s') -> log s' = log s.
Proof. unfold setGameState. intros Heq. injection Heq as _ <-. reflexivity. Qed.

Lemma complete_returns (onComplete : bool) (s s' : St (N:=N)) (u : unit) :
  complete onComplete s = (Ok u, s') ->
  log s' = log s ++ (if onComplete then [Told HookComplete] else []).
Proof.
  unfold complete. destruct onComplete.
  - apply tell_returns.
  - intros Heq. injection Heq as _ <-. now rewrite app_nil_r.
Qed.

Lemma run_appended {A} (m : M (N:=N) A) (P : Act -> Prop) (s s' : St) (r : result A) :
  emits P m -> m s = (r, s') ->
  exists added, log s' = log s ++ added /\ Forall P added.
Proof.
  intros Hm Hrun. destruct (Hm s) as (l & E & F). rewrite Hrun in E.
  now exists l.
Qed.

(** Goals [emits P m] about the hook's functions. *)
Ltac hook_emit tac :=
  unfold createGame, joinGame, cancelGame, ensureUserProfile,
    initializeUserProfile, getCachedBlockhash;
  unfold tell, getLatestBlockhash, getAccountInfo, getBalance,
    sendTransaction, confirmTransaction, post, socketEmit, dateNow,
    socketConnected, gameStateRef, complete;
  repeat first
    [ apply staking_emits_ret
    | apply staking_emits_throw
    | apply staking_emits_lift
    | apply staking_emits_read
    | apply staking_emits_readCache
    | apply staking_emits_writeCache
    | apply staking_emits_setGameState
    | apply waitAndLogTx_emits; intros ?; tac
    | apply staking_emits_record; tac
    | apply staking_emits_ask; intros ?; tac
    | apply staking_emits_bind; [|intros ?]
    | apply staking_emits_try_catch; [|intros ?]
    | match goal with
      | |- emits _ (match ?x with _ => _ end) => destruct x
      end ].

(** The hook's functions tell the backend nothing. *)
Lemma ensureUserProfile_quiet (wallet : AnchorProgram.Wallet)
    (userProfilePDA : PublicKey) :
  emits (fun a => is_stake a = false /\ is_acknowledgment a = false)
    (ensureUserProfile wallet userProfilePDA).
Proof. hook_emit ltac:(split; reflexivity). Qed.

Lemma createGame_no_acknowledgment (wallet : AnchorProgram.Wallet)
    (gameId : option jsstring) (stakeAmount : Q) (currency : jsstring)
    (onComplete : bool) :
  emits (fun a => is_acknowledgment a = false)
    (createGame wallet gameId stakeAmount currency onComplete).
Proof. hook_emit ltac:(reflexivity). Qed.

Lemma joinGame_no_acknowledgment (wallet : AnchorProgram.Wallet)
    (gameId : option jsstring) (onComplete : bool) :
  emits (fun a => is_acknowledgment a = false)
    (joinGame wallet gameId onComplete).
Proof. hook_emit ltac:(reflexivity). Qed.

(** Without a usable wallet the two return false at once. *)
Lemma createGame_not_connected (wallet : AnchorProgram.Wallet)
    (gameId : option jsstring) (stakeAmount : Q) (currency : jsstring)
    (s : St) :
  usable wallet = None ->
  createGame wallet gameId stakeAmount currency false s
  = (Ok false,
     {| node := node s; blockhashCache := blockhashCache s;
        session := session s;
        log := log s ++ [Told (HookError "Cannot create game: wallet not connected")] |}).
Proof. intros Hwallet. unfold createGame. now rewrite Hwallet. Qed.

Lemma joinGame_not_connected (wallet : AnchorProgram.Wallet)
    (gameId : option jsstring) (s : St) :
  usable wallet = None ->
  joinGame wallet gameId false s
  = (Ok false,
     {| node := node s; blockhashCache := blockhashCache s;
        session := session s;
        log := log s ++ [Told (HookError "Cannot join game: wallet not connected")] |}).
Proof. intros Hwallet. unfold joinGame. now rewrite Hwallet. Qed.

(** One step back along a run that returned. *)
Tactic Notation "step_back" hyp(H) "as" ident(a) ident(Hstep) :=
  let s1 := fresh "s" in
  apply bind_returns in H; destruct H as (a & s1 & Hstep & H).

(** What a createGame that returned has done. *)
Lemma createGame_returns (wallet : AnchorProgram.Wallet)
    (gameId : option jsstring) (stakeAmount : Q) (currency : jsstring)
    (onComplete : bool) (publicKey : PublicKey) (s s' : St) (b : bool) :
  usable wallet = Some publicKey ->
  createGame wallet gameId stakeAmount currency onComplete s = (Ok b, s') ->
  b = true /\
  exists (id : jsstring) (gamePDA userProfilePDA : PublicKey)
         (signature : jsstring) (before after : list Act),
    gameId = Some id
    /\ AnchorProgram.findGamePDA id = Ok gamePDA
    /\ AnchorProgram.findUserProfilePDA publicKey = Ok userProfilePDA
    /\ log s' = log s ++ before
         ++ Sent (createGameTransaction id stakeAmount currency
                    gamePDA userProfilePDA publicKey) (Ok signature)
         :: AskedConfirmation signature (Ok None)
         :: after
    /\ Forall (fun a => is_stake a = false /\ is_acknowledgment a = false) before
    /\ In (AskedAccount gamePDA (Ok true)) after
    /\ Forall (fun a => is_acknowledgment a = false) after.
Proof.
  intros Hwallet Hrun. unfold createGame in Hrun. rewrite Hwallet in Hrun.
  apply try_catch_returns in Hrun.
  destruct Hrun as [Hrun | (e & sx & _ & Hcatch)].
  2:{ step_back Hcatch as u1 Hs1. step_back Hcatch as u2 Hs2.
      discriminate Hcatch. }
  step_back Hrun as id Hstep. apply lift_returns in Hstep as [Hid ->].
  step_back Hrun as gamePDA Hstep. apply lift_returns in Hstep as [Hgame ->].
  step_back Hrun as userProfilePDA Hstep.
  apply lift_returns in Hstep as [Hprofile ->].
  step_back Hrun as checked Hstep.
  destruct (run_appended _ _ _ _ _ (ensureUserProfile_quiet wallet userProfilePDA)
              Hstep) as (before & Hbefore & Hquiet).
  clear Hstep.
  step_back Hrun as balance1 Hstep. apply ask_returns in Hstep as (Hl1 & _).
  step_back Hrun as balance2 Hstep. apply ask_returns in Hstep as (Hl2 & _).
  step_back Hrun as signature Hstep. apply ask_returns in Hstep as (Hl3 & _).
  step_back Hrun as confirmed Hstep. apply ask_returns in Hstep as (Hl4 & _).
  step_back Hrun as passed Hstep.
  destruct confirmed as [err|]; [discriminate Hstep|].
  injection Hstep as _ <-.
  step_back Hrun as balance3 Hstep. apply ask_returns in Hstep as (Hl5 & _).
  step_back Hrun as balance4 Hstep. apply ask_returns in Hstep as (Hl6 & _).
  step_back Hrun as logged Hstep.
  destruct (run_appended _ _ _ _ _
              (waitAndLogTx_emits (fun a => is_acknowledgment a = false)
                 signature (fun _ => eq_refl)) Hstep)
    as (polls & Hpolls & Hpolled).
  clear Hstep.
  step_back Hrun as verified Hstep.
  apply try_catch_returns in Hstep.
  destruct Hstep as [Hverify | (e & sx & _ & Hcatch)];
    [|discriminate Hcatch].
  step_back Hverify as gameAccount Hstep.
  apply ask_returns in Hstep as (Hl7 & _).
  destruct gameAccount; [|discriminate Hverify]. injection Hverify as _ <-.
  match type of Hrun with
  | _ ?st = _ =>
      assert (Htail : exists tail,
                log s' = log st ++ tail /\
                Forall (fun a => is_acknowledgment a = false) tail)
        by (refine (run_appended _ _ _ _ _ _ Hrun);
            hook_emit ltac:(reflexivity))
  end.
  destruct Htail as (tail & Htail' & Htold).
  step_back Hrun as t1 Ht1. step_back Hrun as t2 Ht2.
  step_back Hrun as t3 Ht3. injection Hrun as <- _.
  split; [reflexivity|].
  exists id, gamePDA, userProfilePDA, signature,
    (before ++ [AskedBalance publicKey; AskedBalance gamePDA]),
    ([AskedBalance publicKey; AskedBalance gamePDA] ++ polls
       ++ [AskedAccount gamePDA (Ok true)] ++ tail).
  split; [now destruct gameId; inversion Hid|].
  split; [exact Hgame|]. split; [exact Hprofile|].
  split.
  - rewrite Htail', Hl7, Hpolls, Hl6, Hl5, Hl4, Hl3, Hl2, Hl1, Hbefore.
    rewrite <- !app_assoc. reflexivity.
  - split; [|split].
    + apply Forall_app. split; [exact Hquiet|]. repeat constructor.
    + cbn. right. right. apply in_or_app. right. now left.
    + repeat constructor. apply Forall_app. split; [exact Hpolled|].
      constructor; [reflexivity | exact Htold].
Qed.


(** What a joinGame that returned has done. *)
Lemma joinGame_returns (wallet : AnchorProgram.Wallet)
    (gameId : option jsstring) (onComplete : bool) (publicKey : PublicKey)
    (s s' : St) (b : bool) :
  usable wallet = Some publicKey ->
  joinGame wallet gameId onComplete s = (Ok b, s') ->
  b = true /\
  exists (id : jsstring) (gamePDA userProfilePDA : PublicKey)
         (blockhash signature : jsstring) (before after : list Act),
    gameId = Some id
    /\ AnchorProgram.findGamePDA id = Ok gamePDA
    /\ AnchorProgram.findUserProfilePDA publicKey = Ok userProfilePDA
    /\ log s' = log s ++ before
         ++ Sent (joinGameTransaction id blockhash gamePDA userProfilePDA
                    publicKey) (Ok signature)
         :: after
    /\ Forall (fun a => is_stake a = false /\ is_acknowledgment a = false) before
    /\ Forall (fun a => is_confirmation a = false /\ is_sent a = false
                        /\ is_acknowledgment a = false) after.
Proof.
  intros Hwallet Hrun. unfold joinGame in Hrun. rewrite Hwallet in Hrun.
  apply try_catch_returns in Hrun.
  destruct Hrun as [Hrun | (e & sx & _ & Hcatch)].
  2:{ step_back Hcatch as u1 Hs1. step_back Hcatch as u2 Hs2.
      discriminate Hcatch. }
  step_back Hrun as id Hstep. apply lift_returns in Hstep as [Hid ->].
  step_back Hrun as gamePDA Hstep. apply lift_returns in Hstep as [Hgame ->].
  step_back Hrun as userProfilePDA Hstep.
  apply lift_returns in Hstep as [Hprofile ->].
  step_back Hrun as checked Hstep.
  destruct (run_appended _ _ _ _ _ (ensureUserProfile_quiet wallet userProfilePDA)
              Hstep) as (before & Hbefore & Hquiet).
  clear Hstep.
  step_back Hrun as balance1 Hstep. apply ask_returns in Hstep as (Hl1 & _).
  step_back Hrun as balance2 Hstep. apply ask_returns in Hstep as (Hl2 & _).
  step_back Hrun as blockhash Hstep.
  destruct (run_appended _ _ _ _ _
              (getCachedBlockhash_emits
                 (fun a => is_stake a = false /\ is_acknowledgment a = false)
                 (conj eq_refl eq_refl)) Hstep)
    as (asked & Hasked & Hquiet').
  clear Hstep.
  step_back Hrun as signature Hstep.
  apply try_catch_returns in Hstep.
  destruct Hstep as [Hstep | (e & sx & _ & Hcatch)]; [|discriminate Hcatch].
  apply ask_returns in Hstep as (Hl3 & _).
  match type of Hrun with
  | _ ?st = _ =>
      assert (Htail : exists tail,
                log s' = log st ++ tail /\
                Forall (fun a => is_confirmation a = false /\ is_sent a = false
                                 /\ is_acknowledgment a = false) tail)
        by (refine (run_appended _ _ _ _ _ _ Hrun);
            hook_emit ltac:(repeat split; reflexivity))
  end.
  destruct Htail as (tail & Htail & Htold).
  step_back Hrun as t1 Ht1. step_back Hrun as t2 Ht2.
  step_back Hrun as t3 Ht3. step_back Hrun as t4 Ht4.
  step_back Hrun as t5 Ht5. step_back Hrun as t6 Ht6.
  step_back Hrun as t7 Ht7. injection Hrun as <- _.
  split; [reflexivity|].
  exists id, gamePDA, userProfilePDA, blockhash, signature,
    (before ++ [AskedBalance publicKey; AskedBalance gamePDA] ++ asked), tail.
  split; [now destruct gameId; inversion Hid|].
  split; [exact Hgame|]. split; [exact Hprofile|].
  split; [|split].
  - rewrite Htail, Hl3, Hasked, Hl2, Hl1, Hbefore.
    rewrite <- !app_assoc. reflexivity.
  - apply Forall_app. split; [exact Hquiet|].
    repeat constructor. exact Hquiet'.
  - exact Htold.
Qed.


(** X25. joinGame returns true as soon as the wallet has sent the transaction
    that joins the game: after it the node is asked for balances and for
    the transaction, never for a confirmation, and nothing more is sent. *)
Theorem joinGame_true_without_confirmation (wallet : AnchorProgram.Wallet)
    (gameId : option jsstring) (onComplete : bool) (s : St) :
  fst (joinGame wallet gameId onComplete s) = Ok true ->
  exists (publicKey : PublicKey) (id : jsstring)
         (gamePDA userProfilePDA : PublicKey)
         (blockhash signature : jsstring) (before after : list Act),
    usable wallet = Some publicKey
    /\ gameId = Some id
    /\ AnchorProgram.findGamePDA id = Ok gamePDA
    /\ AnchorProgram.findUserProfilePDA publicKey = Ok userProfilePDA
    /\ log (snd (joinGame wallet gameId onComplete s))
       = log s ++ before
           ++ Sent (joinGameTransaction id blockhash gamePDA userProfilePDA
                      publicKey) (Ok signature)
           :: after
    /\ Forall (fun a => is_confirmation a = false /\ is_sent a = false) after.
Proof.
  intros Htrue.
  destruct (usable wallet) as [publicKey|] eqn:Hwallet.
  - destruct (joinGame wallet gameId onComplete s) as [r s'] eqn:Hrun.
    cbn in Htrue. subst r.
    destruct (joinGame_returns _ _ _ _ _ _ _ Hwallet Hrun)
      as (_ & id & gamePDA & userProfilePDA & blockhash & signature & before
          & after & Hid & Hgame & Hprofile & Hlog & _ & Hafter).
    exists publicKey, id, gamePDA, userProfilePDA, blockhash, signature,
      before, after.
    cbn. split; [reflexivity|]. repeat (split; [assumption|]).
    revert Hafter. apply Forall_impl. intros a (Hc & Hs & _). auto.
  - unfold joinGame in Htrue. rewrite Hwallet in Htrue.
    destruct onComplete; discriminate Htrue.
Qed.

(** X26. cancelGame reports the refund and returns true whenever the wallet
    has sent the transaction and the node has answered the request for
    confirmation, whatever the answer: an error in the confirmation is
    not looked at. *)
Theorem cancelGame_ignores_confirmation_error (wallet : AnchorProgram.Wallet)
    (gameId : jsstring) (onComplete : bool) (s : St)
    (publicKey gamePDA : PublicKey) (signature : jsstring)
    (answer : option string) (n1 n2 : N) :
  usable wallet = Some publicKey ->
  AnchorProgram.findGamePDA gameId = Ok gamePDA ->
  wallet_sends (cancelGameTransaction gameId gamePDA publicKey) (node s)
    = (Ok signature, n1) ->
  confirmation signature n1 = (Ok answer, n2) ->
  fst (cancelGame wallet gameId onComplete s) = Ok true
  /\ log (snd (cancelGame wallet gameId onComplete s))
     = log s
       ++ [Sent (cancelGameTransaction gameId gamePDA publicKey) (Ok signature);
           AskedConfirmation signature (Ok answer);
           Told (HookSuccess "Game cancelled and SOL refunded successfully!"%string)]
       ++ (if onComplete then [Told HookComplete] else []).
Proof.
  intros Hwallet Hgame Hsend Hconfirm.
  unfold cancelGame. rewrite Hwallet.
  unfold try_catch, bind, lift, sendTransaction, confirmTransaction, ask,
    tell, record, complete, ret.
  rewrite Hgame. cbn. rewrite Hsend. cbn. rewrite Hconfirm.
  destruct onComplete; cbn; rewrite <- ?app_assoc; split; reflexivity.
Qed.

(** cancelGame never throws. *)
Lemma cancelGame_safe (wallet : AnchorProgram.Wallet) (gameId : jsstring)
    (onComplete : bool) :
  safe (cancelGame wallet gameId onComplete).
Proof.
  unfold cancelGame. destruct (usable wallet) as [publicKey|].
  - apply safe_try_catch. intros e.
    apply safe_bind; [apply safe_record | intros _].
    apply safe_bind; [|intros _; apply safe_ret].
    unfold complete. destruct onComplete; [apply safe_record | apply safe_ret].
  - apply safe_bind; [apply safe_record | intros _].
    apply safe_bind; [|intros _; apply safe_ret].
    unfold complete. destruct onComplete; [apply safe_record | apply safe_ret].
Qed.

End StakingCalls.

Section StakingHandlers.
Context `{Web3} {N : Type} {HN : Staking.Node N}.
Variable toString : PublicKey -> jsstring.
Import Staking.

(** notifyBackend posts once, emits at most once, and does not throw. *)
Lemma notifyBackend_runs (path event : string) (gameId : option jsstring)
    (s : St) :
  fst (notifyBackend path event gameId s) = Ok tt
  /\ exists (actualGameId : option jsstring) (emitted : list Act),
       log (snd (notifyBackend path event gameId s))
         = log s ++ Posted path actualGameId :: emitted
       /\ (emitted = [] \/ emitted = [Emitted event actualGameId])
       /\ actualGameId
          = str_or (UseGame.gameId (fst (game_state_ref (node s)))) gameId.
Proof.
  unfold notifyBackend, bind, try_catch, gameStateRef, socketConnected, read,
    post, ask, socketEmit, record, ret.
  destruct (game_state_ref (node s)) as [current n1]. cbn.
  destruct (http_post path _ n1) as [[success|e] n2]; cbn;
    destruct (socket_connected n2) as [[|] n3]; cbn;
    (split; [reflexivity|]); eexists; eexists;
    rewrite <- ?app_assoc; (split; [reflexivity|]); auto.
Qed.

Lemma read_runs {A} (f : N -> A * N) (s : St) :
  exists s', read f s = (Ok (fst (f (node s))), s') /\ log s' = log s.
Proof.
  unfold read. destruct (f (node s)) as [a n']. eexists. split; reflexivity.
Qed.

(** The branch, for a wallet that is not usable. *)
Lemma stakeForPosition_refused (wallet : AnchorProgram.Wallet)
    (data : UseGame.EventData) (ref : UseGame.GameState) (s : St) :
  usable wallet = None ->
  (let myPlayerId :=
     UseGame.myPlayerId (option_map toString (AnchorProgram.publicKey wallet)) in
   fst (position data myPlayerId) = true
   \/ snd (position data myPlayerId) = true) ->
  exists s' added,
    stakeForPosition toString wallet data ref s = (Ok tt, s')
    /\ log s' = log s ++ added
    /\ sent added = 0%nat
    /\ exists path gameId, In (Posted path gameId) added.
Proof.
  intros Hwallet Hposition. cbv zeta in Hposition.
  unfold stakeForPosition.
  destruct (position data _) as [[|] isPlayer2]; cbn [fst snd] in Hposition.
  - unfold bind at 1. rewrite (createGame_not_connected _ _ _ _ _ Hwallet).
    unfold bind at 1, setGameState. cbv beta iota.
    match goal with
    | |- context [notifyBackend ?p ?e ?g ?st] =>
        destruct (notifyBackend_runs p e g st)
          as (Hok & actual & emitted & Hlog & Hemitted & _);
        destruct (notifyBackend p e g st) as [r s2]
    end.
    cbn in Hok, Hlog |- *. subst r. exists s2. eexists.
    split; [reflexivity|].
    rewrite Hlog, <- !app_assoc. split; [reflexivity|]. split.
    + destruct Hemitted as [-> | ->]; reflexivity.
    + exists "/api/games/onchain/created"%string, actual. cbn. auto.
  - destruct isPlayer2; [|destruct Hposition as [Hp | Hp]; discriminate Hp].
    unfold bind at 1. rewrite (joinGame_not_connected _ _ _ Hwallet).
    unfold bind at 1, setGameState. cbv beta iota.
    match goal with
    | |- context [notifyBackend ?p ?e ?g ?st] =>
        destruct (notifyBackend_runs p e g st)
          as (Hok & actual & emitted & Hlog & Hemitted & _);
        destruct (notifyBackend p e g st) as [r s2]
    end.
    cbn in Hok, Hlog |- *. subst r. exists s2. eexists.
    split; [reflexivity|].
    rewrite Hlog, <- !app_assoc. split; [reflexivity|]. split.
    + destruct Hemitted as [-> | ->]; reflexivity.
    + exists "/api/games/onchain/joined"%string, actual. cbn. auto.
Qed.

(** The branch, for a usable wallet: whether it returns or throws, what
    it has added to the log has the stake before every acknowledgment. *)
Lemma stakeForPosition_stake_first (wallet : AnchorProgram.Wallet)
    (data : UseGame.EventData) (ref : UseGame.GameState) (s : St)
    (publicKey : PublicKey) :
  usable wallet = Some publicKey ->
  exists added,
    log (snd (stakeForPosition toString wallet data ref s)) = log s ++ added
    /\ stake_first added.
Proof.
  intros Hwallet. unfold stakeForPosition.
  destruct (position data _) as [[|] isPlayer2].
  - (* player one creates the game *)
    unfold bind at 1.
    match goal with
    | |- context [createGame ?w ?g ?a ?c ?o ?st] =>
        destruct (createGame_no_acknowledgment w g a c o st)
          as (made & Hmade & Hquiet);
        destruct (createGame w g a c o st) as [[created|e] s1] eqn:Hcreate
    end; cbn [snd log] in Hmade.
    + destruct (createGame_returns _ _ _ _ _ _ _ _ _ Hwallet Hcreate)
        as (_ & id & gamePDA & userProfilePDA & signature & before & after
            & _ & _ & _ & Hlog & Hbefore & _ & Hafter).
      unfold bind at 1, setGameState. cbv beta iota.
      match goal with
      | |- context [notifyBackend ?p ?e ?g ?st] =>
          destruct (notifyBackend_runs p e g st)
            as (_ & actual & emitted & Hposted & _);
          destruct (notifyBackend p e g st) as [r s2]
      end.
      cbn in Hposted |- *. eexists.
      rewrite Hposted, Hlog, <- !app_assoc. split; [reflexivity|].
      intros a Ha Hack.
      exists before. eexists. eexists. exists signature.
      split; [reflexivity|]. split; [reflexivity|].
      apply in_app_or in Ha as [Ha | Ha].
      { rewrite Forall_forall in Hbefore.
        destruct (Hbefore a Ha) as [_ Hno]. congruence. }
      cbn in Ha. destruct Ha as [<- | [<- | Ha]]; try discriminate Hack.
      right. exact Ha.
    + exists made. cbn [snd]. split; [exact Hmade|].
      intros a Ha Hack. rewrite Forall_forall in Hquiet.
      rewrite (Hquiet a Ha) in Hack. discriminate Hack.
  - destruct isPlayer2.
    2:{ exists []. cbn. rewrite app_nil_r. split; [reflexivity|]. intros a []. }
    (* player two joins it *)
    unfold bind at 1.
    match goal with
    | |- context [joinGame ?w ?g ?o ?st] =>
        destruct (joinGame_no_acknowledgment w g o st)
          as (made & Hmade & Hquiet);
        destruct (joinGame w g o st) as [[joined|e] s1] eqn:Hjoin
    end; cbn [snd log] in Hmade.
    + destruct (joinGame_returns _ _ _ _ _ _ _ Hwallet Hjoin)
        as (_ & id & gamePDA & userProfilePDA & blockhash & signature
            & before & after & _ & _ & _ & Hlog & Hbefore & Hafter).
      unfold bind at 1, setGameState. cbv beta iota.
      match goal with
      | |- context [notifyBackend ?p ?e ?g ?st] =>
          destruct (notifyBackend_runs p e g st)
            as (_ & actual & emitted & Hposted & _);
          destruct (notifyBackend p e g st) as [r s2]
      end.
      cbn in Hposted |- *. eexists.
      rewrite Hposted, Hlog, <- !app_assoc. split; [reflexivity|].
      intros a Ha Hack.
      exists before. eexists. eexists. exists signature.
      split; [reflexivity|]. split; [reflexivity|].
      apply in_app_or in Ha as [Ha | Ha].
      { rewrite Forall_forall in Hbefore.
        destruct (Hbefore a Ha) as [_ Hno]. congruence. }
      cbn in Ha. destruct Ha as [<- | Ha]; [discriminate Hack|].
      exact Ha.
    + exists made. cbn [snd]. split; [exact Hmade|].
      intros a Ha Hack. rewrite Forall_forall in Hquiet.
      rewrite (Hquiet a Ha) in Hack. discriminate Hack.
Qed.

(** Actions that are no acknowledgment, put around a run, keep the stake
    first. *)
Lemma stake_first_framed (pre added post : list Act) :
  Forall (fun a => is_acknowledgment a = false) pre ->
  Forall (fun a => is_acknowledgment a = false) post ->
  stake_first added -> stake_first (pre ++ added ++ post).
Proof.
  intros Hpre Hpost Hadded a Ha Hack.
  rewrite Forall_forall in Hpre, Hpost.
  apply in_app_or in Ha as [Ha | Ha];
    [rewrite (Hpre a Ha) in Hack; discriminate Hack|].
  apply in_app_or in Ha as [Ha | Ha];
    [|rewrite (Hpost a Ha) in Hack; discriminate Hack].
  destruct (Hadded a Ha Hack) as (before & after & tx & signature & -> & Hstake & Hin).
  exists (pre ++ before), (after ++ post), tx, signature.
  rewrite <- !app_assoc. split; [reflexivity|]. split; [exact Hstake|].
  apply in_or_app. now left.
Qed.

(** The handler, around the branch. *)
Lemma handleGameStartedPreTx_runs (wallet : AnchorProgram.Wallet)
    (data : UseGame.EventData) (s : St) :
  let ref := fst (game_state_ref (node s)) in
  exists s',
    handleGameStartedPreTx toString wallet data s = (Ok tt, s')
    /\ ((stakesOnStart wallet data ref = false /\ log s' = log s)
        \/ (stakesOnStart wallet data ref = true /\
            exists s1 (failed : list Act),
              log s1
              = log s ++ [Told (GameCallback
                                  (UseGame.CbGameJoined (UseGame.gameStateData data)))]
              /\ log s'
                 = log (snd (stakeForPosition toString wallet data ref s1)) ++ failed
              /\ match fst (stakeForPosition toString wallet data ref s1) with
                 | Ok _ => failed = []
                 | Throw e =>
                     failed = [Told (GameError ("Failed to stake SOL: " ++ e))]
                 end)).
Proof.
  cbv zeta. unfold handleGameStartedPreTx, bind at 1, gameStateRef, read.
  destruct (game_state_ref (node s)) as [ref n1]. cbn [fst].
  unfold bind at 1, setGameState.
  destruct (stakesOnStart wallet data ref).
  2:{ eexists. split; [reflexivity|]. left. split; reflexivity. }
  unfold callbacks, bind at 1 2, tell, record, ret. cbv beta iota.
  unfold try_catch, bind at 1, dateNow, read. cbn [node].
  destruct (clock n1) as [startTime n2]. unfold bind at 1.
  match goal with
  | |- context [stakeForPosition toString wallet data ref ?st] =>
      set (s1 := st);
      destruct (stakeForPosition toString wallet data ref s1)
        as [[done|e] s2] eqn:Hbranch
  end.
  - unfold bind. destruct (clock (node s2)) as [endTime n3].
    eexists. split; [reflexivity|]. right. split; [reflexivity|].
    exists s1, []. rewrite Hbranch. cbn [fst snd log].
    rewrite app_nil_r. auto.
  - eexists. split; [reflexivity|]. right. split; [reflexivity|].
    exists s1. eexists. rewrite Hbranch. cbn [fst snd log]. auto.
Qed.

(** X27. A client whose wallet has a key but is not connected (Privy knows the
    wallet, the user is not authenticated) stakes nothing when a private
    SOL game starts, and tells the backend all the same that its stake is
    on the chain: createGame and joinGame return false, which the handler
    does not look at. *)
Theorem acknowledged_without_stake (wallet : AnchorProgram.Wallet)
    (data : UseGame.EventData) (s : St) :
  usable wallet = None ->
  stakesOnStart wallet data (fst (game_state_ref (node s))) = true ->
  (let myPlayerId :=
     UseGame.myPlayerId (option_map toString (AnchorProgram.publicKey wallet)) in
   fst (position data myPlayerId) = true
   \/ snd (position data myPlayerId) = true) ->
  fst (handleGameStartedPreTx toString wallet data s) = Ok tt
  /\ exists added : list Act,
       log (snd (handleGameStartedPreTx toString wallet data s))
         = log s ++ added
       /\ sent added = 0%nat
       /\ exists path gameId, In (Posted path gameId) added.
Proof.
  intros Hwallet Hstakes Hposition.
  destruct (handleGameStartedPreTx_runs wallet data s)
    as (s' & -> & [(Hno & _) | (_ & s1 & failed & Hs1 & Hlog & Hfailed)]);
    [congruence|].
  split; [reflexivity|]. cbn [snd].
  destruct (stakeForPosition_refused wallet data
              (fst (game_state_ref (node s))) s1 Hwallet Hposition)
    as (s2 & added & Hbranch & Hadded & Hsent & Hposted).
  rewrite Hbranch in Hlog, Hfailed. cbn in Hlog, Hfailed. subst failed.
  rewrite app_nil_r, Hadded, Hs1, <- app_assoc in Hlog.
  eexists. split; [exact Hlog|]. split.
  - cbn. exact Hsent.
  - destruct Hposted as (path & gameId & Hin).
    exists path, gameId. now right.
Qed.

(** X28. With a usable wallet the backend is told only after the stake: every
    acknowledgment of a run of the handler, by HTTP or by the socket,
    comes after a createGame or joinGame transaction that the wallet has
    sent in the same run.  The handler itself never throws. *)
Theorem acknowledgment_follows_stake (wallet : AnchorProgram.Wallet)
    (data : UseGame.EventData) (s : St) (publicKey : PublicKey) :
  usable wallet = Some publicKey ->
  fst (handleGameStartedPreTx toString wallet data s) = Ok tt
  /\ exists added : list Act,
       log (snd (handleGameStartedPreTx toString wallet data s))
         = log s ++ added
       /\ forall a, In a added -> is_acknowledgment a = true ->
          exists (before after : list Act) (tx : Transaction)
                 (signature : jsstring),
            added = before ++ Sent tx (Ok signature) :: after
            /\ is_stake (Sent tx (Ok signature)) = true
            /\ In a after.
Proof.
  intros Hwallet.
  destruct (handleGameStartedPreTx_runs wallet data s)
    as (s' & -> & [(_ & Hlog) | (_ & s1 & failed & Hs1 & Hlog & Hfailed)]);
    (split; [reflexivity|]); cbn [snd].
  - exists []. rewrite app_nil_r. split; [exact Hlog|]. intros a [].
  - destruct (stakeForPosition_stake_first wallet data
                (fst (game_state_ref (node s))) s1 publicKey Hwallet)
      as (added & Hadded & Hfirst).
    rewrite Hadded, Hs1, <- !app_assoc in Hlog.
    eexists. split; [exact Hlog|].
    apply (stake_first_framed [_] added failed); [| |exact Hfirst].
    + repeat constructor.
    + destruct (fst (stakeForPosition toString wallet data _ s1));
        subst failed; repeat constructor.
Qed.

End StakingHandlers.

Section PrivyWallets.
Context `{Web3}.
Import PrivyWallet.

(** X29. The wallet object of usePrivyWallet passes the guard of the contract
    hook exactly when the user is authenticated and a Solana wallet is
    known; it carries a key as soon as Privy is ready and the wallet is
    known, authenticated or not.  So the test [publicKey] of the handlers
    of use-game can pass where the guard of the contract hook fails. *)
Theorem wallet_usable_iff_authenticated (ready authenticated : bool)
    (wallets : list PrivyAccount) (userWallet : option PrivyAccount)
    (wallet : AnchorProgram.Wallet) :
  usePrivyWallet ready authenticated wallets userWallet = Ok wallet ->
  (AnchorProgram.publicKey wallet <> None <->
   ready = true /\ solanaWallet ready wallets userWallet <> None)
  /\ (Staking.usable wallet <> None <->
      authenticated = true /\ AnchorProgram.publicKey wallet <> None).
Proof.
  unfold usePrivyWallet, Staking.usable.
  destruct ready; cbn [negb].
  - destruct (solanaWallet true wallets userWallet) as [account|].
    + destruct (pk_of_base58 (address account)) as [publicKey|e];
        [|discriminate].
      intros Heq. injection Heq as <-. cbn.
      destruct authenticated; cbn; split; split;
        try (intros _; split; [reflexivity | discriminate]);
        try (intros _; discriminate);
        try (intros [Hno _]; discriminate Hno);
        try (intros Hno; now elim Hno).
    + intros Heq. injection Heq as <-. cbn.
      split; split;
        try (intros Hno; now elim Hno);
        try (intros [_ Hno]; now elim Hno).
  - intros Heq. injection Heq as <-. cbn.
    split; split;
      try (intros Hno; now elim Hno);
      try (intros [Hno _]; discriminate Hno);
      try (intros [_ Hno]; now elim Hno).
Qed.

End PrivyWallets.

Section StakingOnTheNode.
Import Concrete StakingSamples Staking.

(** Privy ready, alice known but not logged in: her wallet has a key and
    is not usable. *)
Lemma wallet_usable_iff_authenticated_witness :
  AnchorProgram.publicKey alice_logged_out <> None
  /\ (Staking.usable alice_logged_out <> None <->
      false = true /\ AnchorProgram.publicKey alice_logged_out <> None).
Proof.
  split; [discriminate|].
  exact (proj2 (wallet_usable_iff_authenticated (H := web3) true false
                  [alices_account] None alice_logged_out eq_refl)).
Defined.


(** Bob joins it. *)
Lemma joinGame_true_without_confirmation_witness :
  exists (before after : list Act) (tx : Transaction) (signature : jsstring),
    log (snd (joinGame (HN := granting_node) bobs_wallet (Some (lit "7"))
                false at_start))
    = before ++ Sent tx (Ok signature) :: after
    /\ Forall (fun a => is_confirmation a = false /\ is_sent a = false) after.
Proof.
  destruct (joinGame_true_without_confirmation (HN := granting_node)
              bobs_wallet (Some (lit "7")) false at_start eq_refl)
    as (publicKey & id & gamePDA & userProfilePDA & blockhash & signature
        & before & after & _ & _ & _ & _ & Hlog & Hafter).
  exists before, after. eexists. exists signature. split; [exact Hlog | exact Hafter].
Defined.

(** The node confirms the cancellation with an error; cancelGame reports
    the refund. *)
Lemma cancelGame_ignores_confirmation_error_witness :
  fst (cancelGame (HN := failing_node) bobs_wallet (lit "7") true at_start)
  = Ok true.
Proof.
  refine (proj1 (cancelGame_ignores_confirmation_error (HN := failing_node)
                   bobs_wallet (lit "7") true at_start (KeyText bob)
                   (KeyDerived [utf8_encode (lit "game"); utf8_encode (lit "7")]
                      (KeyText (lit "GstXQkBpu26KABj6YZ3pYKJhQphoQ72YL1zL38NC6D9U")))
                   (lit "signature") (Some "InstructionError"%string) tt tt
                   _ _ _ _));
    reflexivity.
Defined.

(** Alice, logged out, is told that her private SOL game starts. *)
Lemma acknowledged_without_stake_witness :
  exists added : list Act,
    log (snd (handleGameStartedPreTx (HN := granting_node) key_text
                alice_logged_out private_sol_start at_start))
    = added
    /\ sent added = 0%nat
    /\ exists path gameId, In (Posted path gameId) added.
Proof.
  destruct (acknowledged_without_stake (HN := granting_node) key_text
              alice_logged_out private_sol_start at_start)
    as (_ & added & Hlog & Hsent & Hposted).
  - reflexivity.
  - reflexivity.
  - left. reflexivity.
  - exists added. auto.
Defined.

(** Bob, logged in, is told the same. *)
Lemma acknowledgment_follows_stake_witness :
  fst (handleGameStartedPreTx (HN := granting_node) key_text bobs_wallet
         private_sol_start at_start) = Ok tt.
Proof.
  refine (proj1 (acknowledgment_follows_stake (HN := granting_node) key_text
                   bobs_wallet private_sol_start at_start (KeyText bob) _)).
  reflexivity.
Defined.

End StakingOnTheNode.

Section OnchainHandlers.
Context `{Web3} {N : Type} {HN : Staking.Node N}.
Import Staking.

(** X30. The handlers of [create_onchain_game] and [join_onchain_game] do the
    same: for a SOL game and a wallet that has a key but is not usable,
    the hook refuses, nothing is asked of the node or the wallet, and the
    acknowledgment is emitted. *)
Theorem onchain_handlers_acknowledge_refusal (wallet : AnchorProgram.Wallet)
    (data : UseGame.EventData) (s : St) :
  usable wallet = None ->
  AnchorProgram.publicKey wallet <> None ->
  UseGame.is_lit "sol" (UseGame.gd_currency (UseGame.gameStateData data)) = true ->
  let gameId :=
    str_or (UseGame.ev_gameId data)
           (UseGame.gd_gameId (UseGame.gameStateData data)) in
  handleCreateOnchainGame wallet data s
  = (Ok tt,
     {| node := node s; blockhashCache := blockhashCache s;
        session := session s;
        log := log s
               ++ [Told (HookError "Cannot create game: wallet not connected");
                   Emitted "onchain_game_created" gameId] |})
  /\ handleJoinOnchainGame wallet data s
     = (Ok tt,
        {| node := node s; blockhashCache := blockhashCache s;
           session := session s;
           log := log s
                  ++ [Told (HookError "Cannot join game: wallet not connected");
                      Emitted "onchain_game_joined" gameId] |}).
Proof.
  intros Hwallet Hkey Hsol gameId.
  assert (Hcurrency :
    is_sol (currency_or_points
              (UseGame.gd_currency (UseGame.gameStateData data))) = true).
  { unfold UseGame.is_lit, opt_str_eqb in Hsol.
    destruct (UseGame.gd_currency (UseGame.gameStateData data))
      as [[|c currency]|]; try discriminate Hsol.
    exact Hsol. }
  assert (Hpresent : UseGame.present (AnchorProgram.publicKey wallet) = true)
    by (destruct (AnchorProgram.publicKey wallet); [reflexivity | now elim Hkey]).
  unfold handleCreateOnchainGame, handleJoinOnchainGame.
  rewrite Hcurrency, Hpresent. cbn [andb].
  unfold try_catch, bind.
  rewrite (createGame_not_connected _ _ _ _ _ Hwallet).
  rewrite (joinGame_not_connected _ _ _ Hwallet).
  unfold socketEmit, record. cbn. rewrite <- !app_assoc. split; reflexivity.
Qed.

End OnchainHandlers.

Section OnchainHandlersOnTheNode.
Import Concrete StakingSamples Staking.

Lemma onchain_handlers_acknowledge_refusal_witness :
  fst (handleCreateOnchainGame (HN := granting_node) alice_logged_out
         private_sol_start at_start) = Ok tt
  /\ sent (log (snd (handleCreateOnchainGame (HN := granting_node)
                       alice_logged_out private_sol_start at_start))) = 0%nat.
Proof.
  rewrite (proj1 (onchain_handlers_acknowledge_refusal (HN := granting_node)
                    alice_logged_out private_sol_start at_start
                    eq_refl ltac:(discriminate) eq_refl)).
  split; reflexivity.
Defined.

End OnchainHandlersOnTheNode.
